(** * analisis-rotondas: the zone-crossing tracker and the video stabilizer

    A shallow embedding of

    - [DetectionsManager] of [src/services/javat.py] (the zone-crossing
      event tracker), and
    - [video_stabilizer] of [src/services/stabilizer.py] and of
      [src/python/services/stabilizer.py] (the two copies of the
      stabilization engine),

    followed by the properties the specification states about them. *)

From Stdlib Require Import ZArith QArith Floats.SpecFloat Lia.
From stdpp Require Import base option list gmap strings.

Set Default Proof Using "Type".
Local Open Scope Z_scope.
Local Open Scope nat_scope.

(** ** Python values shared by both subsystems *)

(** The exception classes that the modelled code can raise. *)
Inductive exn : Set :=
| ZeroDivisionError
| IndexError.

(** The outcome of running a piece of Python code on a mutable object
    of type [S]: either it finishes, or it raises.  In both cases the
    mutations done so far stay in the object, which is why [Raise]
    carries a state as well. *)
Inductive result (S : Type) : Type :=
| Ok (s : S)
| Raise (e : exn) (s : S).
Arguments Ok {S} s.
Arguments Raise {S} e s.

Definition after {S : Type} (r : result S) : S :=
  match r with
  | Ok s => s
  | Raise _ s => s
  end.

Definition raised {S : Type} (r : result S) : option exn :=
  match r with
  | Ok _ => None
  | Raise e _ => Some e
  end.

(** [for x in l: body], where [body] may raise: the loop stops at the
    first exception. *)
Fixpoint try_each {A S : Type} (body : A -> S -> result S) (l : list A) (s : S)
  : result S :=
  match l with
  | [] => Ok s
  | x :: l' =>
      match body x s with
      | Ok s' => try_each body l' s'
      | Raise e s' => Raise e s'
      end
  end.

(** [for x in l: body], where [body] cannot raise. *)
Fixpoint for_each {A S : Type} (body : A -> S -> S) (l : list A) (s : S) : S :=
  match l with
  | [] => s
  | x :: l' => for_each body l' (body x s)
  end.

(** Python's [enumerate]. *)
Fixpoint enumerate_from {A : Type} (n : nat) (l : list A) : list (nat * A) :=
  match l with
  | [] => []
  | x :: l' => (n, x) :: enumerate_from (S n) l'
  end.

Definition enumerate {A : Type} (l : list A) : list (nat * A) :=
  enumerate_from 0 l.

(** [s.replace(old, new)]: every occurrence of [old], found from left
    to right without overlap, becomes [new]; with an empty [old], [new]
    goes before every character and at the end. *)
Fixpoint replace_scan (old new : string) (skip : nat) (s : string) : string :=
  match s with
  | EmptyString => EmptyString
  | String c s' =>
      match skip with
      | S k => replace_scan old new k s'
      | O =>
          if String.prefix old s
          then String.app new (replace_scan old new (String.length old - 1) s')
          else String c (replace_scan old new 0 s')
      end
  end.

Fixpoint replace_between (new s : string) : string :=
  match s with
  | EmptyString => new
  | String c s' => String.app new (String c (replace_between new s'))
  end.

Definition replace (s old new : string) : string :=
  match old with
  | EmptyString => replace_between new s
  | _ => replace_scan old new 0 s
  end.

(** The two arithmetic operations [DetectionsManager.update] applies to
    its times: [frame_time / self.fps] and [exit_time - entry_time].
    Python dispatches them on the run-time type of the operands, so the
    tracker is embedded over any number type that offers them.
    [py_truediv] is [None] where Python raises [ZeroDivisionError]. *)
Class PyNumber (T : Type) := {
  py_truediv : T -> T -> option T;
  py_sub : T -> T -> T
}.

(** Exact rational arithmetic. *)
#[export] Instance Q_number : PyNumber Q := {
  py_truediv a b := if Qeq_bool b 0 then None else Some (a / b)%Q;
  py_sub a b := (a - b)%Q
}.

(** Python's [float]: IEEE 754 binary64, round to nearest even. *)
Module Float64.
Definition prec : Z := 53%Z.
Definition emax : Z := 1024%Z.

Definition of_Z (z : Z) : spec_float :=
  match z with
  | Z0 => S754_zero false
  | Zpos p => binary_round prec emax false p 0
  | Zneg p => binary_round prec emax true p 0
  end.

Definition is_zero (x : spec_float) : bool :=
  match x with
  | S754_zero _ => true
  | _ => false
  end.

Definition truediv (a b : spec_float) : option spec_float :=
  if is_zero b then None else Some (SFdiv prec emax a b).

Definition sub (a b : spec_float) : spec_float := SFsub prec emax a b.
End Float64.

#[export] Instance float_number : PyNumber spec_float := {
  py_truediv := Float64.truediv;
  py_sub := Float64.sub
}.

(** ** [src/services/javat.py]: class [DetectionsManager] *)

Module Javat.

(** What [update] reads of an [sv.Detections] object: the array
    [tracker_id], the array [class_id], and the attribute
    [vehicle_type] that [VideoProcessor.process_frame] attaches to
    some of the objects ([None] when the object has no such
    attribute).  The detections are those of a tracker: [tracker_id]
    is an array, as [ByteTrack.update_with_detections] leaves it. *)
Record Detections : Type := {
  tracker_id : list Z;
  class_id : list Z;
  vehicle_type : option (list string)
}.

(** [try: vehicle_type = detections_in_zone.vehicle_type[idx]
     except AttributeError: vehicle_type = "Desconocido"]:
    only the missing attribute is caught; an index out of range
    propagates as [IndexError], which is the [None] of this function. *)
Definition vehicle_type_at (d : Detections) (idx : nat) : option string :=
  match vehicle_type d with
  | None => Some "Desconocido"%string
  | Some types => types !! idx
  end.

Section Manager.
Context {T : Type} `{PyNumber T}.

(** The dictionary appended to [self.events]. *)
Record Event : Type := {
  Id : Z;
  Num_rotonda : string;
  Horario : string;
  Dia : string;
  Id_Entrada : nat;
  Id_salida : nat;
  Tiempo_Entrada : T;
  Tiempo_Salida : T;
  Tiempo_dentro : T;
  Tipo_vehiculo : string
}.

(** The attributes set by [__init__]. *)
Record DetectionsManager : Type := {
  num_rotonda : string;
  horario : string;
  dia : string;
  fps : T;
  tracker_id_to_zone_id : gmap Z nat;
  counts : gmap nat (gmap nat (gset Z));
  tracker_entry_info : gmap Z (nat * T * string);
  events : list Event;
  event_counter : nat
}.

Definition init (num_rotonda horario dia : string) (fps : T)
  : DetectionsManager :=
  {| num_rotonda := num_rotonda;
     horario := horario;
     dia := dia;
     fps := fps;
     tracker_id_to_zone_id := ∅;
     counts := ∅;
     tracker_entry_info := ∅;
     events := [];
     event_counter := 0 |}.

(** [d.setdefault(k, v)] *)
Definition setdefault {K V : Type} `{Countable K}
    (k : K) (v : V) (d : gmap K V) : gmap K V :=
  match d !! k with
  | Some _ => d
  | None => <[k := v]> d
  end.

(** Body of the inner loop of the entry registration (lines 110-117). *)
Definition entry_step (time_seconds : T) (zone_in_id : nat)
    (detections_in_zone : Detections) (obs : nat * Z)
    (self : DetectionsManager) : result DetectionsManager :=
  let '(idx, tid) := obs in
  match tracker_entry_info self !! tid with
  | Some _ => Ok self
  | None =>
      match vehicle_type_at detections_in_zone idx with
      | None => Raise IndexError self
      | Some vtype =>
          Ok {| num_rotonda := num_rotonda self;
                horario := horario self;
                dia := dia self;
                fps := fps self;
                tracker_id_to_zone_id :=
                  setdefault tid zone_in_id (tracker_id_to_zone_id self);
                counts := counts self;
                tracker_entry_info :=
                  <[tid := (zone_in_id, time_seconds, vtype)]>
                    (tracker_entry_info self);
                events := events self;
                event_counter := event_counter self |}
      end
  end.

Definition entry_zone (time_seconds : T) (zone : nat * Detections)
    (self : DetectionsManager) : result DetectionsManager :=
  try_each (entry_step time_seconds zone.1 zone.2)
           (enumerate (tracker_id zone.2)) self.

(** Lines 108-117. *)
Definition entry_phase (time_seconds : T)
    (detections_in_zones : list Detections) (self : DetectionsManager)
  : result DetectionsManager :=
  try_each (entry_zone time_seconds) (enumerate detections_in_zones) self.

(** The three statements on [self.counts] (lines 130-132). *)
Definition count_crossing (zone_out_id zone_in_id : nat) (tid : Z)
    (c : gmap nat (gmap nat (gset Z))) : gmap nat (gmap nat (gset Z)) :=
  let c1 := setdefault zone_out_id ∅ c in
  let row := default ∅ (c1 !! zone_out_id) in
  let row1 := setdefault zone_in_id ∅ row in
  let cell := default ∅ (row1 !! zone_in_id) in
  <[zone_out_id := <[zone_in_id := cell ∪ {[tid]}]> row1]> c1.

Definition make_event (self : DetectionsManager) (tid : Z)
    (zone_in_id zone_out_id : nat) (entry_time exit_time : T)
    (vtype : string) : Event :=
  let time_inside := py_sub exit_time entry_time in
  {| Id := tid;
     Num_rotonda := num_rotonda self;
     Horario := horario self;
     Dia := dia self;
     Id_Entrada := zone_in_id;
     Id_salida := zone_out_id;
     Tiempo_Entrada := entry_time;
     Tiempo_Salida := exit_time;
     Tiempo_dentro := time_inside;
     Tipo_vehiculo := vtype |}.

(** Body of the inner loop of the transition registration
    (lines 122-151). *)
Definition exit_step (time_seconds : T) (zone_out_id : nat) (tid : Z)
    (self : DetectionsManager) : DetectionsManager :=
  match tracker_entry_info self !! tid with
  | None => self
  | Some (zone_in_id, entry_time, vtype) =>
      let exit_time := time_seconds in
      {| num_rotonda := num_rotonda self;
         horario := horario self;
         dia := dia self;
         fps := fps self;
         tracker_id_to_zone_id := tracker_id_to_zone_id self;
         counts := count_crossing zone_out_id zone_in_id tid (counts self);
         tracker_entry_info := delete tid (tracker_entry_info self);
         events :=
           events self ++
           [make_event self tid zone_in_id zone_out_id
                       entry_time exit_time vtype];
         event_counter := event_counter self + 1 |}
  end.

Definition exit_zone (time_seconds : T) (zone : nat * Detections)
    (self : DetectionsManager) : DetectionsManager :=
  for_each (exit_step time_seconds zone.1) (tracker_id zone.2) self.

(** Lines 120-151. *)
Definition exit_phase (time_seconds : T)
    (detections_out_zones : list Detections) (self : DetectionsManager)
  : DetectionsManager :=
  for_each (exit_zone time_seconds) (enumerate detections_out_zones) self.

(** Lines 154-161: [class_id] of [detections_all] is overwritten
    with the entry zone recorded for each tracker id ([-1] when
    there is none), and the rows whose [class_id] is not [-1] are
    returned.  [len(detections_all)] is its number of rows, here the
    length of [tracker_id].  Indexing an [sv.Detections] builds a new
    object, which does not carry the [vehicle_type] attribute. *)
Definition zone_class (self : DetectionsManager) (tid : Z) : Z :=
  match tracker_id_to_zone_id self !! tid with
  | Some z => Z.of_nat z
  | None => (-1)%Z
  end.

Definition annotate (self : DetectionsManager) (detections_all : Detections)
  : Detections :=
  let classes :=
    if (0 <? length (tracker_id detections_all))%nat
    then map (zone_class self) (tracker_id detections_all)
    else [] in
  {| tracker_id := tracker_id detections_all;
     class_id := classes;
     vehicle_type := vehicle_type detections_all |}.

Definition kept_rows (d : Detections) : Detections :=
  let rows :=
    filter (fun row : Z * Z => negb (row.2 =? -1)%Z)
           (zip (tracker_id d) (class_id d)) in
  {| tracker_id := map fst rows;
     class_id := map snd rows;
     vehicle_type := None |}.

(** What a call of [update] leaves behind: the manager, the
    [detections_all] object it was given (mutated), and the value
    returned. *)
Record Updated : Type := {
  manager : DetectionsManager;
  detections_all_after : Detections;
  returned : option Detections
}.

Definition untouched (self : DetectionsManager) (detections_all : Detections)
  : Updated :=
  {| manager := self;
     detections_all_after := detections_all;
     returned := None |}.

(** [DetectionsManager.update] (lines 95-161). *)
Definition update (self : DetectionsManager) (detections_all : Detections)
    (detections_in_zones detections_out_zones : list Detections)
    (frame_time : T) : result Updated :=
  match py_truediv frame_time (fps self) with
  | None => Raise ZeroDivisionError (untouched self detections_all)
  | Some time_seconds =>
      match entry_phase time_seconds detections_in_zones self with
      | Raise e self1 => Raise e (untouched self1 detections_all)
      | Ok self1 =>
          let self2 := exit_phase time_seconds detections_out_zones self1 in
          let all2 := annotate self2 detections_all in
          Ok {| manager := self2;
                detections_all_after := all2;
                returned := Some (kept_rows all2) |}
      end
  end.

(** One call of [update], as [VideoProcessor.process_frame] makes
    it once per processed frame. *)
Record Call : Type := {
  call_all : Detections;
  call_in : list Detections;
  call_out : list Detections;
  call_time : T
}.

Definition update_call (self : DetectionsManager) (c : Call)
  : result Updated :=
  update self (call_all c) (call_in c) (call_out c) (call_time c).

(** The manager after a sequence of calls on the same object.  A
    call that raises leaves its mutations in the object; the
    sequence goes on from there, so that the states reached by a
    caller that stops at the first exception are among those
    reached here (as the states after a prefix of the calls). *)
Definition step (self : DetectionsManager) (c : Call) : DetectionsManager :=
  manager (after (update_call self c)).

Definition run (self : DetectionsManager) (calls : list Call)
  : DetectionsManager :=
  fold_left step calls self.

(** The tracker ids seen in a list of per-zone detections. *)
Definition observed (zones : list Detections) : list Z :=
  concat (map tracker_id zones).

(** The events of one tracker id, in the order they were appended. *)
Definition events_of (tid : Z) (self : DetectionsManager) : list Event :=
  filter (fun e => Id e = tid) (events self).

(** *** Vocabulary of the properties *)

(** What the entry registration never touches. *)
Definition same_log (m0 m : DetectionsManager) : Prop :=
  events m = events m0 /\ counts m = counts m0 /\
  event_counter m = event_counter m0 /\ fps m = fps m0 /\
  num_rotonda m = num_rotonda m0 /\ horario m = horario m0 /\
  dia m = dia m0.

(** What the transition registration never touches. *)
Definition same_context (m0 m : DetectionsManager) : Prop :=
  fps m = fps m0 /\ num_rotonda m = num_rotonda m0 /\
  horario m = horario m0 /\ dia m = dia m0 /\
  tracker_id_to_zone_id m = tracker_id_to_zone_id m0.

(** A record [r] of [tid] that was not in [m] and is there now:
    opened for a tracker id among [seen], with zone index [z] and
    time [t]. *)
Definition opened_here (t : T) (z : nat) (seen : list Z)
    (m : DetectionsManager) (tid : Z) (r : nat * T * string) : Prop :=
  tracker_entry_info m !! tid = None /\ tid ∈ seen /\
  r.1.1 = z /\ r.1.2 = t.

(** The first zone, in enumeration order, whose detections list
    [tid], with its index; and the first position of [tid] in an
    array of tracker ids. *)
Definition first_zone (tid : Z) (zones : list Detections)
  : option (nat * Detections) :=
  list_find (fun d => tid ∈ tracker_id d) zones.

Definition first_index (tid : Z) (ids : list Z) : option (nat * Z) :=
  list_find (fun x => x = tid) ids.

(** The part of the state that concerns one tracker id. *)
Definition view (tid : Z) (m : DetectionsManager)
  : option (nat * T * string) * list Event :=
  (tracker_entry_info m !! tid, events_of tid m).

(** An event appended by a call made at time [t] in state [m]:
    the exit time is [t], the time inside is exit minus entry, and
    the entry data are those of a record that was open in [m] or
    that this very call opened, at time [t]. *)
Definition emitted (t : T) (ins : list Detections) (m : DetectionsManager)
    (e : Event) : Prop :=
  Tiempo_Salida e = t /\
  Tiempo_dentro e = py_sub (Tiempo_Salida e) (Tiempo_Entrada e) /\
  ((exists vt, tracker_entry_info m !! Id e =
                 Some (Id_Entrada e, Tiempo_Entrada e, vt)) \/
   (tracker_entry_info m !! Id e = None /\ Id e ∈ observed ins /\
    Tiempo_Entrada e = t)).

(** An event that closes a record of [m] at time [t]. *)
Definition closes (t : T) (m : DetectionsManager) (e : Event) : Prop :=
  Tiempo_Salida e = t /\
  Tiempo_dentro e = py_sub (Tiempo_Salida e) (Tiempo_Entrada e) /\
  tracker_entry_info m !! Id e =
    Some (Id_Entrada e, Tiempo_Entrada e, Tipo_vehiculo e).

(** The constructor arguments, which no call changes. *)
Definition same_tags (m0 m : DetectionsManager) : Prop :=
  fps m = fps m0 /\ num_rotonda m = num_rotonda m0 /\
  horario m = horario m0 /\ dia m = dia m0.

(** A run in which the tracker id [tid] is observed exactly twice:
    by one call, made with frame time [ft1], in entry zones of which
    [z_in] is the first, and by a later call, made with frame time
    [ft2], in exit zones of which [z_out] is the first; both calls
    return. *)
Definition single_crossing (tid : Z) (z_in z_out : nat) (ft1 ft2 : T)
    (m0 : DetectionsManager) (calls : list Call) : Prop :=
  exists before c1 between c2 later d1 d2,
    calls = before ++ c1 :: between ++ c2 :: later /\
    (forall c, c ∈ before ++ between ++ later ->
       (tid ∉ observed (call_in c)) /\ (tid ∉ observed (call_out c))) /\
    call_time c1 = ft1 /\
    first_zone tid (call_in c1) = Some (z_in, d1) /\
    (tid ∉ observed (call_out c1)) /\
    call_time c2 = ft2 /\
    (tid ∉ observed (call_in c2)) /\
    first_zone tid (call_out c2) = Some (z_out, d2) /\
    raised (update_call (run m0 before) c1) = None /\
    raised (update_call (run m0 (before ++ c1 :: between)) c2) = None.

End Manager.

Arguments Event T : clear implicits.
Arguments DetectionsManager T : clear implicits.
Arguments Updated T : clear implicits.
Arguments Call T : clear implicits.

End Javat.

(** ** What the stabilizers use of [cv2] and [numpy] *)

Module Cv2.

(** The OpenCV operations called by [video_stabilizer].  Their
    results are not computed here: the stabilizer is embedded over
    any implementation of this interface.  [None] is Python's [None]
    where OpenCV returns it. *)
Class OpenCV (frame gray point homography : Type) := {
  (** [frame.shape[:2]]: height, then width *)
  shape : frame -> Z * Z;
  (** [cv2.cvtColor(frame, cv2.COLOR_BGR2GRAY)] *)
  cvtColor : frame -> gray;
  (** [cv2.goodFeaturesToTrack(gray, maxCorners, qualityLevel, minDistance)] *)
  goodFeaturesToTrack : gray -> Z -> Q -> Z -> option (list point);
  (** [cv2.calcOpticalFlowPyrLK(prev, next, points, None, **lk_params)]:
      the new points and the status flags (the error array is dropped
      by the caller) *)
  calcOpticalFlowPyrLK :
    gray -> gray -> list point -> option (list point) * option (list Z);
  (** [cv2.findHomography(src, dst, cv2.RANSAC, 5.0)], without the mask *)
  findHomography : list point -> list point -> option homography;
  (** [cv2.warpPerspective(frame, H, (width, height))] *)
  warpPerspective : frame -> homography -> Z * Z -> frame
}.

(** The same operations with another homography estimator and
    another warp. *)
Definition with_estimator {frame gray point homography : Type}
    (cv : OpenCV frame gray point homography)
    (estimate : list point -> list point -> option homography)
    (warp : frame -> homography -> Z * Z -> frame)
  : OpenCV frame gray point homography :=
  {| shape := shape;
     cvtColor := cvtColor;
     goodFeaturesToTrack := goodFeaturesToTrack;
     calcOpticalFlowPyrLK := calcOpticalFlowPyrLK;
     findHomography := estimate;
     warpPerspective := warp |}.

Section Devices.
Context {frame : Type}.

(** A [cv2.VideoCapture]: whether it could be opened, the frames
    not read yet, and the properties read through [cap.get]. *)
Record Capture : Type := {
  isOpened : bool;
  pending : list frame;
  CAP_PROP_FRAME_WIDTH : Q;
  CAP_PROP_FRAME_HEIGHT : Q;
  CAP_PROP_FPS : Q;
  cap_released : bool
}.

Definition with_pending (cap : Capture) (l : list frame) : Capture :=
  {| isOpened := isOpened cap;
     pending := l;
     CAP_PROP_FRAME_WIDTH := CAP_PROP_FRAME_WIDTH cap;
     CAP_PROP_FRAME_HEIGHT := CAP_PROP_FRAME_HEIGHT cap;
     CAP_PROP_FPS := CAP_PROP_FPS cap;
     cap_released := cap_released cap |}.

(** [ret, frame = cap.read()] *)
Definition read (cap : Capture) : option frame * Capture :=
  match pending cap with
  | [] => (None, cap)
  | f :: l => (Some f, with_pending cap l)
  end.

Definition release_capture (cap : Capture) : Capture :=
  {| isOpened := isOpened cap;
     pending := pending cap;
     CAP_PROP_FRAME_WIDTH := CAP_PROP_FRAME_WIDTH cap;
     CAP_PROP_FRAME_HEIGHT := CAP_PROP_FRAME_HEIGHT cap;
     CAP_PROP_FPS := CAP_PROP_FPS cap;
     cap_released := true |}.

(** A [cv2.VideoWriter] and the frames handed to [out.write]. *)
Record Writer : Type := {
  filename : string;
  writer_fps : Q;
  frameSize : Z * Z;
  written : list frame;
  writer_released : bool
}.

(** [cv2.VideoWriter(ruta_salida, fourcc, fps, (ancho, alto))] *)
Definition VideoWriter (ruta_salida : string) (fps : Q) (size : Z * Z)
  : Writer :=
  {| filename := ruta_salida;
     writer_fps := fps;
     frameSize := size;
     written := [];
     writer_released := false |}.

(** [out.write(frame)] *)
Definition write (out : Writer) (f : frame) : Writer :=
  {| filename := filename out;
     writer_fps := writer_fps out;
     frameSize := frameSize out;
     written := written out ++ [f];
     writer_released := writer_released out |}.

Definition release_writer (out : Writer) : Writer :=
  {| filename := filename out;
     writer_fps := writer_fps out;
     frameSize := frameSize out;
     written := written out;
     writer_released := true |}.

(** What a call of [video_stabilizer] leaves behind: the lines it
    printed, the capture and the writer (if it got as far as
    creating one).  The function itself returns [None] on every
    path. *)
Record World : Type := {
  stdout : list string;
  capture : Capture;
  out : option Writer
}.

Definition frames_written (w : World) : list frame :=
  match out w with
  | None => []
  | Some o => written o
  end.

End Devices.

Arguments Capture frame : clear implicits.
Arguments Writer frame : clear implicits.
Arguments World frame : clear implicits.

(** [int(x)] on a float: truncation towards zero. *)
Definition int (x : Q) : Z := Z.quot (Qnum x) (Zpos (Qden x)).

(** [a[mask]] for a boolean [mask] over the first axis of [a]: numpy
    raises [IndexError] unless the two have the same length. *)
Definition mask_index {A : Type} (a : list A) (mask : list bool)
  : option (list A) :=
  if (length mask =? length a)%nat
  then Some (map fst (filter (fun p : A * bool => p.2) (zip a mask)))
  else None.

(** The variables the main loop carries from one frame to the next. *)
Record LoopState (frame gray point : Type) : Type := {
  writer : Writer frame;
  frame_anterior_gray : gray;
  puntos_iniciales : list point;
  puntos_ref : list point
}.
Arguments writer {frame gray point} _.
Arguments frame_anterior_gray {frame gray point} _.
Arguments puntos_iniciales {frame gray point} _.
Arguments puntos_ref {frame gray point} _.

End Cv2.

(** ** [src/python/services/stabilizer.py] *)

Module PythonServicesStabilizer.
Import Cv2.

Section Stabilizer.
Context {frame gray point homography : Type}.
Context `{cv : OpenCV frame gray point homography}.

(** The two pass-through branches that [continue] (lines 77-80 and
    84-87): the frame is written as it is and only the previous
    gray frame is replaced. *)
Definition pass_through (st : LoopState frame gray point)
    (frame_actual : frame) (frame_actual_gray : gray)
  : LoopState frame gray point :=
  {| writer := write (writer st) frame_actual;
     frame_anterior_gray := frame_actual_gray;
     puntos_iniciales := puntos_iniciales st;
     puntos_ref := puntos_ref st |}.

(** One turn of the [while True] loop after a successful
    [cap.read()] (lines 66-115). *)
Definition iteration (ancho alto : Z) (frame_actual : frame)
    (st : LoopState frame gray point)
  : result (LoopState frame gray point) :=
  let frame_actual_gray := cvtColor frame_actual in
  let '(puntos_nuevos, status) :=
    calcOpticalFlowPyrLK (frame_anterior_gray st) frame_actual_gray
                         (puntos_iniciales st) in
  match puntos_nuevos, status with
  | Some puntos_nuevos, Some status =>
      if negb (length status =? length (puntos_iniciales st))%nat
         || negb (length status =? length puntos_nuevos)%nat
      then Ok (pass_through st frame_actual frame_actual_gray)
      else
        let puntos_buenos := map (fun s => (s =? 1)%Z) status in
        match mask_index (puntos_iniciales st) puntos_buenos with
        | None => Raise IndexError st
        | Some puntos_iniciales_filtrados =>
        match mask_index puntos_nuevos puntos_buenos with
        | None => Raise IndexError st
        | Some puntos_nuevos_filtrados =>
        match mask_index (puntos_ref st) puntos_buenos with
        | None => Raise IndexError st
        | Some puntos_ref_filtrados =>
            let out1 :=
              if (length puntos_iniciales_filtrados <? 4)%nat
              then write (writer st) frame_actual
              else
                match findHomography puntos_nuevos_filtrados
                                     puntos_ref_filtrados with
                | Some H =>
                    write (writer st)
                          (warpPerspective frame_actual H (ancho, alto))
                | None => write (writer st) frame_actual
                end in
            Ok {| writer := out1;
                  frame_anterior_gray := frame_actual_gray;
                  puntos_iniciales := puntos_nuevos_filtrados;
                  puntos_ref := puntos_ref_filtrados |}
        end end end
  | _, _ => Ok (pass_through st frame_actual frame_actual_gray)
  end.

(** The [while True] loop (lines 61-115), by recursion on the
    frames the capture still holds: each turn reads one, and the
    loop ends when [cap.read()] fails.  The frames left unread come
    back with the state. *)
Fixpoint main_loop (ancho alto : Z) (unread : list frame)
    (st : LoopState frame gray point)
  : result (list frame * LoopState frame gray point) :=
  match unread with
  | [] => Ok ([], st)
  | frame_actual :: unread' =>
      match iteration ancho alto frame_actual st with
      | Ok st' => main_loop ancho alto unread' st'
      | Raise e st' => Raise e (unread', st')
      end
  end.

(** The state the loop starts from (lines 50 and 59). *)
Definition initial_state (out : Writer frame) (primer_gray : gray)
    (puntos : list point) : LoopState frame gray point :=
  {| writer := out;
     frame_anterior_gray := primer_gray;
     puntos_iniciales := puntos;
     puntos_ref := puntos |}.

Definition msg_no_abre (ruta_entrada : string) : string :=
  ("No se pudo abrir el video: " ++ ruta_entrada)%string.
Definition msg_sin_primer_frame : string :=
  "No se pudo leer el primer frame. Abortando."%string.
Definition msg_pocos_puntos : string :=
  "No se detectaron suficientes puntos en el primer frame. Abortando."%string.
Definition msg_guardado (ruta_salida : string) : string :=
  ("Video estabilizado guardado en: " ++ ruta_salida)%string.

(** [video_stabilizer] (lines 4-119).  [cap] is what
    [cv2.VideoCapture(ruta_entrada)] gives. *)
Definition video_stabilizer (cap : Capture frame) (ruta_entrada : string)
    (ruta_salida : option string) (max_features : Z) (quality_level : Q)
    (min_distance : Z) : result (World frame) :=
  let ruta_salida :=
    match ruta_salida with
    | None => replace ruta_entrada ".mp4" "_stable.mp4"
    | Some r => r
    end in
  if negb (isOpened cap)
  then Ok {| stdout := [msg_no_abre ruta_entrada];
             capture := cap; out := None |}
  else
    match read cap with
    | (None, cap1) =>
        Ok {| stdout := [msg_sin_primer_frame];
              capture := cap1; out := None |}
    | (Some primer_frame, cap1) =>
        let '(alto, ancho) := shape primer_frame in
        let fps := CAP_PROP_FPS cap1 in
        let out0 := VideoWriter ruta_salida fps (ancho, alto) in
        let primer_gray := cvtColor primer_frame in
        let abort :=
          Ok {| stdout := [msg_pocos_puntos];
                capture := cap1; out := Some out0 |} in
        match goodFeaturesToTrack primer_gray max_features
                                  quality_level min_distance with
        | None => abort
        | Some puntos_iniciales =>
            if (length puntos_iniciales <? 4)%nat then abort
            else
              match main_loop ancho alto (pending cap1)
                      (initial_state out0 primer_gray puntos_iniciales) with
              | Ok (unread, st) =>
                  Ok {| stdout := [msg_guardado ruta_salida];
                        capture := release_capture (with_pending cap1 unread);
                        out := Some (release_writer (writer st)) |}
              | Raise e (unread, st) =>
                  Raise e {| stdout := [];
                             capture := with_pending cap1 unread;
                             out := Some (writer st) |}
              end
        end
    end.

(** *** Vocabulary of the properties *)

(** [len(tracked) == len(reference)] *)
Definition same_length (st : LoopState frame gray point) : Prop :=
  length (puntos_iniciales st) = length (puntos_ref st).

(** The states the loop can be in: the one it starts from, and
    those a turn leads to. *)
Inductive reachable (ancho alto : Z) : LoopState frame gray point -> Prop :=
| reach_start out0 primer_gray puntos :
    reachable ancho alto (initial_state out0 primer_gray puntos)
| reach_turn st frame_actual st' :
    reachable ancho alto st ->
    iteration ancho alto frame_actual st = Ok st' ->
    reachable ancho alto st'.

(** The status flags that select a point: [status == 1]. *)
Definition good_points (status : list Z) : list bool :=
  map (fun s => (s =? 1)%Z) status.

Definition survivors (status : list Z) : nat :=
  length (filter (fun b : bool => b) (good_points status)).

(** An output frame is the input frame or a warp of it onto the
    canvas. *)
Definition output_of (ancho alto : Z) (input output : frame) : Prop :=
  output = input \/
  exists H, output = warpPerspective input H (ancho, alto).

(** The claim that a failed initialization reaches the caller: the
    call ends with an exception. *)
Definition reported_to_caller (r : result (World frame)) : Prop :=
  is_Some (raised r).

End Stabilizer.
End PythonServicesStabilizer.

(** ** [src/services/stabilizer.py] *)

Module ServicesStabilizer.
Import Cv2.

Section Stabilizer.
Context {frame gray point homography : Type}.
Context `{cv : OpenCV frame gray point homography}.

(** Lines 95-98 and 104-107: the frame is written as it is and the
    points are kept. *)
Definition pass_through (st : LoopState frame gray point)
    (frame_actual : frame) (frame_actual_gray : gray)
  : LoopState frame gray point :=
  {| writer := write (writer st) frame_actual;
     frame_anterior_gray := frame_actual_gray;
     puntos_iniciales := puntos_iniciales st;
     puntos_ref := puntos_ref st |}.

(** Lines 83-142: one turn of the loop after a successful read. *)
Definition iteration (ancho alto : Z) (frame_actual : frame)
    (st : LoopState frame gray point)
  : result (LoopState frame gray point) :=
  let frame_actual_gray := cvtColor frame_actual in
  let '(puntos_nuevos, status) :=
    calcOpticalFlowPyrLK (frame_anterior_gray st) frame_actual_gray
                         (puntos_iniciales st) in
  match puntos_nuevos, status with
  | Some puntos_nuevos, Some status =>
      if negb (length status =? length (puntos_iniciales st))%nat
         || negb (length status =? length puntos_nuevos)%nat
      then Ok (pass_through st frame_actual frame_actual_gray)
      else
        let puntos_buenos := map (fun s => (s =? 1)%Z) status in
        match mask_index (puntos_iniciales st) puntos_buenos with
        | None => Raise IndexError st
        | Some puntos_iniciales_filtrados =>
        match mask_index puntos_nuevos puntos_buenos with
        | None => Raise IndexError st
        | Some puntos_nuevos_filtrados =>
        match mask_index (puntos_ref st) puntos_buenos with
        | None => Raise IndexError st
        | Some puntos_ref_filtrados =>
            let out1 :=
              if (length puntos_iniciales_filtrados <? 4)%nat
              then write (writer st) frame_actual
              else
                match findHomography puntos_nuevos_filtrados
                                     puntos_ref_filtrados with
                | Some H =>
                    write (writer st)
                          (warpPerspective frame_actual H (ancho, alto))
                | None => write (writer st) frame_actual
                end in
            Ok {| writer := out1;
                  frame_anterior_gray := frame_actual_gray;
                  puntos_iniciales := puntos_nuevos_filtrados;
                  puntos_ref := puntos_ref_filtrados |}
        end end end
  | _, _ => Ok (pass_through st frame_actual frame_actual_gray)
  end.

(** Lines 78-142. *)
Fixpoint main_loop (ancho alto : Z) (unread : list frame)
    (st : LoopState frame gray point)
  : result (list frame * LoopState frame gray point) :=
  match unread with
  | [] => Ok ([], st)
  | frame_actual :: unread' =>
      match iteration ancho alto frame_actual st with
      | Ok st' => main_loop ancho alto unread' st'
      | Raise e st' => Raise e (unread', st')
      end
  end.

(** [video_stabilizer] (lines 4-146).  The writer is created from
    the dimensions the container reports, before the first frame
    is read. *)
Definition video_stabilizer (cap : Capture frame) (ruta_entrada : string)
    (ruta_salida : option string) (max_features : Z) (quality_level : Q)
    (min_distance : Z) : result (World frame) :=
  let ruta_salida :=
    match ruta_salida with
    | None => replace ruta_entrada ".mp4" "_stable.mp4"
    | Some r => r
    end in
  if negb (isOpened cap)
  then Ok {| stdout := [("No se pudo abrir el video: " ++ ruta_entrada)%string];
             capture := cap; out := None |}
  else
    let ancho := int (CAP_PROP_FRAME_WIDTH cap) in
    let alto := int (CAP_PROP_FRAME_HEIGHT cap) in
    let fps := CAP_PROP_FPS cap in
    let out0 := VideoWriter ruta_salida fps (ancho, alto) in
    match read cap with
    | (None, cap1) =>
        Ok {| stdout := ["No se pudo leer el primer frame. Abortando."%string];
              capture := cap1; out := Some out0 |}
    | (Some primer_frame, cap1) =>
        let primer_gray := cvtColor primer_frame in
        let sin_puntos :=
          Ok {| stdout :=
                  ["No se detectaron suficientes puntos en el primer frame. Abortando."%string];
                capture := cap1; out := Some out0 |} in
        match goodFeaturesToTrack primer_gray max_features
                                  quality_level min_distance with
        | None => sin_puntos
        | Some puntos_iniciales =>
            if (length puntos_iniciales <? 4)%nat then sin_puntos
            else
              let puntos_ref := puntos_iniciales in
              match main_loop ancho alto (pending cap1)
                      {| writer := out0;
                         frame_anterior_gray := primer_gray;
                         puntos_iniciales := puntos_iniciales;
                         puntos_ref := puntos_ref |} with
              | Ok (unread, st) =>
                  Ok {| stdout :=
                          [("Video estabilizado guardado en: " ++ ruta_salida)%string];
                        capture := release_capture (with_pending cap1 unread);
                        out := Some (release_writer (writer st)) |}
              | Raise e (unread, st) =>
                  Raise e {| stdout := [];
                             capture := with_pending cap1 unread;
                             out := Some (writer st) |}
              end
        end
    end.

End Stabilizer.
End ServicesStabilizer.

(** ** Sample clips *)

Module Clips.
Import Cv2.

(** A stand-in for a picture: its size, how many corners a detector
    finds in it, and what the optical flow reports when the points
    are tracked into it ([None]: no result). *)
Record Picture : Type := {
  height : Z;
  width : Z;
  corners : nat;
  flow_status : option (list Z);
  warped : bool
}.

#[export] Instance picture_cv : OpenCV Picture Picture nat unit := {
  shape f := (height f, width f);
  cvtColor f := f;
  goodFeaturesToTrack g _ _ _ := Some (seq 0 (corners g));
  calcOpticalFlowPyrLK _ cur puntos :=
    match flow_status cur with
    | None => (None, None)
    | Some status => (Some puntos, Some status)
    end;
  findHomography _ _ := Some tt;
  warpPerspective f _ size :=
    {| height := size.2; width := size.1; corners := corners f;
       flow_status := flow_status f; warped := true |}
}.

Definition picture (n : nat) (status : option (list Z)) : Picture :=
  {| height := 480; width := 640; corners := n;
     flow_status := status; warped := false |}.

Definition clip (frames : list Picture) : Capture Picture :=
  {| isOpened := true;
     pending := frames;
     CAP_PROP_FRAME_WIDTH := 640;
     CAP_PROP_FRAME_HEIGHT := 480;
     CAP_PROP_FPS := 30;
     cap_released := false |}.

(** Five corners in the first frame; all five tracked into the
    second; two lost in the third. *)
Definition three_frames : Capture Picture :=
  clip [picture 5 None;
        picture 0 (Some [1; 1; 1; 1; 1]%Z);
        picture 0 (Some [1; 0; 0; 1; 1]%Z)].

(** Only three corners in the first frame. *)
Definition three_corners : Capture Picture :=
  clip [picture 3 None; picture 0 (Some [1; 1; 1]%Z)].

(** The state the loop starts from on [three_frames]. *)
Definition five_points : LoopState Picture Picture nat :=
  PythonServicesStabilizer.initial_state (VideoWriter "out.mp4" 30 (640, 480)%Z) (picture 5 None)
                (seq 0 5).

End Clips.

(** ** Vocabulary on concrete number types *)

Module Times.
Import Javat.

(** Frame times that never go back, as [enumerate] over the frames of
    a video produces them. *)
Fixpoint nondecreasing (l : list Q) : Prop :=
  match l with
  | [] => True
  | a :: l' =>
      match l' with
      | [] => True
      | b :: _ => (a <= b)%Q
      end /\ nondecreasing l'
  end.

(** A frame number, a Python [int], as the rational that [update]
    divides by the frame rate. *)
Definition of_int (n : nat) : Q := inject_Z (Z.of_nat n).

(** Entry before exit, on rationals. *)
Definition entry_before_exit (e : Event Q) : Prop :=
  (Tiempo_Entrada e <= Tiempo_Salida e)%Q /\ (0 <= Tiempo_dentro e)%Q.

(** The smallest positive binary64 number, [5e-324]. *)
Definition smallest_positive : spec_float := S754_finite false 1 (-1074).

(** A binary64 number that is neither infinite nor a NaN. *)
Definition finite (x : spec_float) : bool :=
  match x with
  | S754_zero _ | S754_finite _ _ _ => true
  | S754_infinity _ | S754_nan => false
  end.

(** The records are not younger than [bound], and the events have
    their entry before their exit. *)
Definition in_order (bound : Q) (m : DetectionsManager Q) : Prop :=
  (forall tid r, tracker_entry_info m !! tid = Some r -> (r.1.2 <= bound)%Q) /\
  Forall entry_before_exit (events m).

End Times.

(** ** Sample inputs *)

Module Roundabout.
Import Javat.

(** Detections of cars with the given tracker ids, as
    [VideoProcessor.process_frame] builds them. *)
Definition cars (ids : list Z) : Detections :=
  {| tracker_id := ids;
     class_id := map (fun _ => 2%Z) ids;
     vehicle_type := Some (map (fun _ => "car"%string) ids) |}.

Definition frame {T : Type} (time : T) (ins outs : list (list Z)) : Call T :=
  {| call_all := cars (concat ins ++ concat outs);
     call_in := map cars ins;
     call_out := map cars outs;
     call_time := time |}.

(** Tracker id 7 in entry zone 1 at frame 30, in exit zone 0 at frame 90. *)
Definition crossing_of_7 {T : Type} (of_Z : Z -> T) : list (Call T) :=
  [frame (of_Z 30%Z) [[]; [7%Z]] [[]; []];
   frame (of_Z 90%Z) [[]; []] [[7%Z]; []]].

(** Tracker id 5 inside entry zones 0 and 2 and exit zones 1 and 3 at once. *)
Definition overlap_of_5 : Call Q :=
  frame 60%Q [[5%Z]; []; [5%Z]] [[]; [5%Z]; []; [5%Z]].

(** Tracker id 9 in exit zone 2 at frame 10, never seen in an entry zone. *)
Definition orphan_of_9 : Call Q := frame 10%Q [] [[]; []; [9%Z]].

Definition manager_30 : DetectionsManager Q := init "r1" "h2" "t" 30%Q.

End Roundabout.

(** ** [src/services/javat.py]: class [VideoProcessor] *)

Module Processor.
Import Javat.

Section VideoProcessor.
Context {T : Type} `{PyNumber T}.
Context {image box zone bytetrack : Type} `{Countable box}.

(** What [process_frame] reads of the [sv.Detections] built from the
    model's result: the boxes and the classes. *)
Record RawDetections : Type := {
  raw_xyxy : list box;
  raw_class_id : list Z
}.

(** An [sv.Detections] that went through the tracker: the boxes, and
    the arrays [update] reads. *)
Record Boxes : Type := {
  xyxy : list box;
  rows : Detections
}.

(** The attributes of a [VideoProcessor] that [process_frame] reads or
    writes (the thresholds and the annotators only parametrize the
    operations of [Vision] below). *)
Record VideoProcessor : Type := {
  tracker : bytetrack;
  tracker_id_to_vehicle_type : gmap Z string;
  zones_in : list zone;
  zones_out : list zone;
  detections_manager : DetectionsManager T
}.

(** The operations of ultralytics, supervision and OpenCV that
    [process_frame] and [annotate_frame] call, left uninterpreted. *)
Record Vision : Type := {
  (** [sv.Detections.from_ultralytics(self.model(frame, ...)[0])] *)
  predict : image -> RawDetections;
  (** [self.model.names] *)
  names : gmap Z string;
  (** [self.tracker.update_with_detections(detections)] *)
  update_with_detections : bytetrack -> RawDetections -> bytetrack * Boxes;
  (** [zone.trigger(detections=detections)] *)
  trigger : zone -> Boxes -> list bool;
  (** what [annotate_frame] draws on a copy of the frame (polygons,
      traces, boxes, labels and counts) from the processor and the
      detections it is given; the tracked detections are passed along
      for the boxes of the rows that are kept.  The drawing functions
      of supervision are taken to return. *)
  draw : image -> VideoProcessor -> Boxes -> Detections -> image
}.

Context (vision : Vision).

(** Lines 329-335: the vehicle type of every box of the model. *)
Definition original_types (raw : RawDetections) : gmap box string :=
  for_each
    (fun (obs : nat * Z) (orig : gmap box string) =>
       let vehicle_type := default "unknown"%string (names vision !! obs.2) in
       match raw_xyxy raw !! obs.1 with
       | Some box_key => <[box_key := vehicle_type]> orig
       | None => orig
       end)
    (enumerate (raw_class_id raw)) ∅.

(** Lines 341-346: the type of a tracked box that the model had
    reported becomes the type of its tracker id. *)
Definition learn_types (orig : gmap box string) (det : Boxes)
    (known_types : gmap Z string) : gmap Z string :=
  for_each
    (fun (obs : nat * Z) (types : gmap Z string) =>
       match xyxy det !! obs.1 with
       | Some box_key =>
           match orig !! box_key with
           | Some vehicle_type => <[obs.2 := vehicle_type]> types
           | None => types
           end
       | None => types
       end)
    (enumerate (tracker_id (rows det))) known_types.

Definition type_of (types : gmap Z string) (tid : Z) : string :=
  default "Desconocido"%string (types !! tid).

(** Lines 349-353: [detections.vehicle_type = np.array(vehicle_types)]. *)
Definition with_types (types : gmap Z string) (det : Boxes) : Boxes :=
  {| xyxy := xyxy det;
     rows := {| tracker_id := tracker_id (rows det);
                class_id := class_id (rows det);
                vehicle_type :=
                  Some (map (type_of types) (tracker_id (rows det))) |} |}.

(** [detections[mask]] for a boolean mask: every array is indexed by
    the mask, which numpy refuses unless the lengths agree; attributes
    attached by hand, such as [vehicle_type], are not carried over. *)
Definition index_rows (det : Boxes) (mask : list bool) : option Boxes :=
  match Cv2.mask_index (xyxy det) mask,
        Cv2.mask_index (tracker_id (rows det)) mask,
        Cv2.mask_index (class_id (rows det)) mask with
  | Some boxes, Some ids, Some classes =>
      Some {| xyxy := boxes;
              rows := {| tracker_id := ids; class_id := classes;
                         vehicle_type := None |} |}
  | _, _, _ => None
  end.

(** Lines 367-370: [if hasattr(detections, 'vehicle_type') and
    len(indices) > 0: in_zone.vehicle_type = detections.vehicle_type[indices]]. *)
Definition carry_types (det : Boxes) (mask : list bool) (in_zone : Boxes)
  : option Detections :=
  match vehicle_type (rows det) with
  | Some types =>
      if 0 <? length mask
      then
        match Cv2.mask_index types mask with
        | Some selected =>
            Some {| tracker_id := tracker_id (rows in_zone);
                    class_id := class_id (rows in_zone);
                    vehicle_type := Some selected |}
        | None => None
        end
      else Some (rows in_zone)
  | None => Some (rows in_zone)
  end.

(** Lines 358-373, one turn of the loop over
    [zip(self.zones_in, self.zones_out)]; [None] is an [IndexError]. *)
Definition zone_pair (det : Boxes) (both : zone * zone)
  : option (Detections * Detections) :=
  let in_zone_indices := trigger vision both.1 det in
  let out_zone_indices := trigger vision both.2 det in
  match index_rows det in_zone_indices with
  | None => None
  | Some detections_in_zone =>
      match index_rows det out_zone_indices with
      | None => None
      | Some detections_out_zone =>
          match carry_types det in_zone_indices detections_in_zone with
          | None => None
          | Some in_zone =>
              match carry_types det out_zone_indices detections_out_zone with
              | None => None
              | Some out_zone => Some (in_zone, out_zone)
              end
          end
      end
  end.

(** Lines 356-373. *)
Fixpoint split_zones (det : Boxes) (pairs : list (zone * zone))
  : option (list Detections * list Detections) :=
  match pairs with
  | [] => Some ([], [])
  | both :: pairs' =>
      match zone_pair det both with
      | None => None
      | Some (in_zone, out_zone) =>
          match split_zones det pairs' with
          | None => None
          | Some (ins, outs) => Some (in_zone :: ins, out_zone :: outs)
          end
      end
  end.

Definition with_manager (self : VideoProcessor) (m : DetectionsManager T)
  : VideoProcessor :=
  {| tracker := tracker self;
     tracker_id_to_vehicle_type := tracker_id_to_vehicle_type self;
     zones_in := zones_in self;
     zones_out := zones_out self;
     detections_manager := m |}.

(** [COLORS], the palette (line 18). *)
Definition COLORS : list string :=
  ["#E6194B"; "#3CB44B"; "#FFE119"; "#3C76D1"]%string.

(** The indices at which [annotate_frame] reads [COLORS.colors]: [i]
    for every pair of [enumerate(zip(self.zones_in, self.zones_out))]
    (lines 280-286), and every key [zone_in_id] of
    [self.detections_manager.counts[zone_out_id]] for the
    [zone_out_id] of [enumerate(self.zones_out)] that are in the counts
    (lines 303-317). *)
Definition palette_indices (self : VideoProcessor) : list nat :=
  seq 0 (length (zip (zones_in self) (zones_out self))) ++
  flat_map
    (fun zone_out_id =>
       match counts (detections_manager self) !! zone_out_id with
       | Some row => map fst (map_to_list row)
       | None => []
       end)
    (seq 0 (length (zones_out self))).

(** [VideoProcessor.annotate_frame] (lines 274-319): [None] is the
    [IndexError] of [COLORS.colors[i]] for an index that is not in
    the palette. *)
Definition annotate_frame (frame : image) (self : VideoProcessor)
    (boxes : Boxes) (detections : Detections) : option image :=
  if forallb (fun i => i <? length COLORS) (palette_indices self)
  then Some (draw vision frame self boxes detections)
  else None.

(** How a call of [process_frame] ends: with the annotated frame, or
    with an exception; the processor has been mutated either way. *)
Inductive FrameResult : Type :=
| Annotated (self : VideoProcessor) (annotated_frame : image)
| Failed (e : exn) (self : VideoProcessor).

Definition processor_after (r : FrameResult) : VideoProcessor :=
  match r with
  | Annotated self _ => self
  | Failed _ self => self
  end.

(** [VideoProcessor.process_frame] (lines 321-380). *)
Definition process_frame (self : VideoProcessor) (frame : image)
    (frame_time : T) : FrameResult :=
  let raw := predict vision frame in
  let orig_vehicle_types := original_types raw in
  let '(tracker1, tracked) := update_with_detections vision (tracker self) raw in
  let types := learn_types orig_vehicle_types tracked
                 (tracker_id_to_vehicle_type self) in
  let detections := with_types types tracked in
  let self1 :=
    {| tracker := tracker1;
       tracker_id_to_vehicle_type := types;
       zones_in := zones_in self;
       zones_out := zones_out self;
       detections_manager := detections_manager self |} in
  match split_zones detections (zip (zones_in self) (zones_out self)) with
  | None => Failed IndexError self1
  | Some (detections_in_zones, detections_out_zones) =>
      match update (detections_manager self) (rows detections)
                   detections_in_zones detections_out_zones frame_time with
      | Raise e u => Failed e (with_manager self1 (manager u))
      | Ok u =>
          let self2 := with_manager self1 (manager u) in
          let all_after :=
            {| xyxy := xyxy detections; rows := detections_all_after u |} in
          let kept :=
            default (kept_rows (detections_all_after u)) (returned u) in
          match annotate_frame frame self2 all_after kept with
          | Some annotated_frame => Annotated self2 annotated_frame
          | None => Failed IndexError self2
          end
      end
  end.

(** The frame number, a Python [int], as a number of the type the
    manager computes with. *)
Context (of_int : nat -> T).

(** What [process_video] leaves behind: the processor, the annotated
    frames written to the sink or shown in the window, and the rows
    that [generate_csv] wrote after the header, one event each
    ([None] when it was not reached). *)
Record Processed : Type := {
  processor : VideoProcessor;
  frames_out : list image;
  csv_rows : option (list (Event T))
}.

(** The loop of [process_video] (lines 231-236 with a sink, 238-244
    with a window): odd frame numbers are skipped.  [quit], in the
    window variant, tells after which frame numbers the key [q] was
    down. *)
Fixpoint frames_loop (quit : option (nat -> bool)) (self : VideoProcessor)
    (frame_num : nat) (frames : list image) (shown : list image)
  : result (VideoProcessor * list image) :=
  match frames with
  | [] => Ok (self, shown)
  | frame :: frames' =>
      if negb (frame_num mod 2 =? 0)
      then frames_loop quit self (S frame_num) frames' shown
      else
        match process_frame self frame (of_int frame_num) with
        | Failed e self' => Raise e (self', shown)
        | Annotated self' annotated_frame =>
            let shown' := shown ++ [annotated_frame] in
            match quit with
            | Some pressed =>
                if pressed frame_num then Ok (self', shown')
                else frames_loop quit self' (S frame_num) frames' shown'
            | None => frames_loop quit self' (S frame_num) frames' shown'
            end
        end
  end.

(** [VideoProcessor.process_video] (lines 219-247); [quit] is [None]
    when [self.target_video_path] is set. *)
Definition process_video (quit : option (nat -> bool)) (self : VideoProcessor)
    (frames : list image) : result Processed :=
  match frames_loop quit self 0 frames [] with
  | Ok (self', shown) =>
      Ok {| processor := self'; frames_out := shown;
            csv_rows := Some (events (detections_manager self')) |}
  | Raise e (self', shown) =>
      Raise e {| processor := self'; frames_out := shown; csv_rows := None |}
  end.

(** *** Vocabulary of the properties *)

(** The arrays of a detections object have one entry per box. *)
Definition consistent (det : Boxes) : Prop :=
  length (tracker_id (rows det)) = length (xyxy det) /\
  length (class_id (rows det)) = length (xyxy det).

(** What supervision promises: the tracker returns consistent
    detections and a zone answers with one flag per detection. *)
Definition well_behaved : Prop :=
  (forall state raw, consistent (update_with_detections vision state raw).2) /\
  (forall z det, length (trigger vision z det) = length (xyxy det)).

(** The vehicle types of a detections object are those [types] gives
    to its tracker ids, position by position. *)
Definition types_follow (types : gmap Z string) (d : Detections) : Prop :=
  forall idx tid, tracker_id d !! idx = Some tid ->
                  vehicle_type_at d idx = Some (type_of types tid).

(** A vehicle type that [process_frame] can give: a name of the
    model, or one of the two defaults. *)
Definition label (v : string) : Prop :=
  v = "Desconocido"%string \/ v = "unknown"%string \/
  exists cls, names vision !! cls = Some v.

(** No open record and no count of the manager names an entry zone
    numbered [n] or more. *)
Definition zones_below (n : nat) (m : DetectionsManager T) : Prop :=
  (forall tid r, tracker_entry_info m !! tid = Some r -> r.1.1 < n) /\
  (forall zo row zi, counts m !! zo = Some row -> is_Some (row !! zi) ->
                     zi < n).

(** Every vehicle type the processor holds, in its dictionary, in the
    open records and in the events of its manager, is a label. *)
Definition labelled (self : VideoProcessor) : Prop :=
  (forall tid v, tracker_id_to_vehicle_type self !! tid = Some v -> label v) /\
  (forall tid r, tracker_entry_info (detections_manager self) !! tid = Some r ->
                 label r.2) /\
  Forall (fun e => label (Tipo_vehiculo e)) (events (detections_manager self)).

(** The number of turns of the loop over
    [zip(self.zones_in, self.zones_out)]. *)
Definition zone_pairs (self : VideoProcessor) : nat :=
  length (zip (zones_in self) (zones_out self)).

(** [t] is the time [update] computes, with frame rate [rate], for
    the even frame number [k] below [bound]. *)
Definition stamped (rate : T) (bound k : nat) (t : T) : Prop :=
  k < bound /\ k mod 2 = 0 /\ py_truediv (of_int k) rate = Some t.

(** The manager has frame rate [rate], and the times of its open
    records and of its events are those of even frame numbers below
    [bound], the entry of an event being of a frame that is not after
    the frame of its exit. *)
Definition on_the_grid (rate : T) (bound : nat) (m : DetectionsManager T)
  : Prop :=
  fps m = rate /\
  (forall tid r, tracker_entry_info m !! tid = Some r ->
                 exists k, stamped rate bound k r.1.2) /\
  Forall (fun e => exists k_in k_out,
            k_in <= k_out /\
            stamped rate bound k_in (Tiempo_Entrada e) /\
            stamped rate bound k_out (Tiempo_Salida e)) (events m).

(** The frame numbers [process_video] handles among the [n] that
    follow [start]. *)
Definition handled (start n : nat) : list nat :=
  filter (fun k => k mod 2 = 0) (seq start n).

End VideoProcessor.

Arguments RawDetections box : clear implicits.
Arguments Boxes box : clear implicits.
Arguments VideoProcessor T zone bytetrack : clear implicits.
Arguments Vision T image box zone bytetrack : clear implicits.
Arguments FrameResult T image zone bytetrack : clear implicits.
Arguments Processed T image zone bytetrack : clear implicits.

End Processor.

(** ** Vocabulary for the tracker's bookkeeping *)

Module Ledger.
Import Javat.

Section Ledger.
Context {T : Type} `{PyNumber T}.

(** [tid in self.counts[zone_out_id][zone_in_id]], false when a key is
    missing. *)
Definition counted_in (c : gmap nat (gmap nat (gset Z)))
    (zone_out_id zone_in_id : nat) (tid : Z) : Prop :=
  exists row cell,
    c !! zone_out_id = Some row /\ row !! zone_in_id = Some cell /\ tid ∈ cell.

(** Some event of the list records [tid] going from entry zone
    [zone_in_id] to exit zone [zone_out_id]. *)
Definition crossed (evs : list (Event T)) (zone_out_id zone_in_id : nat)
    (tid : Z) : Prop :=
  exists e, e ∈ evs /\ Id e = tid /\ Id_Entrada e = zone_in_id /\
            Id_salida e = zone_out_id.

(** The counts say what the events say. *)
Definition counts_match (m : DetectionsManager T) : Prop :=
  forall zo zi tid,
    counted_in (counts m) zo zi tid <-> crossed (events m) zo zi tid.

(** A detections object whose [vehicle_type] array, when it has one,
    has an entry for every tracker id. *)
Definition typed (d : Detections) : Prop :=
  match vehicle_type d with
  | None => True
  | Some types => length (tracker_id d) <= length types
  end.

(** The tracker id has an entry in [self.tracker_id_to_zone_id]. *)
Definition known (m : DetectionsManager T) (tid : Z) : Prop :=
  is_Some (tracker_id_to_zone_id m !! tid).

(** The tracker id is listed by detections number [z] of [zones]. *)
Definition seen_in_zone (tid : Z) (z : nat) (zones : list Detections) : Prop :=
  exists d, zones !! z = Some d /\ tid ∈ tracker_id d.

(** Where the records and the events of [m] come from, among the
    calls [past]: a record from an entry-zone observation of its id in
    the zone it names; an event from such an entry observation and,
    in the same call or a later one, an exit-zone observation of its
    id in the exit zone it names. *)
Definition provenance (past : list (Call T)) (m : DetectionsManager T) : Prop :=
  (forall tid r, tracker_entry_info m !! tid = Some r ->
     exists i c, past !! i = Some c /\ seen_in_zone tid r.1.1 (call_in c)) /\
  Forall (fun e =>
     exists i j c1 c2,
       i <= j /\ past !! i = Some c1 /\ past !! j = Some c2 /\
       seen_in_zone (Id e) (Id_Entrada e) (call_in c1) /\
       seen_in_zone (Id e) (Id_salida e) (call_out c2)) (events m).

(** Every id with a record or an event has an entry zone on record. *)
Definition all_known (m : DetectionsManager T) : Prop :=
  (forall tid, is_Some (tracker_entry_info m !! tid) -> known m tid) /\
  Forall (fun e => known m (Id e)) (events m).

(** [t] is [frame_time / fps] as call number [i] of [past] computes
    it, in the arithmetic of the program, with frame rate [rate]. *)
Definition time_of_call (rate : T) (past : list (Call T)) (i : nat) (t : T)
  : Prop :=
  exists c, past !! i = Some c /\ py_truediv (call_time c) rate = Some t.

(** The event was emitted by call number [j]: its exit time is the
    time of that call, its entry time is the time of a call that is
    not later, and its time inside is the difference of the two. *)
Definition emitted_by (rate : T) (past : list (Call T)) (e : Event T)
    (j : nat) : Prop :=
  exists i,
    i <= j /\
    time_of_call rate past i (Tiempo_Entrada e) /\
    time_of_call rate past j (Tiempo_Salida e) /\
    Tiempo_dentro e = py_sub (Tiempo_Salida e) (Tiempo_Entrada e).

(** Numbers that never go back along the list. *)
Definition ascending (js : list nat) : Prop :=
  forall a b x y, a <= b -> js !! a = Some x -> js !! b = Some y -> x <= y.

(** Where the times of [m] come from, among the calls [past] made
    with frame rate [rate]: the entry time of a record from one of
    the calls, and the events, in the order of the log, from calls
    whose numbers never go back. *)
Definition timed (rate : T) (past : list (Call T)) (m : DetectionsManager T)
  : Prop :=
  fps m = rate /\
  (forall tid r, tracker_entry_info m !! tid = Some r ->
                 exists i, time_of_call rate past i r.1.2) /\
  exists js,
    Forall2 (emitted_by rate past) (events m) js /\ ascending js.

End Ledger.

End Ledger.

(** ** More sample inputs *)

Module Traffic.
Import Javat Roundabout.

(** Tracker id 7 in entry zone 0 at frame 30. *)
Definition entry_of_7 : Call Q := frame 30%Q [[7%Z]] [[]].

(** Tracker id 5 again, now in entry zone 1, and in exit zone 0, at
    frame 90. *)
Definition second_visit_of_5 : Call Q := frame 90%Q [[]; [5%Z]] [[5%Z]].

(** A detections object whose [vehicle_type] array is too short. *)
Definition untyped : Detections :=
  {| tracker_id := [4%Z]; class_id := [2%Z]; vehicle_type := Some [] |}.

(** A call whose entry registration raises while tracker id 7, which
    has an open record after [entry_of_7], is in an exit zone. *)
Definition raising_call : Call Q :=
  {| call_all := cars [4%Z; 7%Z];
     call_in := [untyped];
     call_out := [cars [7%Z]];
     call_time := 90%Q |}.

End Traffic.

(** ** Vocabulary for paths *)

Module Paths.

(** [old in s] *)
Definition occurs_in (old s : string) : Prop :=
  exists before rest, s = String.app before (String.app old rest).

(** The same, decided from left to right. *)
Fixpoint contains (old s : string) : bool :=
  String.prefix old s ||
  match s with
  | EmptyString => false
  | String _ s' => contains old s'
  end.

(** The output file of [video_stabilizer] (lines 12-13 of the newer
    copy, 26-28 of the older). *)
Definition output_path (ruta_entrada : string) (ruta_salida : option string)
  : string :=
  match ruta_salida with
  | None => replace ruta_entrada ".mp4" "_stable.mp4"
  | Some r => r
  end.

End Paths.

(** ** More sample clips *)

Module MoreClips.
Import Cv2 Clips.

(** A loop state with only three points left. *)
Definition three_points : LoopState Picture Picture nat :=
  PythonServicesStabilizer.initial_state
    (VideoWriter "out.mp4" 30 (640, 480)%Z) (picture 3 None) (seq 0 3).

(** A video that opens and holds no frame. *)
Definition no_frames : Capture Picture := clip [].

(** A video whose second frame is decoded at half the size of the
    first, and into which no point is tracked. *)
Definition odd_sized : Capture Picture :=
  clip [picture 5 None;
        {| height := 240; width := 320; corners := 0;
           flow_status := None; warped := false |}].

End MoreClips.

(** ** A toy detector for the video processor *)

Module Junction.
Import Javat Processor.

(** A frame is the list of the vehicles in it, each with the id the
    tracker will give it and the cell of the road it is in; a zone is
    a cell.  The model calls every vehicle a car (class 2). *)
Definition toy : Vision Q (list (Z * nat)) (Z * nat) nat unit :=
  {| predict := fun frame =>
       {| raw_xyxy := frame; raw_class_id := map (fun _ => 2%Z) frame |};
     names := {[ 2%Z := "car"%string ]};
     update_with_detections := fun state raw =>
       (state,
        {| xyxy := raw_xyxy raw;
           rows := {| tracker_id := map fst (raw_xyxy raw);
                      class_id := map (fun _ => 2%Z) (raw_xyxy raw);
                      vehicle_type := None |} |});
     trigger := fun z det => map (fun b : Z * nat => b.2 =? z) (xyxy det);
     draw := fun frame _ _ _ => frame |}.

(** Two entry zones (cells 1 and 2) and three exit zones (cells 3, 4
    and 5), on a new manager at 30 frames per second. *)
Definition junction : VideoProcessor Q nat unit :=
  {| tracker := tt;
     tracker_id_to_vehicle_type := ∅;
     zones_in := [1; 2];
     zones_out := [3; 4; 5];
     detections_manager := Roundabout.manager_30 |}.

(** Vehicle 7 enters through cell 1 in frame 0, is in cell 0 in frame
    1 and leaves through cell 3 in frame 2. *)
Definition drive_of_7 : list (list (Z * nat)) :=
  [[(7%Z, 1)]; [(7%Z, 0)]; [(7%Z, 3)]].

(** The same junction on a manager whose frame rate is 0. *)
Definition stalled : VideoProcessor Q nat unit :=
  {| tracker := tt;
     tracker_id_to_vehicle_type := ∅;
     zones_in := [1; 2];
     zones_out := [3; 4; 5];
     detections_manager := init "r1" "h2" "t" 0%Q |}.

(** A junction with five entry zones and five exit zones. *)
Definition crowded : VideoProcessor Q nat unit :=
  {| tracker := tt;
     tracker_id_to_vehicle_type := ∅;
     zones_in := [1; 2; 3; 4; 5];
     zones_out := [6; 7; 8; 9; 10];
     detections_manager := Roundabout.manager_30 |}.

(** Vehicle 7 in cell 1 and vehicle 8 in cell 3, tracked, and a
    dictionary that knows vehicle 7 only. *)
Definition two_vehicles : Boxes (Z * nat) :=
  {| xyxy := [(7%Z, 1); (8%Z, 3)];
     rows := {| tracker_id := [7%Z; 8%Z];
                class_id := [2%Z; 2%Z];
                vehicle_type := None |} |}.

Definition types_of_7 : gmap Z string := {[ 7%Z := "car"%string ]}.

End Junction.

(** * Properties *)

(** ** Loops *)

Section Loops.
Context {A S : Type}.

Lemma try_each_app (body : A -> S -> result S) (l1 l2 : list A) (s : S) :
  try_each body (l1 ++ l2) s =
  match try_each body l1 s with
  | Ok s' => try_each body l2 s'
  | Raise e s' => Raise e s'
  end.
Proof.
  revert s. induction l1 as [|x l1 IH]; intros s; simpl; [done|].
  destruct (body x s); [apply IH | done].
Qed.

(** A property kept by every turn holds when the loop stops, whether
    it ran to its end or raised. *)
Lemma try_each_inv (P : S -> Prop) (body : A -> S -> result S) (l : list A) :
  (forall x s, x ∈ l -> P s -> P (after (body x s))) ->
  forall s, P s -> P (after (try_each body l s)).
Proof.
  induction l as [|x l IH]; intros Hbody s Hs; simpl; [done|].
  pose proof (Hbody x s (list_elem_of_here _ _) Hs) as Hx.
  destruct (body x s) as [s'|e s']; simpl in *; [|done].
  apply IH; [|done]. intros y s0 Hy. apply Hbody. by apply list_elem_of_further.
Qed.

Lemma for_each_app (body : A -> S -> S) (l1 l2 : list A) (s : S) :
  for_each body (l1 ++ l2) s = for_each body l2 (for_each body l1 s).
Proof. revert s. induction l1 as [|x l1 IH]; intros s; simpl; [done|apply IH]. Qed.

Lemma for_each_inv (P : S -> Prop) (body : A -> S -> S) (l : list A) :
  (forall x s, x ∈ l -> P s -> P (body x s)) ->
  forall s, P s -> P (for_each body l s).
Proof.
  induction l as [|x l IH]; intros Hbody s Hs; simpl; [done|].
  apply IH.
  - intros y s0 Hy. apply Hbody. by apply list_elem_of_further.
  - apply Hbody; [apply list_elem_of_here | done].
Qed.

Lemma enumerate_from_app (n : nat) (l1 l2 : list A) :
  enumerate_from n (l1 ++ l2) =
  enumerate_from n l1 ++ enumerate_from (n + length l1) l2.
Proof.
  revert n. induction l1 as [|x l1 IH]; intros n; simpl.
  - by rewrite Nat.add_0_r.
  - rewrite IH. do 3 f_equal. lia.
Qed.

Lemma elem_of_enumerate_from (n i : nat) (x : A) (l : list A) :
  (i, x) ∈ enumerate_from n l -> x ∈ l.
Proof.
  revert n. induction l as [|y l IH]; intros n; simpl.
  - by intros ?%elem_of_nil.
  - intros [Heq|Hin]%elem_of_cons.
    + injection Heq as _ ->. apply list_elem_of_here.
    + apply list_elem_of_further. by eapply IH.
Qed.

End Loops.

(** ** The zone-crossing tracker *)

Module JavatFacts.
Import Javat.

Section Tracker.
Context {T : Type} `{PyNumber T}.
Implicit Types self m : DetectionsManager T.
Implicit Types tid : Z.
Implicit Types d : Detections.

(** *** The entry registration *)

Lemma same_log_refl m : same_log m m.
Proof. by repeat split. Qed.

Lemma entry_step_same_log t z d obs m0 m :
  same_log m0 m -> same_log m0 (after (entry_step t z d obs m)).
Proof.
  intros Hm. destruct obs as [idx tid]. unfold entry_step.
  destruct (tracker_entry_info m !! tid); [done|].
  destruct (vehicle_type_at d idx); done.
Qed.

Lemma entry_step_lookup t z d idx tid m tid' r :
  tracker_entry_info (after (entry_step t z d (idx, tid) m)) !! tid' = Some r <->
  tracker_entry_info m !! tid' = Some r \/
  (tid' = tid /\ tracker_entry_info m !! tid = None /\
   exists vtype, vehicle_type_at d idx = Some vtype /\ r = (z, t, vtype)).
Proof.
  unfold entry_step.
  destruct (tracker_entry_info m !! tid) as [r0|] eqn:Hopen; simpl.
  { split; [by left|]. intros [?|(_ & ? & _)]; done. }
  destruct (vehicle_type_at d idx) as [vtype|] eqn:Hv; simpl.
  - destruct (decide (tid' = tid)) as [->|Hne].
    + rewrite lookup_insert_eq. split.
      * intros [= <-]. right. eauto.
      * intros [Hr|(_ & _ & v & [= <-] & ->)]; [congruence|done].
    + rewrite lookup_insert_ne by done. split; [by left|].
      intros [?|(? & _)]; done.
  - split; [by left|]. intros [?|(_ & _ & v & ? & _)]; done.
Qed.

Lemma entry_step_keeps t z d obs m tid' r :
  tracker_entry_info m !! tid' = Some r ->
  tracker_entry_info (after (entry_step t z d obs m)) !! tid' = Some r.
Proof. destruct obs. intros. apply entry_step_lookup. by left. Qed.

Lemma entry_step_other t z d idx tid m tid' :
  tid' <> tid ->
  tracker_entry_info (after (entry_step t z d (idx, tid) m)) !! tid' =
  tracker_entry_info m !! tid'.
Proof.
  intros Hne. apply option_eq. intros r. rewrite entry_step_lookup.
  split; [|by left]. intros [?|(? & _)]; done.
Qed.

(** A tracker id with an open record: the observation is skipped,
    and the skipped branch cannot raise. *)
Lemma entry_step_ignored t z d idx tid m :
  is_Some (tracker_entry_info m !! tid) ->
  entry_step t z d (idx, tid) m = Ok m.
Proof. intros [r Hr]. unfold entry_step. by rewrite Hr. Qed.

Lemma entry_zone_same_log t zone m0 m :
  same_log m0 m -> same_log m0 (after (entry_zone t zone m)).
Proof.
  unfold entry_zone. apply (try_each_inv (same_log m0)).
  intros obs s _. apply entry_step_same_log.
Qed.

Lemma entry_phase_same_log t ins m :
  same_log m (after (entry_phase t ins m)).
Proof.
  unfold entry_phase. apply (try_each_inv (same_log m)); [|apply same_log_refl].
  intros zone s _. apply entry_zone_same_log.
Qed.

Lemma entry_zone_keeps t zone m tid r :
  tracker_entry_info m !! tid = Some r ->
  tracker_entry_info (after (entry_zone t zone m)) !! tid = Some r.
Proof.
  unfold entry_zone.
  apply (try_each_inv (fun s => tracker_entry_info s !! tid = Some r)).
  intros obs s _. apply entry_step_keeps.
Qed.

Lemma entry_phase_keeps t ins m tid r :
  tracker_entry_info m !! tid = Some r ->
  tracker_entry_info (after (entry_phase t ins m)) !! tid = Some r.
Proof.
  unfold entry_phase.
  apply (try_each_inv (fun s => tracker_entry_info s !! tid = Some r)).
  intros zone s _. apply entry_zone_keeps.
Qed.

Lemma entry_zone_other t zone m tid :
  tid ∉ tracker_id zone.2 ->
  tracker_entry_info (after (entry_zone t zone m)) !! tid =
  tracker_entry_info m !! tid.
Proof.
  intros Hnot. unfold entry_zone.
  apply (try_each_inv
           (fun s => tracker_entry_info s !! tid = tracker_entry_info m !! tid));
    [|done].
  intros [idx tid0] s Hin Hs. rewrite entry_step_other; [done|].
  intros ->. apply Hnot. by eapply elem_of_enumerate_from.
Qed.

Lemma elem_of_observed tid (zones : list Detections) :
  tid ∈ observed zones <-> exists d, d ∈ zones /\ tid ∈ tracker_id d.
Proof.
  unfold observed. induction zones as [|d0 zones IH]; simpl.
  - split; [by intros ?%elem_of_nil|]. by intros (d & ?%elem_of_nil & _).
  - rewrite elem_of_app, IH. split.
    + intros [Hd0|(d & Hd & Htid)].
      * exists d0. split; [apply list_elem_of_here | done].
      * exists d. split; [by apply list_elem_of_further | done].
    + intros (d & [->|Hd]%elem_of_cons & Htid); [by left | right; eauto].
Qed.

Lemma entry_phase_other t ins m tid :
  tid ∉ observed ins ->
  tracker_entry_info (after (entry_phase t ins m)) !! tid =
  tracker_entry_info m !! tid.
Proof.
  intros Hnot. unfold entry_phase.
  apply (try_each_inv
           (fun s => tracker_entry_info s !! tid = tracker_entry_info m !! tid));
    [|done].
  intros [z d] s Hin Hs. rewrite entry_zone_other; [done|].
  simpl. intros Htid. apply Hnot, elem_of_observed.
  exists d. split; [|done]. by eapply elem_of_enumerate_from.
Qed.

Lemma entry_zone_new t zone m tid r :
  tracker_entry_info (after (entry_zone t zone m)) !! tid = Some r ->
  tracker_entry_info m !! tid = Some r \/
  opened_here t zone.1 (tracker_id zone.2) m tid r.
Proof.
  unfold entry_zone. intros Hr.
  cut ((forall r0, tracker_entry_info m !! tid = Some r0 ->
          tracker_entry_info
            (after (try_each (entry_step t zone.1 zone.2)
                             (enumerate (tracker_id zone.2)) m)) !! tid = Some r0) /\
       (forall r, tracker_entry_info
            (after (try_each (entry_step t zone.1 zone.2)
                             (enumerate (tracker_id zone.2)) m)) !! tid = Some r ->
          tracker_entry_info m !! tid = Some r \/
          opened_here t zone.1 (tracker_id zone.2) m tid r)).
  { intros [_ Hnew]. by apply Hnew. }
  clear Hr r.
  apply (try_each_inv
    (fun s =>
       (forall r0, tracker_entry_info m !! tid = Some r0 ->
          tracker_entry_info s !! tid = Some r0) /\
       (forall r, tracker_entry_info s !! tid = Some r ->
          tracker_entry_info m !! tid = Some r \/
          opened_here t zone.1 (tracker_id zone.2) m tid r))); [|by split; auto].
  intros [idx tid0] s Hin [Hkeep Hnew]. split.
  - intros r0 Hr0. by apply entry_step_keeps, Hkeep.
  - intros r. rewrite entry_step_lookup.
    intros [Hr|(-> & Hnone & vtype & Hv & ->)]; [by apply Hnew|].
    right. split_and!; try done.
    + destruct (tracker_entry_info m !! tid0) as [r0|] eqn:Hm; [|done].
      specialize (Hkeep r0 eq_refl). congruence.
    + by eapply elem_of_enumerate_from.
Qed.

Lemma entry_phase_new t ins m tid r :
  tracker_entry_info (after (entry_phase t ins m)) !! tid = Some r ->
  tracker_entry_info m !! tid = Some r \/
  (tracker_entry_info m !! tid = None /\ tid ∈ observed ins /\ r.1.2 = t).
Proof.
  unfold entry_phase. intros Hr.
  cut ((forall r0, tracker_entry_info m !! tid = Some r0 ->
          tracker_entry_info
            (after (try_each (entry_zone t) (enumerate ins) m)) !! tid = Some r0) /\
       (forall r, tracker_entry_info
            (after (try_each (entry_zone t) (enumerate ins) m)) !! tid = Some r ->
          tracker_entry_info m !! tid = Some r \/
          (tracker_entry_info m !! tid = None /\ tid ∈ observed ins /\
           r.1.2 = t))).
  { intros [_ Hnew]. by apply Hnew. }
  clear Hr r.
  apply (try_each_inv
    (fun s =>
       (forall r0, tracker_entry_info m !! tid = Some r0 ->
          tracker_entry_info s !! tid = Some r0) /\
       (forall r, tracker_entry_info s !! tid = Some r ->
          tracker_entry_info m !! tid = Some r \/
          (tracker_entry_info m !! tid = None /\ tid ∈ observed ins /\
           r.1.2 = t)))); [|by split; auto].
  intros [z d] s Hin [Hkeep Hnew]. split.
  - intros r0 Hr0. by apply entry_zone_keeps, Hkeep.
  - intros r Hr. apply entry_zone_new in Hr as [Hr|(Hnone & Hseen & _ & Ht)].
    + by apply Hnew.
    + right. split_and!; try done.
      * destruct (tracker_entry_info m !! tid) as [r0|] eqn:Hm; [|done].
        specialize (Hkeep r0 eq_refl). simpl in *. congruence.
      * apply elem_of_observed. exists d. split; [|done].
        by eapply elem_of_enumerate_from.
Qed.

(** *** First entry wins *)

Lemma entry_steps_keeps t z d obs m tid r :
  tracker_entry_info m !! tid = Some r ->
  tracker_entry_info (after (try_each (entry_step t z d) obs m)) !! tid = Some r.
Proof.
  apply (try_each_inv (fun s => tracker_entry_info s !! tid = Some r)).
  intros o s _. apply entry_step_keeps.
Qed.

Lemma entry_zones_keeps t zones m tid r :
  tracker_entry_info m !! tid = Some r ->
  tracker_entry_info (after (try_each (entry_zone t) zones m)) !! tid = Some r.
Proof.
  apply (try_each_inv (fun s => tracker_entry_info s !! tid = Some r)).
  intros o s _. apply entry_zone_keeps.
Qed.

Lemma entry_steps_first t z d tid ids n idx m m' :
  tracker_entry_info m !! tid = None ->
  first_index tid ids = Some (idx, tid) ->
  try_each (entry_step t z d) (enumerate_from n ids) m = Ok m' ->
  exists vtype, vehicle_type_at d (n + idx) = Some vtype /\
    tracker_entry_info m' !! tid = Some (z, t, vtype).
Proof.
  unfold first_index. revert n idx m.
  induction ids as [|x ids IH]; intros n idx m Hclosed Hfind Hrun; [done|].
  simpl in Hfind. cbn [try_each enumerate_from] in Hrun.
  destruct (decide (x = tid)) as [->|Hne].
  - injection Hfind as <-. rewrite Nat.add_0_r.
    destruct (entry_step t z d (n, tid) m) as [m1|] eqn:Hstep; [|done].
    unfold entry_step in Hstep. rewrite Hclosed in Hstep.
    destruct (vehicle_type_at d n) as [vtype|]; [|done].
    injection Hstep as <-. exists vtype. split; [done|].
    pose proof (entry_steps_keeps t z d (enumerate_from (S n) ids)
      {| num_rotonda := num_rotonda m; horario := horario m; dia := dia m;
         fps := fps m;
         tracker_id_to_zone_id := setdefault tid z (tracker_id_to_zone_id m);
         counts := counts m;
         tracker_entry_info := <[tid := (z, t, vtype)]> (tracker_entry_info m);
         events := events m; event_counter := event_counter m |}
      tid (z, t, vtype)) as Hkeep.
    rewrite Hrun in Hkeep. apply Hkeep. simpl. apply lookup_insert_eq.
  - destruct (list_find (fun x => x = tid) ids) as [[i y]|] eqn:Hrest; [|done].
    simpl in Hfind. injection Hfind as <- ->.
    pose proof (entry_step_other t z d n x m tid (not_eq_sym Hne)) as Hother.
    destruct (entry_step t z d (n, x) m) as [m1|]; [|done]. simpl in Hother.
    replace (n + S i) with (S n + i) by lia.
    eapply IH; [|done|done]. by rewrite Hother.
Qed.

Lemma entry_zones_first t tid zones n z d idx m m' :
  tracker_entry_info m !! tid = None ->
  first_zone tid zones = Some (z, d) ->
  first_index tid (tracker_id d) = Some (idx, tid) ->
  try_each (entry_zone t) (enumerate_from n zones) m = Ok m' ->
  exists vtype, vehicle_type_at d idx = Some vtype /\
    tracker_entry_info m' !! tid = Some (n + z, t, vtype).
Proof.
  unfold first_zone. revert n z m.
  induction zones as [|d0 zones IH]; intros n z m Hclosed Hfind Hidx Hrun; [done|].
  simpl in Hfind. cbn [try_each enumerate_from] in Hrun.
  destruct (decide (tid ∈ tracker_id d0)) as [Hin|Hnot].
  - injection Hfind as <- <-. rewrite Nat.add_0_r.
    destruct (entry_zone t (n, d0) m) as [m1|] eqn:Hzone; [|done].
    unfold entry_zone, enumerate in Hzone. simpl in Hzone.
    destruct (entry_steps_first _ _ _ _ _ _ _ _ _ Hclosed Hidx Hzone)
      as (vtype & Hv & Hm1).
    exists vtype. split; [done|].
    pose proof (entry_zones_keeps t (enumerate_from (S n) zones) m1 tid _ Hm1)
      as Hkeep.
    by rewrite Hrun in Hkeep.
  - destruct (list_find (fun d => tid ∈ tracker_id d) zones) as [[i y]|] eqn:Hrest;
      [|done].
    simpl in Hfind. injection Hfind as <- ->.
    pose proof (entry_zone_other t (n, d0) m tid Hnot) as Hother.
    destruct (entry_zone t (n, d0) m) as [m1|]; [|done]. simpl in Hother.
    replace (n + S i) with (S n + i) by lia.
    eapply IH; [|done|done|done]. by rewrite Hother.
Qed.

Lemma entry_phase_first t tid ins z d idx m m' :
  tracker_entry_info m !! tid = None ->
  first_zone tid ins = Some (z, d) ->
  first_index tid (tracker_id d) = Some (idx, tid) ->
  entry_phase t ins m = Ok m' ->
  exists vtype, vehicle_type_at d idx = Some vtype /\
    tracker_entry_info m' !! tid = Some (z, t, vtype).
Proof. intros. by eapply (entry_zones_first t tid ins 0). Qed.

(** *** The transition registration *)

Lemma exit_step_closed t zo tid m :
  tracker_entry_info m !! tid = None -> exit_step t zo tid m = m.
Proof. intros Hc. unfold exit_step. by rewrite Hc. Qed.

Lemma exit_step_same_context t zo tid m0 m :
  same_context m0 m -> same_context m0 (exit_step t zo tid m).
Proof.
  unfold exit_step. destruct (tracker_entry_info m !! tid) as [[[zi te] vt]|]; done.
Qed.

Lemma make_event_context m0 m tid zi zo te t vt :
  same_context m0 m ->
  make_event m tid zi zo te t vt = make_event m0 tid zi zo te t vt.
Proof. intros (_ & Hn & Hh & Hd & _). unfold make_event. by rewrite Hn, Hh, Hd. Qed.

Lemma exit_step_lookup_other t zo tid m tid' :
  tid' <> tid ->
  tracker_entry_info (exit_step t zo tid m) !! tid' =
  tracker_entry_info m !! tid'.
Proof.
  intros Hne. unfold exit_step.
  destruct (tracker_entry_info m !! tid) as [[[zi te] vt]|]; [|done].
  simpl. by rewrite lookup_delete_ne.
Qed.

Lemma exit_step_lookup_sub t zo tid m tid' r :
  tracker_entry_info (exit_step t zo tid m) !! tid' = Some r ->
  tracker_entry_info m !! tid' = Some r.
Proof.
  unfold exit_step.
  destruct (tracker_entry_info m !! tid) as [[[zi te] vt]|]; [|done].
  simpl. rewrite lookup_delete_Some. by intros [_ ?].
Qed.

Lemma exit_step_events_other t zo tid m tid' :
  tid' <> tid -> events_of tid' (exit_step t zo tid m) = events_of tid' m.
Proof.
  intros Hne. unfold exit_step, events_of.
  destruct (tracker_entry_info m !! tid) as [[[zi te] vt]|]; [|done].
  simpl. rewrite filter_app, filter_cons_False, filter_nil by (simpl; congruence).
  by rewrite app_nil_r.
Qed.

Lemma exit_step_open t zo tid m zi te vt :
  tracker_entry_info m !! tid = Some (zi, te, vt) ->
  events (exit_step t zo tid m) =
    events m ++ [make_event m tid zi zo te t vt] /\
  events_of tid (exit_step t zo tid m) =
    events_of tid m ++ [make_event m tid zi zo te t vt] /\
  tracker_entry_info (exit_step t zo tid m) !! tid = None /\
  counts (exit_step t zo tid m) = count_crossing zo zi tid (counts m) /\
  event_counter (exit_step t zo tid m) = event_counter m + 1.
Proof.
  intros Hopen. unfold exit_step, events_of. rewrite Hopen. simpl.
  split_and!; try done.
  - by rewrite filter_app, filter_cons_True, filter_nil.
  - apply lookup_delete_eq.
Qed.

Lemma exit_step_view_other t zo tid m tid' :
  tid' <> tid -> view tid' (exit_step t zo tid m) = view tid' m.
Proof.
  intros Hne. unfold view.
  by rewrite exit_step_lookup_other, exit_step_events_other.
Qed.

Lemma exit_ids_same_context t zo ids m0 m :
  same_context m0 m -> same_context m0 (for_each (exit_step t zo) ids m).
Proof.
  apply (for_each_inv (same_context m0)).
  intros tid s _. apply exit_step_same_context.
Qed.

Lemma exit_phase_same_context t outs m :
  same_context m (exit_phase t outs m).
Proof.
  unfold exit_phase. apply (for_each_inv (same_context m)); [|done].
  intros zone s _. apply exit_ids_same_context.
Qed.

Lemma exit_ids_closed t zo ids m tid :
  tracker_entry_info m !! tid = None ->
  view tid (for_each (exit_step t zo) ids m) = view tid m.
Proof.
  intros Hclosed.
  apply (for_each_inv (fun s => view tid s = view tid m)); [|done].
  intros tid0 s _ Hs. rewrite <- Hs.
  destruct (decide (tid = tid0)) as [<-|Hne].
  - rewrite exit_step_closed; [done|].
    unfold view in Hs. injection Hs as Hs _. by rewrite Hs.
  - by apply exit_step_view_other.
Qed.

Lemma exit_ids_not_in t zo ids m tid :
  tid ∉ ids -> view tid (for_each (exit_step t zo) ids m) = view tid m.
Proof.
  intros Hnot.
  apply (for_each_inv (fun s => view tid s = view tid m)); [|done].
  intros tid0 s Hin Hs. rewrite <- Hs. apply exit_step_view_other.
  by intros ->.
Qed.

Lemma exit_ids_first t zo ids m tid zi te vt :
  tracker_entry_info m !! tid = Some (zi, te, vt) ->
  tid ∈ ids ->
  view tid (for_each (exit_step t zo) ids m) =
  (None, events_of tid m ++ [make_event m tid zi zo te t vt]).
Proof.
  revert m. induction ids as [|x ids IH]; intros m Hopen Hin.
  { by apply elem_of_nil in Hin. }
  simpl. destruct (decide (x = tid)) as [->|Hne].
  - destruct (exit_step_open t zo tid m zi te vt Hopen) as (_ & Hev & Hinfo & _).
    rewrite exit_ids_closed by done. unfold view. by rewrite Hev, Hinfo.
  - apply elem_of_cons in Hin as [->|Hin]; [done|].
    pose proof (exit_step_view_other t zo x m tid (not_eq_sym Hne)) as Hview.
    unfold view in Hview. injection Hview as Hinfo Hev.
    rewrite IH; [|by rewrite Hinfo|done].
    rewrite Hev. do 3 f_equal. apply make_event_context.
    by apply exit_step_same_context.
Qed.

Lemma exit_zones_closed t zones m tid :
  tracker_entry_info m !! tid = None ->
  view tid (for_each (exit_zone t) zones m) = view tid m.
Proof.
  intros Hclosed.
  apply (for_each_inv (fun s => view tid s = view tid m)); [|done].
  intros zone s _ Hs. rewrite <- Hs. apply exit_ids_closed.
  unfold view in Hs. injection Hs as Hs _. by rewrite Hs.
Qed.

Lemma exit_zones_first t tid zones n zo d m zi te vt :
  tracker_entry_info m !! tid = Some (zi, te, vt) ->
  first_zone tid zones = Some (zo, d) ->
  view tid (for_each (exit_zone t) (enumerate_from n zones) m) =
  (None, events_of tid m ++ [make_event m tid zi (n + zo) te t vt]).
Proof.
  unfold first_zone. revert n zo m.
  induction zones as [|d0 zones IH]; intros n zo m Hopen Hfind; [done|].
  simpl in Hfind. cbn [for_each enumerate_from].
  destruct (decide (tid ∈ tracker_id d0)) as [Hin|Hnot].
  - injection Hfind as <- <-. rewrite Nat.add_0_r.
    pose proof (exit_ids_first t n (tracker_id d0) m tid zi te vt Hopen Hin) as Hz.
    rewrite exit_zones_closed; [done|].
    unfold exit_zone. simpl. unfold view in Hz. by injection Hz as -> _.
  - destruct (list_find (fun d => tid ∈ tracker_id d) zones) as [[i y]|] eqn:Hrest;
      [|done].
    simpl in Hfind. injection Hfind as <- ->.
    pose proof (exit_ids_not_in t n (tracker_id d0) m tid Hnot) as Hview.
    unfold view in Hview. injection Hview as Hinfo Hev.
    replace (n + S i) with (S n + i) by lia.
    unfold exit_zone at 2. simpl.
    rewrite (IH (S n) i _); [| by rewrite Hinfo | done].
    rewrite Hev. do 3 f_equal. apply make_event_context.
    by apply exit_ids_same_context.
Qed.

(** An open record is closed by the first exit zone, in
    enumeration order, that lists its tracker id; the later ones
    find no record. *)
Lemma exit_phase_first t tid outs zo d m zi te vt :
  tracker_entry_info m !! tid = Some (zi, te, vt) ->
  first_zone tid outs = Some (zo, d) ->
  view tid (exit_phase t outs m) =
  (None, events_of tid m ++ [make_event m tid zi zo te t vt]).
Proof. intros. by eapply (exit_zones_first t tid outs 0). Qed.

Lemma exit_phase_closed t outs m tid :
  tracker_entry_info m !! tid = None ->
  view tid (exit_phase t outs m) = view tid m.
Proof. apply exit_zones_closed. Qed.

Lemma exit_phase_not_observed t outs m tid :
  tid ∉ observed outs -> view tid (exit_phase t outs m) = view tid m.
Proof.
  intros Hnot. unfold exit_phase.
  apply (for_each_inv (fun s => view tid s = view tid m)); [|done].
  intros [z d] s Hin Hs. rewrite <- Hs. apply exit_ids_not_in.
  simpl. intros Htid. apply Hnot, elem_of_observed. exists d.
  split; [|done]. by eapply elem_of_enumerate_from.
Qed.

(** With no open record for any of the observed ids, the whole
    transition registration changes nothing. *)
Lemma exit_phase_noop t outs m :
  (forall tid, tid ∈ observed outs -> tracker_entry_info m !! tid = None) ->
  exit_phase t outs m = m.
Proof.
  intros Hclosed. unfold exit_phase.
  apply (for_each_inv (fun s => s = m)); [|done].
  intros [z d] s Hin ->. unfold exit_zone. simpl.
  apply (for_each_inv (fun s => s = m)); [|done].
  intros tid s Htid ->. apply exit_step_closed, Hclosed, elem_of_observed.
  exists d. split; [|done]. by eapply elem_of_enumerate_from.
Qed.

Lemma exit_phase_lookup_sub t outs m tid r :
  tracker_entry_info (exit_phase t outs m) !! tid = Some r ->
  tracker_entry_info m !! tid = Some r.
Proof.
  unfold exit_phase. revert r.
  apply (for_each_inv (fun s => forall r, tracker_entry_info s !! tid = Some r ->
                                  tracker_entry_info m !! tid = Some r)); [|done].
  intros zone s _ Hs. unfold exit_zone.
  apply (for_each_inv (fun s => forall r, tracker_entry_info s !! tid = Some r ->
                                  tracker_entry_info m !! tid = Some r)); [|done].
  intros tid0 s0 _ Hs0 r Hr. by eapply Hs0, exit_step_lookup_sub.
Qed.

(** *** One call of [update] *)

Lemma exit_phase_events t outs m :
  exists new, events (exit_phase t outs m) = events m ++ new /\
              Forall (closes t m) new.
Proof.
  cut ((forall tid r, tracker_entry_info (exit_phase t outs m) !! tid = Some r ->
                      tracker_entry_info m !! tid = Some r) /\
       exists new, events (exit_phase t outs m) = events m ++ new /\
                   Forall (closes t m) new); [by intros [_ ?]|].
  unfold exit_phase.
  apply (for_each_inv (fun s =>
    (forall tid r, tracker_entry_info s !! tid = Some r ->
                   tracker_entry_info m !! tid = Some r) /\
    exists new, events s = events m ++ new /\ Forall (closes t m) new)).
  2:{ split; [done|]. exists []. by rewrite app_nil_r. }
  intros zone s _. unfold exit_zone.
  apply (for_each_inv (fun s =>
    (forall tid r, tracker_entry_info s !! tid = Some r ->
                   tracker_entry_info m !! tid = Some r) /\
    exists new, events s = events m ++ new /\ Forall (closes t m) new)).
  intros tid s0 _ [Hsub (new & Hev & Hnew)]. split.
  - intros tid' r Hr. by eapply Hsub, exit_step_lookup_sub.
  - destruct (tracker_entry_info s0 !! tid) as [[[zi te] vt]|] eqn:Hopen.
    + destruct (exit_step_open t zone.1 tid s0 zi te vt Hopen) as (Hev' & _).
      exists (new ++ [make_event s0 tid zi zone.1 te t vt]).
      rewrite Hev', Hev, app_assoc. split; [done|].
      apply Forall_app. split; [done|]. apply Forall_singleton.
      split_and!; try done. simpl. by apply Hsub.
    + rewrite exit_step_closed by done. eauto.
Qed.

Lemma step_unfold m c :
  step m c =
  match py_truediv (call_time c) (fps m) with
  | None => m
  | Some t =>
      match entry_phase t (call_in c) m with
      | Ok m1 => exit_phase t (call_out c) m1
      | Raise _ m1 => m1
      end
  end.
Proof.
  unfold step, update_call, update.
  destruct (py_truediv (call_time c) (fps m)) as [t|]; [|done].
  by destruct (entry_phase t (call_in c) m).
Qed.

Lemma step_fps m c : fps (step m c) = fps m.
Proof.
  rewrite step_unfold.
  destruct (py_truediv (call_time c) (fps m)) as [t|]; [|done].
  pose proof (entry_phase_same_log t (call_in c) m) as (_ & _ & _ & Hf & _).
  destruct (entry_phase t (call_in c) m) as [m1|e m1]; simpl in *; [|done].
  pose proof (exit_phase_same_context t (call_out c) m1) as (Hf' & _).
  congruence.
Qed.

Lemma step_events m c t :
  py_truediv (call_time c) (fps m) = Some t ->
  exists new, events (step m c) = events m ++ new /\
              Forall (emitted t (call_in c) m) new.
Proof.
  intros Ht. rewrite step_unfold, Ht.
  pose proof (entry_phase_same_log t (call_in c) m) as (Hev & _).
  pose proof (entry_phase_new t (call_in c) m) as Hnew.
  destruct (entry_phase t (call_in c) m) as [m1|e m1]; simpl in *.
  2:{ exists []. by rewrite app_nil_r, Hev. }
  destruct (exit_phase_events t (call_out c) m1) as (new & Hev1 & Hcl).
  exists new. rewrite Hev1, Hev. split; [done|].
  eapply Forall_impl; [exact Hcl|].
  intros e (Hs & Hd & Hr). split_and!; try done.
  apply Hnew in Hr as [Hr|(Hnone & Hobs & Hr)]; [left; eauto|right; done].
Qed.

Lemma step_records m c tid r :
  tracker_entry_info (step m c) !! tid = Some r ->
  tracker_entry_info m !! tid = Some r \/
  (tracker_entry_info m !! tid = None /\ tid ∈ observed (call_in c) /\
   py_truediv (call_time c) (fps m) = Some r.1.2).
Proof.
  rewrite step_unfold.
  destruct (py_truediv (call_time c) (fps m)) as [t|]; [|by left].
  pose proof (entry_phase_new t (call_in c) m tid r) as Hnew.
  destruct (entry_phase t (call_in c) m) as [m1|e m1]; simpl in *.
  - intros Hr%exit_phase_lookup_sub.
    destruct (Hnew Hr) as [?|(? & ? & <-)]; [by left|by right].
  - intros Hr. destruct (Hnew Hr) as [?|(? & ? & <-)]; [by left|by right].
Qed.

(** A call that does not observe a tracker id leaves its record
    and its events alone. *)
Lemma step_not_observed m c tid :
  tid ∉ observed (call_in c) -> tid ∉ observed (call_out c) ->
  view tid (step m c) = view tid m.
Proof.
  intros Hin Hout. rewrite step_unfold.
  destruct (py_truediv (call_time c) (fps m)) as [t|]; [|done].
  pose proof (entry_phase_same_log t (call_in c) m) as (Hev & _).
  pose proof (entry_phase_other t (call_in c) m tid Hin) as Hinfo.
  destruct (entry_phase t (call_in c) m) as [m1|e m1]; simpl in *.
  - rewrite exit_phase_not_observed by done.
    unfold view, events_of. by rewrite Hinfo, Hev.
  - unfold view, events_of. by rewrite Hinfo, Hev.
Qed.

(** Without a record and without an entry observation, a call
    emits nothing for the tracker id and opens nothing. *)
Lemma step_closed m c tid :
  tracker_entry_info m !! tid = None ->
  tid ∉ observed (call_in c) ->
  view tid (step m c) = view tid m.
Proof.
  intros Hclosed Hin. rewrite step_unfold.
  destruct (py_truediv (call_time c) (fps m)) as [t|]; [|done].
  pose proof (entry_phase_same_log t (call_in c) m) as (Hev & _).
  pose proof (entry_phase_other t (call_in c) m tid Hin) as Hinfo.
  destruct (entry_phase t (call_in c) m) as [m1|e m1]; simpl in *.
  - rewrite exit_phase_closed by congruence.
    unfold view, events_of. by rewrite Hinfo, Hev.
  - unfold view, events_of. by rewrite Hinfo, Hev.
Qed.

Lemma run_app m calls1 calls2 :
  run m (calls1 ++ calls2) = run (run m calls1) calls2.
Proof. apply fold_left_app. Qed.

Lemma run_closed m calls tid :
  tracker_entry_info m !! tid = None ->
  (forall c, c ∈ calls -> tid ∉ observed (call_in c)) ->
  view tid (run m calls) = view tid m.
Proof.
  revert m. induction calls as [|c calls IH]; intros m Hclosed Hin; [done|].
  simpl. pose proof (step_closed m c tid Hclosed) as Hstep.
  rewrite IH.
  - apply Hstep, Hin, list_elem_of_here.
  - rewrite <- Hclosed. symmetry.
    change (tracker_entry_info m !! tid) with (view tid m).1.
    rewrite <- Hstep; [done|]. apply Hin, list_elem_of_here.
  - intros c' Hc'. by apply Hin, list_elem_of_further.
Qed.

(** What one call can do to the record and the events of a tracker
    id: nothing to the events, or exactly one event, which closes
    the record. *)
Lemma step_at_most_one m c tid :
  events_of tid (step m c) = events_of tid m \/
  exists e, events_of tid (step m c) = events_of tid m ++ [e] /\
            tracker_entry_info (step m c) !! tid = None.
Proof.
  rewrite step_unfold.
  destruct (py_truediv (call_time c) (fps m)) as [t|]; [|by left].
  pose proof (entry_phase_same_log t (call_in c) m) as (Hev & _).
  destruct (entry_phase t (call_in c) m) as [m1|e m1]; simpl in *.
  2:{ left. unfold events_of. by rewrite Hev. }
  replace (events_of tid m) with (events_of tid m1)
    by (unfold events_of; by rewrite Hev).
  destruct (tracker_entry_info m1 !! tid) as [[[zi te] vt]|] eqn:Hopen.
  - destruct (first_zone tid (call_out c)) as [[zo d]|] eqn:Hfirst.
    + pose proof (exit_phase_first t tid _ zo d m1 zi te vt Hopen Hfirst) as Hv.
      unfold view in Hv. injection Hv as Hinfo Hevs. right. eauto.
    + left. unfold first_zone in Hfirst.
      pose proof (exit_phase_not_observed t (call_out c) m1 tid) as Hv.
      unfold view in Hv. 
      assert (tid ∉ observed (call_out c)) as Hnot.
      { intros (d & Hd & Htid)%elem_of_observed.
        eapply list_find_None in Hfirst. rewrite Forall_forall in Hfirst.
        by eapply Hfirst. }
      by injection (Hv Hnot).
  - left. pose proof (exit_phase_closed t (call_out c) m1 tid Hopen) as Hv.
    unfold view in Hv. by injection Hv.
Qed.

Lemma make_event_same_log m0 m tid zi zo te t vt :
  same_log m0 m ->
  make_event m tid zi zo te t vt = make_event m0 tid zi zo te t vt.
Proof.
  intros (_ & _ & _ & _ & Hn & Hh & Hd). unfold make_event.
  by rewrite Hn, Hh, Hd.
Qed.

Lemma entry_zones_no_obs t zones n m :
  observed zones = [] ->
  try_each (entry_zone t) (enumerate_from n zones) m = Ok m.
Proof.
  unfold observed. revert n.
  induction zones as [|d zones IH]; intros n Hnone; [done|].
  simpl in Hnone. apply app_eq_nil in Hnone as [Hd Hrest].
  cbn [enumerate_from try_each]. unfold entry_zone at 1. simpl.
  rewrite Hd. simpl. by apply IH.
Qed.

Lemma entry_phase_no_obs t ins m :
  observed ins = [] -> entry_phase t ins m = Ok m.
Proof. apply entry_zones_no_obs. Qed.

Lemma manager_update m all ins outs ft :
  manager (after (update m all ins outs ft)) =
  step m {| call_all := all; call_in := ins; call_out := outs;
            call_time := ft |}.
Proof. done. Qed.

Lemma step_tags m c : same_tags m (step m c).
Proof.
  rewrite step_unfold.
  destruct (py_truediv (call_time c) (fps m)) as [t|]; [|done].
  pose proof (entry_phase_same_log t (call_in c) m)
    as (_ & _ & _ & Hf & Hn & Hh & Hd).
  destruct (entry_phase t (call_in c) m) as [m1|e m1]; simpl in *; [|done].
  pose proof (exit_phase_same_context t (call_out c) m1)
    as (Hf' & Hn' & Hh' & Hd' & _).
  unfold same_tags. split_and!; congruence.
Qed.

Lemma run_tags m calls : same_tags m (run m calls).
Proof.
  revert m. induction calls as [|c calls IH]; intros m; [done|].
  simpl. destruct (IH (step m c)) as (Hf & Hn & Hh & Hd).
  destruct (step_tags m c) as (Hf' & Hn' & Hh' & Hd').
  unfold same_tags. split_and!; congruence.
Qed.

Lemma make_event_tags m0 m tid zi zo te t vt :
  same_tags m0 m ->
  make_event m tid zi zo te t vt = make_event m0 tid zi zo te t vt.
Proof. intros (_ & Hn & Hh & Hd). unfold make_event. by rewrite Hn, Hh, Hd. Qed.

Lemma run_not_observed m calls tid :
  (forall c, c ∈ calls ->
     (tid ∉ observed (call_in c)) /\ (tid ∉ observed (call_out c))) ->
  view tid (run m calls) = view tid m.
Proof.
  revert m. induction calls as [|c calls IH]; intros m Hquiet; [done|].
  simpl. rewrite IH.
  - destruct (Hquiet c (list_elem_of_here _ _)). by apply step_not_observed.
  - intros c' Hc'. by apply Hquiet, list_elem_of_further.
Qed.

Lemma returns_entry m c t :
  raised (update_call m c) = None ->
  py_truediv (call_time c) (fps m) = Some t ->
  exists m1, entry_phase t (call_in c) m = Ok m1 /\
             step m c = exit_phase t (call_out c) m1.
Proof.
  intros Hret Ht. rewrite step_unfold. unfold update_call, update in Hret.
  rewrite Ht in *. destruct (entry_phase t (call_in c) m) as [m1|e m1]; [|done].
  eauto.
Qed.

Lemma step_opens m c tid t z d idx :
  tracker_entry_info m !! tid = None ->
  first_zone tid (call_in c) = Some (z, d) ->
  first_index tid (tracker_id d) = Some (idx, tid) ->
  tid ∉ observed (call_out c) ->
  py_truediv (call_time c) (fps m) = Some t ->
  raised (update_call m c) = None ->
  exists vt, vehicle_type_at d idx = Some vt /\
             view tid (step m c) = (Some (z, t, vt), events_of tid m).
Proof.
  intros Hclosed Hz Hidx Hout Ht Hret.
  destruct (returns_entry m c t Hret Ht) as (m1 & Hentry & ->).
  destruct (entry_phase_first t tid _ z d idx m m1 Hclosed Hz Hidx Hentry)
    as (vt & Hvt & Hm1).
  exists vt. split; [done|]. rewrite exit_phase_not_observed by done.
  pose proof (entry_phase_same_log t (call_in c) m) as (Hev & _).
  rewrite Hentry in Hev. simpl in Hev. unfold view, events_of.
  by rewrite Hm1, Hev.
Qed.

Lemma step_closes m c tid t zi te vt zo d :
  tracker_entry_info m !! tid = Some (zi, te, vt) ->
  first_zone tid (call_out c) = Some (zo, d) ->
  py_truediv (call_time c) (fps m) = Some t ->
  raised (update_call m c) = None ->
  view tid (step m c) =
  (None, events_of tid m ++ [make_event m tid zi zo te t vt]).
Proof.
  intros Hopen Hzo Ht Hret.
  destruct (returns_entry m c t Hret Ht) as (m1 & Hentry & ->).
  pose proof (entry_phase_keeps t (call_in c) m tid _ Hopen) as Hm1.
  pose proof (entry_phase_same_log t (call_in c) m) as Hlog.
  rewrite Hentry in Hm1, Hlog. simpl in Hm1, Hlog.
  rewrite (exit_phase_first t tid _ zo d m1 zi te vt Hm1 Hzo).
  rewrite (make_event_same_log m m1) by done.
  destruct Hlog as (Hev & _). unfold events_of. by rewrite Hev.
Qed.

(** Entry and exit of one tracker id in the same call. *)
Lemma step_same_frame m c tid t z d idx zo d' :
  tracker_entry_info m !! tid = None ->
  first_zone tid (call_in c) = Some (z, d) ->
  first_index tid (tracker_id d) = Some (idx, tid) ->
  first_zone tid (call_out c) = Some (zo, d') ->
  py_truediv (call_time c) (fps m) = Some t ->
  raised (update_call m c) = None ->
  exists vt, vehicle_type_at d idx = Some vt /\
    view tid (step m c) =
    (None, events_of tid m ++ [make_event m tid z zo t t vt]).
Proof.
  intros Hclosed Hz Hidx Hzo Ht Hret.
  destruct (returns_entry m c t Hret Ht) as (m1 & Hentry & ->).
  destruct (entry_phase_first t tid _ z d idx m m1 Hclosed Hz Hidx Hentry)
    as (vt & Hvt & Hm1).
  exists vt. split; [done|].
  pose proof (entry_phase_same_log t (call_in c) m) as Hlog.
  rewrite Hentry in Hlog. simpl in Hlog.
  rewrite (exit_phase_first t tid _ zo d' m1 z t vt Hm1 Hzo).
  rewrite (make_event_same_log m m1) by done.
  destruct Hlog as (Hev & _). unfold events_of. by rewrite Hev.
Qed.

(** The events of a tracker id that crosses once. *)
Lemma single_crossing_events tid z_in z_out ft1 ft2 t1 t2 m0 calls :
  view tid m0 = (None, []) ->
  py_truediv ft1 (fps m0) = Some t1 ->
  py_truediv ft2 (fps m0) = Some t2 ->
  single_crossing tid z_in z_out ft1 ft2 m0 calls ->
  exists vt,
    events_of tid (run m0 calls) = [make_event m0 tid z_in z_out t1 t2 vt].
Proof.
  intros Hm0 Ht1 Ht2
    (before & c1 & between & c2 & later & d1 & d2 & -> & Hquiet &
     <- & Hz1 & Hout1 & <- & Hin2 & Hz2 & Hret1 & Hret2).
  assert (exists idx, first_index tid (tracker_id d1) = Some (idx, tid))
    as [idx Hidx].
  { unfold first_zone in Hz1. apply list_find_Some in Hz1 as (_ & Hin & _).
    destruct (list_find_elem_of (fun x => x = tid) (tracker_id d1) tid Hin eq_refl)
      as [[i y] Hfind].
    pose proof Hfind as (_ & -> & _)%list_find_Some. by exists i. }
  set (ma := run m0 before) in *.
  assert (view tid ma = (None, [])) as Hma.
  { unfold ma. rewrite run_not_observed; [done|].
    intros c Hc. apply Hquiet. rewrite elem_of_app. by left. }
  pose proof (run_tags m0 before) as Htags_a. fold ma in Htags_a.
  destruct (step_opens ma c1 tid t1 z_in d1 idx) as (vt & Hvt & Hmb); try done.
  { by injection Hma. }
  { destruct Htags_a as (-> & _). done. }
  exists vt.
  replace (before ++ c1 :: between ++ c2 :: later)
    with ((before ++ c1 :: between) ++ c2 :: later)
    by (by rewrite <- app_assoc).
  rewrite run_app. simpl.
  set (mc := run m0 (before ++ c1 :: between)) in *.
  assert (view tid mc = (Some (z_in, t1, vt), [])) as Hmc.
  { unfold mc. rewrite run_app. simpl. fold ma. rewrite run_not_observed.
    - rewrite Hmb. by injection Hma as _ ->.
    - intros c Hc. apply Hquiet. rewrite !elem_of_app. right. by left. }
  pose proof (run_tags m0 (before ++ c1 :: between)) as Htags_c. fold mc in Htags_c.
  pose proof (step_closes mc c2 tid t2 z_in t1 vt z_out d2) as Hmd.
  assert (view tid (run (step mc c2) later) =
          (None, [make_event m0 tid z_in z_out t1 t2 vt])) as Hend.
  { rewrite run_not_observed.
    - rewrite Hmd; try done.
      + injection Hmc as _ ->. simpl. f_equal. f_equal.
        by apply make_event_tags.
      + by injection Hmc.
      + destruct Htags_c as (-> & _). done.
    - intros c Hc. apply Hquiet. rewrite !elem_of_app. right. by right. }
  unfold view in Hend. by injection Hend.
Qed.

(** *** The claims that hold for every number type *)

(** C2.  At most one event per open record.  If a call of [update]
    adds to the events of a tracker id, it adds exactly one event,
    the record of the id is gone when the call ends, and however
    many calls follow, no further event of that id appears and no
    record of it exists as long as none of them observes the id in
    an entry zone. *)
Theorem one_event_per_open_record m c calls tid :
  length (events_of tid m) < length (events_of tid (step m c)) ->
  (forall c', c' ∈ calls -> tid ∉ observed (call_in c')) ->
  exists e,
    events_of tid (step m c) = events_of tid m ++ [e] /\
    tracker_entry_info (step m c) !! tid = None /\
    view tid (run (step m c) calls) = (None, events_of tid m ++ [e]).
Proof.
  intros Hgrow Hquiet.
  destruct (step_at_most_one m c tid) as [Hsame|(e & Hev & Hclosed)].
  { rewrite Hsame in Hgrow. lia. }
  exists e. split_and!; try done.
  rewrite run_closed by done. unfold view. by rewrite Hclosed, Hev.
Qed.

(** C5.  An exit observation without an open record is a no-op.
    When none of the tracker ids seen in the exit zones has an open
    record (and none is seen in an entry zone of the same call, which
    would open one), the call leaves the events, the counts and the
    event counter as they were, and the whole manager is as if the
    exit zones had been empty; if moreover no entry zone holds a
    detection, the manager, with its table of open records, is
    unchanged. *)
Theorem orphan_exit_is_noop m all ins outs ft :
  (forall tid, tid ∈ observed outs ->
     tracker_entry_info m !! tid = None /\ tid ∉ observed ins) ->
  let m' := manager (after (update m all ins outs ft)) in
  events m' = events m /\ counts m' = counts m /\
  event_counter m' = event_counter m /\
  m' = manager (after (update m all ins [] ft)) /\
  (observed ins = [] -> m' = m).
Proof.
  intros Horphan. cbv zeta. rewrite !manager_update, !step_unfold. simpl.
  destruct (py_truediv ft (fps m)) as [t|]; [|done].
  pose proof (entry_phase_same_log t ins m) as (Hev & Hc & Hn & _).
  pose proof (entry_phase_no_obs t ins m) as Hno.
  destruct (entry_phase t ins m) as [m1|e m1] eqn:Hentry; simpl in *.
  - rewrite exit_phase_noop.
    + split_and!; try done. intros Hnone. specialize (Hno Hnone). congruence.
    + intros tid Htid. destruct (Horphan tid Htid) as [Hclosed Hnot].
      pose proof (entry_phase_other t ins m tid Hnot) as Hother.
      rewrite Hentry in Hother. simpl in Hother. congruence.
  - split_and!; try done. intros Hnone. specialize (Hno Hnone). congruence.
Qed.

(** C9.  The first zone in enumeration order wins.  In a call whose
    entry registration runs to its end, leaving the manager [m1]:
    a record that was open before the call is still the same (the
    entry observation is ignored); a tracker id without a record
    gets the index of the first entry zone that lists it, with the
    vehicle type found at its first position there; and a record
    open when the transition registration starts yields exactly one
    event, after which the id has no record: the event's [Id_salida]
    is the index of the first exit zone that lists the id, its
    [Id_Entrada], entry time and vehicle type are those of the
    record, and its exit time is that of the call.  An entry
    observation of an id that has a record changes nothing at all. *)
Theorem first_zone_wins m all ins outs ft t m1 tid :
  py_truediv ft (fps m) = Some t ->
  entry_phase t ins m = Ok m1 ->
  (forall r, tracker_entry_info m !! tid = Some r ->
             tracker_entry_info m1 !! tid = Some r) /\
  (forall z d idx,
     tracker_entry_info m !! tid = None ->
     first_zone tid ins = Some (z, d) ->
     first_index tid (tracker_id d) = Some (idx, tid) ->
     exists vt, vehicle_type_at d idx = Some vt /\
                tracker_entry_info m1 !! tid = Some (z, t, vt)) /\
  (forall zi te vt zo d,
     tracker_entry_info m1 !! tid = Some (zi, te, vt) ->
     first_zone tid outs = Some (zo, d) ->
     exists e,
       view tid (manager (after (update m all ins outs ft))) =
         (None, events_of tid m ++ [e]) /\
       e = make_event m tid zi zo te t vt /\
       Id e = tid /\
       Id_Entrada e = zi /\
       Id_salida e = zo /\
       Tiempo_Entrada e = te /\
       Tiempo_Salida e = t /\
       Tiempo_dentro e = py_sub t te /\
       Tipo_vehiculo e = vt /\
       Num_rotonda e = num_rotonda m /\
       Horario e = horario m /\
       Dia e = dia m) /\
  (forall z d idx s,
     is_Some (tracker_entry_info s !! tid) ->
     entry_step t z d (idx, tid) s = Ok s).
Proof.
  intros Ht Hentry. split_and!; [| | |intros; by apply entry_step_ignored].
  - intros r Hr. pose proof (entry_phase_keeps t ins m tid r Hr) as Hk.
    by rewrite Hentry in Hk.
  - intros z d idx Hclosed Hz Hidx. by eapply entry_phase_first.
  - intros zi te vt zo d Hopen Hzo.
    exists (make_event m tid zi zo te t vt). split; [|by split_and!].
    rewrite manager_update, step_unfold. simpl. rewrite Ht, Hentry.
    pose proof (entry_phase_same_log t ins m) as Hlog.
    rewrite Hentry in Hlog. simpl in Hlog.
    rewrite (exit_phase_first t tid outs zo d m1 zi te vt Hopen Hzo).
    rewrite (make_event_same_log m m1) by done.
    destruct Hlog as (Hev & _). unfold events_of. by rewrite Hev.
Qed.

Lemma first_zone_index tid zones z d :
  first_zone tid zones = Some (z, d) ->
  exists idx, first_index tid (tracker_id d) = Some (idx, tid).
Proof.
  unfold first_zone, first_index. intros (_ & Hin & _)%list_find_Some.
  destruct (list_find_elem_of (fun x => x = tid) (tracker_id d) tid Hin eq_refl)
    as [[i y] Hfind].
  pose proof Hfind as (_ & -> & _)%list_find_Some. by exists i.
Qed.

(** *** Where the times come from *)

Lemma time_of_call_later rate (past : list (Call T)) c i t :
  Ledger.time_of_call rate past i t ->
  Ledger.time_of_call rate (past ++ [c]) i t.
Proof.
  intros (c0 & Hi & Ht). exists c0. split; [by apply lookup_app_l_Some | done].
Qed.

Lemma time_of_call_bound rate (past : list (Call T)) i t :
  Ledger.time_of_call rate past i t -> i < length past.
Proof. by intros (c0 & Hi%lookup_lt_Some & _). Qed.

Lemma emitted_by_later rate (past : list (Call T)) c e j :
  Ledger.emitted_by rate past e j -> Ledger.emitted_by rate (past ++ [c]) e j.
Proof.
  intros (i & Hle & Hin & Hout & Hd). exists i.
  split_and!; [done | by apply time_of_call_later
               | by apply time_of_call_later | done].
Qed.

Lemma ascending_app (js : list nat) (n k : nat) :
  Ledger.ascending js -> Forall (fun j => j <= n) js ->
  Ledger.ascending (js ++ replicate k n).
Proof.
  intros Hjs Hbound a b x y Hab Ha Hb.
  apply lookup_app_Some in Ha as [Ha|[Hla Ha]];
    apply lookup_app_Some in Hb as [Hb|[Hlb Hb]].
  - by eapply Hjs.
  - apply lookup_replicate in Hb as [-> _].
    rewrite Forall_lookup in Hbound. by eapply Hbound.
  - apply lookup_lt_Some in Hb. lia.
  - apply lookup_replicate in Ha as [-> _].
    apply lookup_replicate in Hb as [-> _]. done.
Qed.

Lemma step_timed rate (past : list (Call T)) m c :
  Ledger.timed rate past m -> Ledger.timed rate (past ++ [c]) (step m c).
Proof.
  intros (Hfps & Hrec & js & Hev & Hasc).
  assert (Forall2 (Ledger.emitted_by rate (past ++ [c])) (events m) js) as Hev'.
  { eapply Forall2_impl; [exact Hev|]. intros e j. apply emitted_by_later. }
  destruct (py_truediv (call_time c) (fps m)) as [t|] eqn:Ht.
  2:{ rewrite step_unfold, Ht. split_and!; [done| |by exists js].
      intros tid r Hr. destruct (Hrec _ _ Hr) as [i Hi]. exists i.
      by apply time_of_call_later. }
  assert (Ledger.time_of_call rate (past ++ [c]) (length past) t) as Hnow.
  { exists c. split; [|by rewrite <- Hfps].
    by rewrite lookup_app_r, Nat.sub_diag. }
  split_and!.
  - by rewrite step_fps.
  - intros tid r Hr. apply step_records in Hr as [Hr|(_ & _ & Hr)].
    + destruct (Hrec _ _ Hr) as [i Hi]. exists i. by apply time_of_call_later.
    + exists (length past). rewrite Ht in Hr. by injection Hr as <-.
  - destruct (step_events m c t Ht) as (new & -> & Hnew).
    exists (js ++ replicate (length new) (length past)). split.
    + apply Forall2_app; [done|]. apply Forall2_replicate_r; [done|].
      eapply Forall_impl; [exact Hnew|].
      intros e (Hexit & Hd & [(vt & Hr)|(_ & _ & Hentry)]); unfold flip.
      * destruct (Hrec _ _ Hr) as [i Hi]. simpl in Hi. exists i.
        pose proof (time_of_call_bound _ _ _ _ Hi).
        split_and!; [lia | by apply time_of_call_later | by rewrite Hexit | done].
      * exists (length past).
        split_and!; [done | by rewrite Hentry | by rewrite Hexit | done].
    + apply ascending_app; [done|].
      apply Forall_forall. intros j Hj.
      apply list_elem_of_lookup in Hj as [k Hk].
      destruct (Forall2_lookup_r _ _ _ _ _ Hev Hk) as (e & _ & i & _ & _ & Hout & _).
      apply time_of_call_bound in Hout. lia.
Qed.

Lemma run_timed rate (past : list (Call T)) m calls :
  Ledger.timed rate past m -> Ledger.timed rate (past ++ calls) (run m calls).
Proof.
  revert past m. induction calls as [|c calls IH]; intros past m Hm.
  { by rewrite app_nil_r. }
  simpl. replace (past ++ c :: calls) with ((past ++ [c]) ++ calls)
    by (by rewrite <- app_assoc).
  by apply IH, step_timed.
Qed.

Lemma new_manager_timed (rot hor day : string) (rate : T) calls :
  Ledger.timed rate calls (run (init rot hor day rate) calls).
Proof.
  apply (run_timed rate [] (init rot hor day rate) calls). split_and!; [done| |].
  - intros tid r Hr. simpl in Hr. by rewrite lookup_empty in Hr.
  - exists []. split; [by constructor|]. intros a b x y _ Ha. done.
Qed.

End Tracker.

(** *** Times *)

Import Times.

Lemma float_sub_diag (t : spec_float) :
  finite t = true -> Float64.sub t t = S754_zero false.
Proof.
  destruct t as [s| | |s m e]; try done; intros _.
  - by destruct s.
  - unfold Float64.sub, SFsub. rewrite Z.min_id, Z.sub_diag. done.
Qed.

Lemma Q_truediv (a b : Q) :
  (0 < b)%Q -> py_truediv a b = Some (a / b)%Q.
Proof.
  intros Hb. simpl. destruct (Qeq_bool b 0) eqn:Hz; [|done].
  apply Qeq_bool_iff in Hz. rewrite Hz in Hb. by apply Qlt_irrefl in Hb.
Qed.

Lemma Q_div_mono (a b c : Q) :
  (0 < c)%Q -> (a <= b)%Q -> (a / c <= b / c)%Q.
Proof.
  intros Hc Hab. unfold Qdiv. apply Qmult_le_compat_r; [done|].
  apply Qlt_le_weak, Qinv_lt_0_compat, Hc.
Qed.

Lemma Q_sub_nonneg (a b : Q) : (a <= b)%Q -> (0 <= b - a)%Q.
Proof. intros Hab. by apply Qle_minus_iff in Hab. Qed.

Lemma step_in_order (m : DetectionsManager Q) (c : Call Q) (bound t : Q) :
  in_order bound m ->
  py_truediv (call_time c) (fps m) = Some t ->
  (bound <= t)%Q ->
  in_order t (step m c).
Proof.
  intros [Hrec Hev] Ht Hle. split.
  - intros tid r Hr. apply step_records in Hr as [Hr|(_ & _ & Hr)].
    + eapply Qle_trans; [by eapply Hrec | done].
    + rewrite Ht in Hr. injection Hr as ->. apply Qle_refl.
  - destruct (step_events m c t Ht) as (new & -> & Hnew).
    apply Forall_app. split; [done|].
    eapply Forall_impl; [exact Hnew|].
    intros e (Hs & Hd & Hentry). unfold entry_before_exit.
    assert (Tiempo_Entrada e <= Tiempo_Salida e)%Q as Horder.
    { rewrite Hs. destruct Hentry as [(vt & Hr)|(_ & _ & ->)].
      - eapply Qle_trans; [exact (Hrec _ _ Hr) | done].
      - apply Qle_refl. }
    split; [done|]. rewrite Hd. simpl. by apply Q_sub_nonneg.
Qed.

Lemma run_in_order (calls : list (Call Q)) (m : DetectionsManager Q) (ft : Q) :
  (0 < fps m)%Q ->
  in_order (ft / fps m) m ->
  nondecreasing (ft :: map call_time calls) ->
  Forall entry_before_exit (events (run m calls)).
Proof.
  revert m ft. induction calls as [|c calls IH]; intros m ft Hfps Hm Hsorted.
  { by destruct Hm. }
  simpl in Hsorted. destruct Hsorted as [Hle Hsorted]. simpl.
  pose proof (step_fps m c) as Hf.
  apply (IH (step m c) (call_time c)).
  - by rewrite Hf.
  - rewrite Hf. eapply step_in_order; [exact Hm | by apply Q_truediv |].
    by apply Q_div_mono.
  - exact Hsorted.
Qed.


(** C3.  (1) For every number type: the events a call appends have
    the call's [frame_time / fps] as exit time and exit minus entry
    as time inside, their entry time being that of a record open
    before the call or [frame_time / fps] of this call; every record
    a call opens has that time as well.  (2) In binary64, with
    [fps = 30.0]: a tracker id 7 seen only in entry zone 1 at frame
    time 30 and in exit zone 0 at frame time 90 has exactly one event,
    with entry zone 1, exit zone 0 and times 1.0, 3.0 and 2.0.
    (3) The same on exact rationals.  (4) Entry and exit of an id in
    the same call give one event with equal entry and exit times and
    [t - t] as time inside, which is 0 on rationals and 0.0 on every
    finite binary64 [t]. *)
Theorem crossing_times :
  (forall (T : Type) (N : PyNumber T) (m : DetectionsManager T) (c : Call T)
          (t : T),
     py_truediv (call_time c) (fps m) = Some t ->
     (exists new, events (step m c) = events m ++ new /\
                  Forall (emitted t (call_in c) m) new) /\
     (forall tid r, tracker_entry_info (step m c) !! tid = Some r ->
                    tracker_entry_info m !! tid = Some r \/ r.1.2 = t)) /\
  (forall (rot hor day : string) (calls : list (Call spec_float)),
     single_crossing 7 1 0 (Float64.of_Z 30) (Float64.of_Z 90)
                     (init rot hor day (Float64.of_Z 30)) calls ->
     exists vt,
       events_of 7 (run (init rot hor day (Float64.of_Z 30)) calls) =
       [{| Id := 7; Num_rotonda := rot; Horario := hor; Dia := day;
           Id_Entrada := 1; Id_salida := 0;
           Tiempo_Entrada := Float64.of_Z 1;
           Tiempo_Salida := Float64.of_Z 3;
           Tiempo_dentro := Float64.of_Z 2;
           Tipo_vehiculo := vt |}]) /\
  (forall (rot hor day : string) (calls : list (Call Q)),
     single_crossing 7 1 0 30%Q 90%Q (init rot hor day 30%Q) calls ->
     exists e,
       events_of 7 (run (init rot hor day 30%Q) calls) = [e] /\
       Id e = 7%Z /\ Id_Entrada e = 1 /\ Id_salida e = 0 /\
       (Tiempo_Entrada e == 1)%Q /\ (Tiempo_Salida e == 3)%Q /\
       (Tiempo_dentro e == 2)%Q) /\
  (forall (T : Type) (N : PyNumber T) (m : DetectionsManager T) (c : Call T)
          (tid : Z) (t : T) (z zo : nat) (d d' : Detections),
     tracker_entry_info m !! tid = None ->
     first_zone tid (call_in c) = Some (z, d) ->
     first_zone tid (call_out c) = Some (zo, d') ->
     py_truediv (call_time c) (fps m) = Some t ->
     raised (update_call m c) = None ->
     exists e,
       events_of tid (step m c) = events_of tid m ++ [e] /\
       Id_Entrada e = z /\ Id_salida e = zo /\
       Tiempo_Entrada e = t /\ Tiempo_Salida e = t /\
       Tiempo_dentro e = py_sub t t) /\
  (forall t : Q, (py_sub t t == 0)%Q) /\
  (forall t : spec_float, finite t = true -> py_sub t t = S754_zero false).
Proof.
  split_and!.
  - intros T N m c t Ht. split; [by apply step_events|].
    intros tid r Hr. apply step_records in Hr as [Hr|(_ & _ & Hr)]; [by left|].
    right. congruence.
  - intros rot hor day calls Hcross.
    destruct (single_crossing_events 7 1 0 (Float64.of_Z 30) (Float64.of_Z 90)
                (Float64.of_Z 1) (Float64.of_Z 3)
                (init rot hor day (Float64.of_Z 30)) calls) as [vt Hev];
      [unfold view, events_of; simpl; by rewrite lookup_empty | by vm_compute | by vm_compute | done |].
    exists vt. by rewrite Hev.
  - intros rot hor day calls Hcross.
    destruct (single_crossing_events 7 1 0 30%Q 90%Q (30 / 30)%Q (90 / 30)%Q
                (init rot hor day 30%Q) calls) as [vt Hev];
      [unfold view, events_of; simpl; by rewrite lookup_empty | done | done | done |].
    eexists. split; [exact Hev|]. simpl. by split_and!.
  - intros T N m c tid t z zo d d' Hclosed Hz Hzo Ht Hret.
    destruct (first_zone_index tid _ z d Hz) as [idx Hidx].
    destruct (step_same_frame m c tid t z d idx zo d') as (vt & _ & Hv); try done.
    unfold view in Hv. injection Hv as _ Hev. eexists. split; [exact Hev|].
    by split_and!.
  - intros t. simpl. unfold Qminus. apply Qplus_opp_r.
  - apply float_sub_diag.
Qed.

(** *** The theorems on the sample inputs *)

Import Roundabout.

Lemma one_event_per_open_record_witness :
  exists e,
    events_of 5 (step manager_30 overlap_of_5) = events_of 5 manager_30 ++ [e] /\
    tracker_entry_info (step manager_30 overlap_of_5) !! 5%Z = None /\
    view 5 (run (step manager_30 overlap_of_5) [orphan_of_9; orphan_of_9]) =
    (None, events_of 5 manager_30 ++ [e]).
Proof.
  apply (one_event_per_open_record manager_30 overlap_of_5
           [orphan_of_9; orphan_of_9] 5%Z).
  - vm_compute. lia.
  - intros c' Hc' Hin. simpl in Hin.
    apply elem_of_cons in Hc' as [->|Hc'].
    + by apply elem_of_nil in Hin.
    + apply elem_of_cons in Hc' as [->|Hc']; by apply elem_of_nil in Hin || apply elem_of_nil in Hc'.
Defined.

Lemma orphan_exit_is_noop_witness :
  let m' := manager (after (update manager_30 (call_all orphan_of_9)
                              [] (call_out orphan_of_9) 10%Q)) in
  events m' = events manager_30 /\ counts m' = counts manager_30 /\
  event_counter m' = event_counter manager_30 /\
  m' = manager (after (update manager_30 (call_all orphan_of_9) [] [] 10%Q)) /\
  (observed [] = [] -> m' = manager_30).
Proof.
  apply (orphan_exit_is_noop manager_30 (call_all orphan_of_9)
           [] (call_out orphan_of_9) 10%Q).
  intros tid Htid. split.
  - apply lookup_empty.
  - apply not_elem_of_nil.
Defined.

Lemma first_zone_wins_witness :
  exists m1 e,
    entry_phase (60 / 30)%Q (call_in overlap_of_5) manager_30 = Ok m1 /\
    tracker_entry_info m1 !! 5%Z = Some (0, (60 / 30)%Q, "car"%string) /\
    view 5 (step manager_30 overlap_of_5) = (None, [e]) /\
    Id e = 5%Z /\ Id_Entrada e = 0 /\ Id_salida e = 1 /\
    Tiempo_Entrada e = (60 / 30)%Q /\ Tiempo_Salida e = (60 / 30)%Q /\
    Tipo_vehiculo e = "car"%string.
Proof.
  destruct (entry_phase (60 / 30)%Q (call_in overlap_of_5) manager_30)
    as [m1|e m1] eqn:Hentry; [|by vm_compute in Hentry].
  assert (py_truediv 60%Q (fps manager_30) = Some (60 / 30)%Q) as Ht
    by reflexivity.
  destruct (first_zone_wins manager_30 (call_all overlap_of_5)
              (call_in overlap_of_5) (call_out overlap_of_5) 60%Q
              (60 / 30)%Q m1 5%Z Ht Hentry) as (_ & Hin & Hout & _).
  destruct (Hin 0 (cars [5%Z]) 0 (lookup_empty _) eq_refl eq_refl)
    as (vt & Hvt & Hm1).
  injection Hvt as <-.
  destruct (Hout 0 (60 / 30)%Q "car"%string 1 (cars [5%Z]) Hm1 eq_refl)
    as (e & Hview & _ & Hid & Hzi & Hzo & Hte & Hts & _ & Hvt & _).
  exists m1, e. by split_and!.
Defined.



Lemma crossing_of_7_single :
  single_crossing 7 1 0 (Float64.of_Z 30) (Float64.of_Z 90)
    (init "r1" "h2" "t" (Float64.of_Z 30)) (crossing_of_7 Float64.of_Z).
Proof.
  exists [], (frame (Float64.of_Z 30) [[]; [7%Z]] [[]; []]), [],
         (frame (Float64.of_Z 90) [[]; []] [[7%Z]; []]), [],
         (cars [7%Z]), (cars [7%Z]).
  split_and!; try done.
  - intros c Hc. by apply elem_of_nil in Hc.
  - by intros Hin%elem_of_nil.
  - by intros Hin%elem_of_nil.
Defined.

Lemma crossing_times_witness :
  exists vt,
    events_of 7 (run (init "r1" "h2" "t" (Float64.of_Z 30))
                     (crossing_of_7 Float64.of_Z)) =
    [{| Id := 7; Num_rotonda := "r1"; Horario := "h2"; Dia := "t";
        Id_Entrada := 1; Id_salida := 0;
        Tiempo_Entrada := Float64.of_Z 1;
        Tiempo_Salida := Float64.of_Z 3;
        Tiempo_dentro := Float64.of_Z 2;
        Tipo_vehiculo := vt |}].
Proof.
  destruct crossing_times as (_ & Hfloat & _).
  exact (Hfloat "r1"%string "h2"%string "t"%string (crossing_of_7 Float64.of_Z)
                crossing_of_7_single).
Defined.

End JavatFacts.

(** ** The stabilizer of [src/python/services/stabilizer.py] *)

Module StabilizerFacts.
Import Cv2 PythonServicesStabilizer.

Section Masks.
Context {A : Type}.

Lemma select_length (a : list A) (mask : list bool) :
  length mask = length a ->
  length (map fst (filter (fun p : A * bool => p.2) (zip a mask))) =
  length (filter (fun b : bool => b) mask).
Proof.
  revert mask. induction a as [|x a IH]; intros [|b mask] Hlen; try done.
  simpl in Hlen. injection Hlen as Hlen. simpl.
  destruct b.
  - rewrite !filter_cons_True by done. simpl. by rewrite IH.
  - rewrite !filter_cons_False by (simpl; tauto). by apply IH.
Qed.

Lemma mask_index_Some (a : list A) (mask : list bool) :
  length mask = length a ->
  exists r, mask_index a mask = Some r /\
            length r = length (filter (fun b : bool => b) mask).
Proof.
  intros Hlen. unfold mask_index.
  rewrite (proj2 (Nat.eqb_eq _ _) Hlen).
  eexists. split; [done|]. by apply select_length.
Qed.

End Masks.

(** The default name of the output file (line 13). *)
Example default_output_name :
  replace "videos/r1_h2.mp4" ".mp4" "_stable.mp4" = "videos/r1_h2_stable.mp4"%string.
Proof. reflexivity. Qed.

Section Engine.
Context {frame gray point homography : Type}.
Context `{cv : OpenCV frame gray point homography}.
Implicit Types st : LoopState frame gray point.

Lemma good_points_length (status : list Z) :
  length (good_points status) = length status.
Proof. unfold good_points. apply length_map. Qed.

(** What a turn does when the flow gives points and flags of the
    right lengths: the three arrays are filtered by the same mask,
    and the filtered new points and reference points are adopted. *)
Lemma iteration_filtered ancho alto f st puntos_nuevos status :
  same_length st ->
  calcOpticalFlowPyrLK (frame_anterior_gray st) (cvtColor f)
                       (puntos_iniciales st) =
    (Some puntos_nuevos, Some status) ->
  length status = length (puntos_iniciales st) ->
  length status = length puntos_nuevos ->
  exists tracked reference,
    mask_index puntos_nuevos (good_points status) = Some tracked /\
    mask_index (puntos_ref st) (good_points status) = Some reference /\
    length tracked = survivors status /\
    length reference = survivors status /\
    iteration ancho alto f st =
    Ok {| writer :=
            if (survivors status <? 4)%nat
            then write (writer st) f
            else
              match findHomography tracked reference with
              | Some H => write (writer st)
                                (warpPerspective f H (ancho, alto))
              | None => write (writer st) f
              end;
          frame_anterior_gray := cvtColor f;
          puntos_iniciales := tracked;
          puntos_ref := reference |}.
Proof.
  intros Hinv Hflow Hlen1 Hlen2. unfold same_length in Hinv.
  destruct (mask_index_Some (puntos_iniciales st) (good_points status))
    as (kept & Hkept & Hkept_len); [by rewrite good_points_length|].
  destruct (mask_index_Some puntos_nuevos (good_points status))
    as (tracked & Htracked & Htracked_len); [by rewrite good_points_length|].
  destruct (mask_index_Some (puntos_ref st) (good_points status))
    as (reference & Href & Href_len);
    [rewrite good_points_length; congruence|].
  exists tracked, reference. split_and!; try done.
  unfold iteration. rewrite Hflow.
  rewrite (proj2 (Nat.eqb_eq _ _) Hlen1), (proj2 (Nat.eqb_eq _ _) Hlen2).
  simpl. fold (good_points status). rewrite Hkept, Htracked, Href.
  by rewrite Hkept_len.
Qed.

(** The other turns write the frame as it is and keep the points. *)
Lemma iteration_pass_through ancho alto f st :
  match calcOpticalFlowPyrLK (frame_anterior_gray st) (cvtColor f)
                             (puntos_iniciales st) with
  | (Some puntos_nuevos, Some status) =>
      length status <> length (puntos_iniciales st) \/
      length status <> length puntos_nuevos
  | _ => True
  end ->
  iteration ancho alto f st = Ok (pass_through st f (cvtColor f)).
Proof.
  unfold iteration.
  destruct (calcOpticalFlowPyrLK _ _ _) as [[pn|] [status|]]; try done.
  intros [Hne|Hne].
  - by rewrite (proj2 (Nat.eqb_neq _ _) Hne).
  - rewrite (proj2 (Nat.eqb_neq _ _) Hne). by rewrite orb_true_r.
Qed.

(** Every turn, on every branch: no exception, one frame written,
    and the two point arrays still of the same length. *)
Lemma iteration_turn ancho alto f st :
  same_length st ->
  exists st' o,
    iteration ancho alto f st = Ok st' /\
    same_length st' /\
    written (writer st') = written (writer st) ++ [o] /\
    output_of ancho alto f o.
Proof.
  intros Hinv.
  destruct (calcOpticalFlowPyrLK (frame_anterior_gray st) (cvtColor f)
              (puntos_iniciales st)) as [[pn|] [status|]] eqn:Hflow.
  2-4: (exists (pass_through st f (cvtColor f)), f; split_and!;
        [apply iteration_pass_through; by rewrite Hflow | done | done | by left]).
  destruct (decide (length status = length (puntos_iniciales st))) as [H1|H1].
  2:{ exists (pass_through st f (cvtColor f)), f. split_and!; try done; [|by left].
      apply iteration_pass_through. rewrite Hflow. by left. }
  destruct (decide (length status = length pn)) as [H2|H2].
  2:{ exists (pass_through st f (cvtColor f)), f. split_and!; try done; [|by left].
      apply iteration_pass_through. rewrite Hflow. by right. }
  destruct (iteration_filtered ancho alto f st pn status Hinv Hflow H1 H2)
    as (tracked & reference & _ & _ & Ht & Hr & ->).
  assert (length tracked = length reference) as Hsame by congruence.
  destruct (survivors status <? 4)%nat.
  - eexists _, f. split_and!; [done | done | done | by left].
  - destruct (findHomography tracked reference) as [H|].
    + eexists _, (warpPerspective f H (ancho, alto)).
      split_and!; [done | done | done |]. right. by exists H.
    + eexists _, f. split_and!; [done | done | done | by left].
Qed.

Lemma reachable_same_length ancho alto st :
  reachable ancho alto st -> same_length st.
Proof.
  induction 1 as [out0 g pts|st f st' _ IH Hturn]; [done|].
  destruct (iteration_turn ancho alto f st IH) as (st1 & o & Hst1 & Hinv & _).
  congruence.
Qed.

(** The whole loop: it reads every frame, never raises, and writes
    one frame for each frame it reads. *)
Lemma main_loop_run ancho alto frames st :
  same_length st ->
  exists st' outs,
    main_loop ancho alto frames st = Ok ([], st') /\
    same_length st' /\
    written (writer st') = written (writer st) ++ outs /\
    Forall2 (output_of ancho alto) frames outs.
Proof.
  revert st. induction frames as [|f frames IH]; intros st Hinv.
  { exists st, []. simpl. by rewrite app_nil_r. }
  destruct (iteration_turn ancho alto f st Hinv) as (st1 & o & Hturn & Hinv1 & Hw1 & Ho).
  destruct (IH st1 Hinv1) as (st' & outs & Hloop & Hinv' & Hw' & Houts).
  exists st', (o :: outs). simpl. rewrite Hturn, Hloop. split_and!; try done.
  - by rewrite Hw', Hw1, <- app_assoc.
  - by constructor.
Qed.

Lemma outputs_sized ancho alto (frames outs : list frame) :
  (forall f H w h, shape (warpPerspective f H (w, h)) = (h, w)) ->
  Forall (fun f => shape f = (alto, ancho)) frames ->
  Forall2 (output_of ancho alto) frames outs ->
  Forall (fun o => shape o = (alto, ancho)) outs.
Proof.
  intros Hwarp Hsizes Houts.
  induction Houts as [|f o fs os Ho _ IH]; [done|].
  apply Forall_cons in Hsizes as [Hf Hfs]. constructor; [|by apply IH].
  destruct Ho as [->|[H ->]]; [done | apply Hwarp].
Qed.

(** C8.  [len(tracked) == len(reference)]: it holds in the state
    the loop starts from; every turn, on whichever branch, ends
    without an exception in a state where it holds again; hence it
    holds in every state the loop reaches, and the loop runs to the
    end of the video. *)
Theorem tracked_and_reference_same_length ancho alto :
  (forall (out0 : Writer frame) (primer_gray : gray) (puntos : list point),
     same_length (initial_state out0 primer_gray puntos)) /\
  (forall st f, same_length st ->
     exists st', iteration ancho alto f st = Ok st' /\ same_length st') /\
  (forall st, reachable ancho alto st -> same_length st) /\
  (forall st frames, same_length st ->
     exists st', main_loop ancho alto frames st = Ok ([], st') /\
                 same_length st').
Proof.
  split_and!.
  - done.
  - intros st f Hinv.
    destruct (iteration_turn ancho alto f st Hinv) as (st' & o & ? & ? & _).
    eauto.
  - apply reachable_same_length.
  - intros st frames Hinv.
    destruct (main_loop_run ancho alto frames st Hinv) as (st' & outs & ? & ? & _).
    eauto.
Qed.


(** C6, amended.  When fewer than 4 points are found in the first
    frame, or none at all, the call prints the abort message and
    returns as it does on success: no exception is raised.  No
    frame after the first is read and none is written; the video
    writer has been created by then and stays open and empty. *)
Theorem too_few_features_aborts
    (cap : Capture frame) ruta_entrada ruta_salida max_features
    quality_level min_distance primer rest :
  isOpened cap = true ->
  pending cap = primer :: rest ->
  match goodFeaturesToTrack (cvtColor primer) max_features quality_level
                            min_distance with
  | None => True
  | Some puntos => length puntos < 4
  end ->
  exists w o,
    video_stabilizer cap ruta_entrada ruta_salida max_features
                     quality_level min_distance = Ok w /\
    stdout w = [msg_pocos_puntos] /\
    pending (capture w) = rest /\
    cap_released (capture w) = cap_released cap /\
    out w = Some o /\ written o = [] /\ writer_released o = false.
Proof.
  intros Hopen Hpending Hfew.
  unfold video_stabilizer, read. rewrite Hopen, Hpending. simpl.
  destruct (shape primer) as [alto ancho].
  destruct (goodFeaturesToTrack _ _ _ _) as [puntos|].
  - rewrite (proj2 (Nat.ltb_lt _ _) Hfew). by eexists _, _.
  - by eexists _, _.
Qed.

End Engine.

Section Estimator.
Context {frame gray point homography : Type}.

(** C7.  In a state the loop has reached, when the flow gives
    points and flags of the right lengths and fewer than 4 flags
    equal 1: the turn ends without an exception, and the frames of
    the output are those written before followed by the input frame
    as it is, on the same file; this is so whatever the homography
    estimator and the warp are (they are not consulted); and the
    next state holds the new points and the reference points
    selected by the flags. *)
Theorem few_survivors_pass_through (cv : OpenCV frame gray point homography)
    ancho alto f (st : LoopState frame gray point) puntos_nuevos status :
  reachable ancho alto st ->
  calcOpticalFlowPyrLK (frame_anterior_gray st) (cvtColor f)
                       (puntos_iniciales st) =
    (Some puntos_nuevos, Some status) ->
  length status = length (puntos_iniciales st) ->
  length status = length puntos_nuevos ->
  survivors status < 4 ->
  exists tracked reference st',
    mask_index puntos_nuevos (good_points status) = Some tracked /\
    mask_index (puntos_ref st) (good_points status) = Some reference /\
    length tracked = survivors status /\
    length reference = survivors status /\
    iteration ancho alto f st = Ok st' /\
    st' = {| writer := write (writer st) f;
             frame_anterior_gray := cvtColor f;
             puntos_iniciales := tracked;
             puntos_ref := reference |} /\
    written (writer st') = written (writer st) ++ [f] /\
    filename (writer st') = filename (writer st) /\
    frameSize (writer st') = frameSize (writer st) /\
    writer_released (writer st') = writer_released (writer st) /\
    frame_anterior_gray st' = cvtColor f /\
    puntos_iniciales st' = tracked /\
    puntos_ref st' = reference /\
    forall estimate warp,
      iteration (cv := with_estimator cv estimate warp) ancho alto f st =
      Ok st'.
Proof.
  intros Hreach Hflow Hlen1 Hlen2 Hfew.
  apply reachable_same_length in Hreach.
  destruct (iteration_filtered ancho alto f st puntos_nuevos status
              Hreach Hflow Hlen1 Hlen2)
    as (tracked & reference & Ht & Hr & Htl & Hrl & Hturn).
  rewrite (proj2 (Nat.ltb_lt _ _) Hfew) in Hturn.
  exists tracked, reference. eexists. split_and!; try done.
  intros estimate warp.
  destruct (iteration_filtered (cv := with_estimator cv estimate warp)
              ancho alto f st puntos_nuevos status Hreach Hflow Hlen1 Hlen2)
    as (tracked' & reference' & Ht' & Hr' & _ & _ & Hturn').
  rewrite (proj2 (Nat.ltb_lt _ _) Hfew) in Hturn'.
  assert (tracked' = tracked) as -> by congruence.
  assert (reference' = reference) as -> by congruence.
  exact Hturn'.
Qed.

End Estimator.

(** *** The theorems on the sample clips *)

Import Clips.



(** C6, as stated, fails: with three corners the call returns as
    the successful one does, without an exception, and a writer
    exists. *)
Lemma too_few_features_not_reported :
  let failed := video_stabilizer three_corners "in.mp4" None 200 (1 # 100) 15 in
  let succeeded := video_stabilizer three_frames "in.mp4" None 200 (1 # 100) 15 in
  ~ reported_to_caller failed /\
  raised failed = raised succeeded /\
  is_Some (out (after failed)).
Proof.
  cbv zeta. split_and!.
  - unfold reported_to_caller. intros [e He]. by vm_compute in He.
  - by vm_compute.
  - vm_compute. by eexists.
Qed.

Lemma too_few_features_aborts_witness :
  exists w o,
    video_stabilizer three_corners "in.mp4" None 200 (1 # 100) 15 = Ok w /\
    stdout w = [msg_pocos_puntos] /\
    pending (capture w) = [picture 0 (Some [1; 1; 1]%Z)] /\
    cap_released (capture w) = cap_released three_corners /\
    out w = Some o /\ written o = [] /\ writer_released o = false.
Proof.
  apply (too_few_features_aborts three_corners "in.mp4" None 200 (1 # 100) 15
           (picture 3 None) [picture 0 (Some [1; 1; 1]%Z)]).
  - reflexivity.
  - reflexivity.
  - simpl. lia.
Defined.

Lemma few_survivors_pass_through_witness :
  exists st',
    iteration 640 480 (picture 0 (Some [1; 0; 0; 1; 1]%Z)) five_points =
      Ok st' /\
    written (writer st') = [picture 0 (Some [1; 0; 0; 1; 1]%Z)] /\
    puntos_iniciales st' = [0; 3; 4] /\
    puntos_ref st' = [0; 3; 4].
Proof.
  destruct (few_survivors_pass_through picture_cv 640 480
              (picture 0 (Some [1; 0; 0; 1; 1]%Z)) five_points
              (seq 0 5) [1; 0; 0; 1; 1]%Z)
    as (tracked & reference & st' & Ht & Hr & _ & _ & Hturn & _ & Hw & _ & _ &
        _ & _ & Hti & Htr & _).
  - apply reach_start.
  - reflexivity.
  - reflexivity.
  - reflexivity.
  - vm_compute. lia.
  - injection Ht as <-. injection Hr as <-. exists st'.
    split_and!; [exact Hturn | exact Hw | exact Hti | exact Htr].
Defined.

Lemma tracked_and_reference_same_length_witness :
  exists st',
    main_loop 640 480 (tail (pending three_frames)) five_points = Ok ([], st') /\
    same_length st'.
Proof.
  destruct (tracked_and_reference_same_length (cv := picture_cv) 640 480)
    as (Hstart & _ & _ & Hloop).
  apply Hloop, Hstart.
Defined.

End StabilizerFacts.

(** ** The two copies of the stabilizer *)

Module TwoStabilizers.
Import Cv2.

Section Copies.
Context {frame gray point homography : Type}.
Context `{cv : OpenCV frame gray point homography}.

Lemma iteration_same ancho alto (f : frame) (st : LoopState frame gray point) :
  ServicesStabilizer.iteration ancho alto f st =
  PythonServicesStabilizer.iteration ancho alto f st.
Proof. reflexivity. Qed.

Lemma main_loop_same ancho alto (frames : list frame)
    (st : LoopState frame gray point) :
  ServicesStabilizer.main_loop ancho alto frames st =
  PythonServicesStabilizer.main_loop ancho alto frames st.
Proof.
  revert st. induction frames as [|f frames IH]; intros st; simpl; [done|].
  rewrite iteration_same.
  destruct (PythonServicesStabilizer.iteration ancho alto f st); [apply IH|done].
Qed.

(** C10.  On a video whose container reports the width and the
    height of its first decoded frame, and with the same OpenCV
    results, the two copies of [video_stabilizer] write the same
    frames; they also end the same way, print the same lines and
    leave the capture in the same state. *)
Theorem stabilizers_agree (cap : Capture frame) ruta_entrada ruta_salida
    max_features quality_level min_distance :
  (forall primer rest, pending cap = primer :: rest ->
     shape primer = (int (CAP_PROP_FRAME_HEIGHT cap),
                     int (CAP_PROP_FRAME_WIDTH cap))) ->
  let older := ServicesStabilizer.video_stabilizer cap ruta_entrada
                 ruta_salida max_features quality_level min_distance in
  let newer := PythonServicesStabilizer.video_stabilizer cap ruta_entrada
                 ruta_salida max_features quality_level min_distance in
  frames_written (after older) = frames_written (after newer) /\
  raised older = raised newer /\
  stdout (after older) = stdout (after newer) /\
  capture (after older) = capture (after newer).
Proof.
  intros Hsize. cbv zeta.
  unfold ServicesStabilizer.video_stabilizer,
         PythonServicesStabilizer.video_stabilizer, read.
  destruct (isOpened cap); simpl; [|done].
  destruct (pending cap) as [|primer rest] eqn:Hpending; [done|].
  rewrite (Hsize primer rest eq_refl).
  destruct (goodFeaturesToTrack _ _ _ _) as [puntos|]; [|done].
  destruct (length puntos <? 4)%nat; [done|].
  rewrite main_loop_same. unfold PythonServicesStabilizer.initial_state.
  by destruct (PythonServicesStabilizer.main_loop _ _ _ _) as [[unread st]|e [unread st]].
Qed.

End Copies.

Import Clips.

Lemma stabilizers_agree_witness :
  let older := ServicesStabilizer.video_stabilizer three_frames "in.mp4"
                 None 200 (1 # 100) 15 in
  let newer := PythonServicesStabilizer.video_stabilizer three_frames "in.mp4"
                 None 200 (1 # 100) 15 in
  frames_written (after older) = frames_written (after newer) /\
  raised older = raised newer /\
  stdout (after older) = stdout (after newer) /\
  capture (after older) = capture (after newer).
Proof.
  apply (stabilizers_agree three_frames "in.mp4" None 200 (1 # 100) 15).
  intros primer rest Hpending. injection Hpending as <- _. reflexivity.
Defined.

End TwoStabilizers.

(** ** The tracker's bookkeeping *)

Module LedgerFacts.
Import Javat JavatFacts Ledger.

Section Bookkeeping.
Context {T : Type} `{PyNumber T}.
Implicit Types m : DetectionsManager T.
Implicit Types tid : Z.

(** *** The counter and the log *)

Lemma exit_step_counter t zo tid m :
  event_counter m = length (events m) ->
  event_counter (exit_step t zo tid m) = length (events (exit_step t zo tid m)).
Proof.
  intros Hm. unfold exit_step.
  destruct (tracker_entry_info m !! tid) as [[[zi te] vt]|]; [|done].
  simpl. rewrite length_app. simpl. lia.
Qed.

Lemma exit_phase_counter t outs m :
  event_counter m = length (events m) ->
  event_counter (exit_phase t outs m) = length (events (exit_phase t outs m)).
Proof.
  unfold exit_phase.
  apply (for_each_inv (fun s => event_counter s = length (events s))).
  intros zone s _. unfold exit_zone.
  apply (for_each_inv (fun s => event_counter s = length (events s))).
  intros tid s0 _. apply exit_step_counter.
Qed.

Lemma step_counter m c :
  event_counter m = length (events m) ->
  event_counter (step m c) = length (events (step m c)).
Proof.
  intros Hm. rewrite step_unfold.
  destruct (py_truediv (call_time c) (fps m)) as [t|]; [|done].
  pose proof (entry_phase_same_log t (call_in c) m) as (Hev & _ & Hn & _).
  destruct (entry_phase t (call_in c) m) as [m1|e m1]; simpl in *.
  - apply exit_phase_counter. congruence.
  - congruence.
Qed.

Lemma run_counter m calls :
  event_counter m = length (events m) ->
  event_counter (run m calls) = length (events (run m calls)).
Proof.
  revert m. induction calls as [|c calls IH]; intros m Hm; [done|].
  simpl. apply IH. by apply step_counter.
Qed.

(** X1.  [self.event_counter] is the length of [self.events] after any
    sequence of calls on a new manager, including calls that raise. *)
Theorem event_counter_is_length (rot hor day : string) (rate : T)
    (calls : list (Call T)) :
  event_counter (run (init rot hor day rate) calls) =
  length (events (run (init rot hor day rate) calls)).
Proof. by apply run_counter. Qed.

(** X2.  The event list only grows: after any sequence of calls, from
    any state, the events that were there are still there, unchanged
    and in front, and the new ones follow. *)
Theorem events_append_only m (calls : list (Call T)) :
  exists new, events (run m calls) = events m ++ new.
Proof.
  revert m. induction calls as [|c calls IH]; intros m.
  { exists []. simpl. by rewrite app_nil_r. }
  simpl. destruct (IH (step m c)) as (new2 & ->).
  assert (exists new1, events (step m c) = events m ++ new1) as (new1 & ->).
  { rewrite step_unfold.
    destruct (py_truediv (call_time c) (fps m)) as [t|];
      [|exists []; by rewrite app_nil_r].
    pose proof (entry_phase_same_log t (call_in c) m) as (Hev & _).
    destruct (entry_phase t (call_in c) m) as [m1|e m1]; simpl in *.
    - destruct (exit_phase_events t (call_out c) m1) as (new & -> & _).
      rewrite Hev. eauto.
    - exists []. by rewrite app_nil_r. }
  exists (new1 ++ new2). by rewrite app_assoc.
Qed.

(** *** The counts *)

Lemma count_crossing_unfold zo zi tid (c : gmap nat (gmap nat (gset Z))) :
  count_crossing zo zi tid c =
  <[zo := <[zi := default ∅ (default ∅ (c !! zo) !! zi) ∪ {[tid]}]>
            (default ∅ (c !! zo))]> c.
Proof.
  unfold count_crossing, setdefault.
  destruct (c !! zo) as [row|] eqn:Hrow; simpl.
  - rewrite Hrow. simpl. destruct (row !! zi) as [cell|] eqn:Hcell; simpl.
    + by rewrite Hcell.
    + by rewrite lookup_insert_eq, insert_insert_eq.
  - rewrite lookup_insert_eq. simpl. rewrite lookup_empty.
    rewrite lookup_insert_eq. simpl. by rewrite !insert_insert_eq.
Qed.

Lemma counted_in_count_crossing zo zi tid c zo' zi' tid' :
  counted_in (count_crossing zo zi tid c) zo' zi' tid' <->
  counted_in c zo' zi' tid' \/ (zo' = zo /\ zi' = zi /\ tid' = tid).
Proof.
  rewrite count_crossing_unfold. unfold counted_in.
  destruct (decide (zo' = zo)) as [->|Hzo].
  2:{ rewrite lookup_insert_ne by done. split; [by left|].
      intros [?|(? & _)]; done. }
  rewrite lookup_insert_eq.
  destruct (decide (zi' = zi)) as [->|Hzi].
  - split.
    + intros (row & cell & [= <-] & Hcell & Hin).
      rewrite lookup_insert_eq in Hcell. injection Hcell as <-.
      apply elem_of_union in Hin as [Hin|Hin%elem_of_singleton]; [|by right].
      left. destruct (c !! zo) as [row|]; simpl in *;
        [|by rewrite lookup_empty in Hin; apply not_elem_of_empty in Hin].
      destruct (row !! zi) as [cell|] eqn:Hc; simpl in *;
        [eauto | by apply not_elem_of_empty in Hin].
    + intros [(row & cell & Hrow & Hcell & Hin)|(_ & _ & ->)].
      * eexists _, _. split; [done|]. rewrite lookup_insert_eq. split; [done|].
        rewrite Hrow. simpl. rewrite Hcell. simpl. set_solver.
      * eexists _, _. split; [done|]. rewrite lookup_insert_eq. split; [done|].
        set_solver.
  - split.
    + intros (row & cell & [= <-] & Hcell & Hin).
      rewrite lookup_insert_ne in Hcell by done. left.
      destruct (c !! zo) as [row|]; simpl in *; [eauto|].
      by rewrite lookup_empty in Hcell.
    + intros [(row & cell & Hrow & Hcell & Hin)|(_ & ? & _)]; [|done].
      eexists _, cell. split; [done|]. rewrite lookup_insert_ne by done.
      rewrite Hrow. by simpl.
Qed.

Lemma crossed_app (evs : list (Event T)) e zo zi tid :
  crossed (evs ++ [e]) zo zi tid <->
  crossed evs zo zi tid \/ (Id e = tid /\ Id_Entrada e = zi /\ Id_salida e = zo).
Proof.
  unfold crossed. split.
  - intros (e' & [Hin|Hin%list_elem_of_singleton]%elem_of_app & Hrest).
    + left. eauto.
    + subst e'. by right.
  - intros [(e' & Hin & Hrest)|Hrest].
    + exists e'. split; [|done]. apply elem_of_app. by left.
    + exists e. split; [|done]. apply elem_of_app. right.
      by apply list_elem_of_singleton.
Qed.

Lemma exit_step_counts_match t zo tid m :
  counts_match m -> counts_match (exit_step t zo tid m).
Proof.
  intros Hm. unfold exit_step.
  destruct (tracker_entry_info m !! tid) as [[[zi te] vt]|]; [|done].
  intros zo' zi' tid'. simpl.
  etrans; [apply counted_in_count_crossing|].
  etrans; [|symmetry; apply crossed_app]. simpl.
  pose proof (Hm zo' zi' tid') as Hold.
  split; (intros [?|(? & ? & ?)]; [left; by apply Hold | right; by split_and!]).
Qed.

Lemma step_counts_match m c : counts_match m -> counts_match (step m c).
Proof.
  intros Hm. rewrite step_unfold.
  destruct (py_truediv (call_time c) (fps m)) as [t|]; [|done].
  pose proof (entry_phase_same_log t (call_in c) m) as (Hev & Hc & _).
  assert (counts_match (after (entry_phase t (call_in c) m))) as Hm1.
  { intros zo zi tid. rewrite Hev, Hc. apply Hm. }
  destruct (entry_phase t (call_in c) m) as [m1|e m1]; simpl in *; [|done].
  unfold exit_phase. apply (for_each_inv counts_match); [|done].
  intros zone s _. unfold exit_zone. apply (for_each_inv counts_match).
  intros tid s0 _. apply exit_step_counts_match.
Qed.

Lemma run_counts_match m calls : counts_match m -> counts_match (run m calls).
Proof.
  revert m. induction calls as [|c calls IH]; intros m Hm; [done|].
  simpl. apply IH. by apply step_counts_match.
Qed.

(** X3.  After any sequence of calls on a new manager, a tracker id is
    in [counts[zone_out_id][zone_in_id]] exactly when the event list
    holds an event of that id with that entry zone and that exit
    zone. *)
Theorem counts_agree_with_events (rot hor day : string) (rate : T)
    (calls : list (Call T)) (zone_out_id zone_in_id : nat) (tid : Z) :
  counted_in (counts (run (init rot hor day rate) calls))
             zone_out_id zone_in_id tid <->
  crossed (events (run (init rot hor day rate) calls))
          zone_out_id zone_in_id tid.
Proof.
  apply run_counts_match. intros zo zi t. unfold counted_in, crossed. simpl.
  split.
  - intros (row & cell & Hrow & _). by rewrite lookup_empty in Hrow.
  - intros (e & He%elem_of_nil & _). done.
Qed.

(** *** The entry zone kept for the annotations *)

Lemma setdefault_keeps {K V : Type} `{Countable K} (k k' : K) (v v' : V)
    (d : gmap K V) :
  d !! k' = Some v' -> setdefault k v d !! k' = Some v'.
Proof.
  intros Hk'. unfold setdefault. destruct (d !! k) eqn:Hk; [done|].
  rewrite lookup_insert_ne; [done|]. intros ->. congruence.
Qed.

Lemma entry_step_zone_kept t z d obs m tid z0 :
  tracker_id_to_zone_id m !! tid = Some z0 ->
  tracker_id_to_zone_id (after (entry_step t z d obs m)) !! tid = Some z0.
Proof.
  intros Hz. destruct obs as [idx tid']. unfold entry_step.
  destruct (tracker_entry_info m !! tid'); [done|].
  destruct (vehicle_type_at d idx); [|done]. simpl. by apply setdefault_keeps.
Qed.

Lemma entry_phase_zone_kept t ins m tid z0 :
  tracker_id_to_zone_id m !! tid = Some z0 ->
  tracker_id_to_zone_id (after (entry_phase t ins m)) !! tid = Some z0.
Proof.
  unfold entry_phase.
  apply (try_each_inv (fun s => tracker_id_to_zone_id s !! tid = Some z0)).
  intros zone s _. unfold entry_zone.
  apply (try_each_inv (fun s => tracker_id_to_zone_id s !! tid = Some z0)).
  intros obs s0 _. apply entry_step_zone_kept.
Qed.

Lemma step_zone_kept m c tid z0 :
  tracker_id_to_zone_id m !! tid = Some z0 ->
  tracker_id_to_zone_id (step m c) !! tid = Some z0.
Proof.
  intros Hz. rewrite step_unfold.
  destruct (py_truediv (call_time c) (fps m)) as [t|]; [|done].
  pose proof (entry_phase_zone_kept t (call_in c) m tid z0 Hz) as Hz1.
  destruct (entry_phase t (call_in c) m) as [m1|e m1]; simpl in *; [|done].
  destruct (exit_phase_same_context t (call_out c) m1) as (_ & _ & _ & _ & ->).
  done.
Qed.

(** X4.  The entry zone kept for the annotations is the first one ever
    recorded for the tracker id: once [tracker_id_to_zone_id] has an
    entry for an id, no later call changes it, not even a new entry
    through another zone after an exit. *)
Theorem annotation_zone_never_changes m (calls : list (Call T)) tid z0 :
  tracker_id_to_zone_id m !! tid = Some z0 ->
  tracker_id_to_zone_id (run m calls) !! tid = Some z0.
Proof.
  revert m. induction calls as [|c calls IH]; intros m Hz; [done|].
  simpl. by apply IH, step_zone_kept.
Qed.

(** *** Records that wait *)

Lemma step_keeps_waiting m c tid r :
  tracker_entry_info m !! tid = Some r ->
  tid ∉ observed (call_out c) ->
  view tid (step m c) = (Some r, events_of tid m).
Proof.
  intros Hopen Hout. rewrite step_unfold.
  destruct (py_truediv (call_time c) (fps m)) as [t|];
    [|unfold view; by rewrite Hopen].
  pose proof (entry_phase_same_log t (call_in c) m) as (Hev & _).
  pose proof (entry_phase_keeps t (call_in c) m tid r Hopen) as Hkeep.
  destruct (entry_phase t (call_in c) m) as [m1|e m1]; simpl in *.
  - rewrite exit_phase_not_observed by done.
    unfold view, events_of. by rewrite Hkeep, Hev.
  - unfold view, events_of. by rewrite Hkeep, Hev.
Qed.

(** X5.  An open record never expires: as long as its tracker id is
    not seen in an exit zone, the record stays as it was opened
    (whatever else the calls observe, and whether or not they raise)
    and no event of that id is added. *)
Theorem open_record_waits_for_exit m (calls : list (Call T)) tid r :
  tracker_entry_info m !! tid = Some r ->
  (forall c, c ∈ calls -> tid ∉ observed (call_out c)) ->
  tracker_entry_info (run m calls) !! tid = Some r /\
  events_of tid (run m calls) = events_of tid m.
Proof.
  revert m. induction calls as [|c calls IH]; intros m Hopen Hquiet; [done|].
  simpl.
  pose proof (step_keeps_waiting m c tid r Hopen
                (Hquiet c (list_elem_of_here _ _))) as Hstep.
  unfold view in Hstep. injection Hstep as Hinfo Hev.
  destruct (IH (step m c) Hinfo) as [Hinfo' Hev'].
  { intros c' Hc'. by apply Hquiet, list_elem_of_further. }
  split; congruence.
Qed.

(** *** What [update] returns *)

Lemma kept_rows_ids (f : Z -> Z) (ids : list Z) :
  map fst (filter (fun row : Z * Z => negb (row.2 =? -1)%Z)
                  (zip ids (map f ids))) =
  filter (fun tid => f tid <> (-1)%Z) ids.
Proof.
  induction ids as [|x ids IH]; [done|]. simpl.
  destruct (decide (f x = (-1)%Z)) as [Heq|Hne].
  - rewrite filter_cons_False by (simpl; rewrite Heq; simpl; tauto).
    by rewrite filter_cons_False by tauto.
  - rewrite filter_cons_True.
    + rewrite filter_cons_True by done. simpl. by rewrite IH.
    + simpl. apply negb_prop_intro. intros Hb. apply Is_true_eq_true in Hb.
      by apply Z.eqb_eq in Hb.
Qed.

Lemma kept_rows_classes (f : Z -> Z) (ids : list Z) :
  map snd (filter (fun row : Z * Z => negb (row.2 =? -1)%Z)
                  (zip ids (map f ids))) =
  map f (filter (fun tid => f tid <> (-1)%Z) ids).
Proof.
  induction ids as [|x ids IH]; [done|]. simpl.
  destruct (decide (f x = (-1)%Z)) as [Heq|Hne].
  - rewrite filter_cons_False by (simpl; rewrite Heq; simpl; tauto).
    by rewrite filter_cons_False by tauto.
  - rewrite filter_cons_True.
    + rewrite filter_cons_True by done. simpl. by rewrite IH.
    + simpl. apply negb_prop_intro. intros Hb. apply Is_true_eq_true in Hb.
      by apply Z.eqb_eq in Hb.
Qed.

Lemma zone_class_known m tid :
  zone_class m tid <> (-1)%Z <-> known m tid.
Proof.
  unfold zone_class, known.
  destruct (tracker_id_to_zone_id m !! tid) as [z|]; split.
  - by eauto.
  - intros _. lia.
  - done.
  - by intros [? ?].
Qed.

(** X6.  When [update] returns, the detections it returns are the rows
    of [detections_all], in their order, whose tracker id has an entry
    zone on record; their [class_id] is that zone, so never [-1]; they
    carry no [vehicle_type] attribute.  The [class_id] of the object
    passed in has been overwritten for every row, with [-1] for the
    ids without entry zone. *)
Theorem returned_rows_are_the_known_ones m all ins outs ft u :
  update m all ins outs ft = Ok u ->
  exists kept,
    returned u = Some kept /\
    tracker_id kept = filter (fun tid => zone_class (manager u) tid <> (-1)%Z)
                             (tracker_id all) /\
    (forall tid, tid ∈ tracker_id kept <->
                 tid ∈ tracker_id all /\ known (manager u) tid) /\
    class_id kept = map (zone_class (manager u)) (tracker_id kept) /\
    Forall (fun c => (0 <= c)%Z) (class_id kept) /\
    vehicle_type kept = None /\
    tracker_id (detections_all_after u) = tracker_id all /\
    class_id (detections_all_after u) =
      map (zone_class (manager u)) (tracker_id all).
Proof.
  unfold update. destruct (py_truediv ft (fps m)) as [t|]; [|done].
  destruct (entry_phase t ins m) as [m1|e m1]; [|done].
  intros [= <-]. simpl.
  set (m2 := exit_phase t outs m1).
  assert (class_id (annotate m2 all) = map (zone_class m2) (tracker_id all))
    as Hclasses.
  { unfold annotate. simpl. by destruct (tracker_id all). }
  eexists. split; [done|]. unfold kept_rows. rewrite Hclasses. simpl.
  rewrite kept_rows_ids, kept_rows_classes. split_and!; try done.
  - intros tid. rewrite list_elem_of_filter, zone_class_known. tauto.
  - apply Forall_forall. intros c (tid & -> & Hin)%list_elem_of_fmap.
    apply list_elem_of_filter in Hin as [Hne _]. unfold zone_class in *.
    destruct (tracker_id_to_zone_id m2 !! tid); [lia|done].
Qed.

(** *** When [update] raises *)

Lemma entry_steps_typed t z d ids n m :
  (forall idx, idx < n + length ids -> is_Some (vehicle_type_at d idx)) ->
  raised (try_each (entry_step t z d) (enumerate_from n ids) m) = None.
Proof.
  revert n m. induction ids as [|x ids IH]; intros n m Htyped; [done|].
  cbn [enumerate_from try_each].
  destruct (Htyped n) as [vt Hvt]; [simpl; lia|].
  assert (exists m1, entry_step t z d (n, x) m = Ok m1) as [m1 ->].
  { unfold entry_step. destruct (tracker_entry_info m !! x); [eauto|].
    rewrite Hvt. eauto. }
  apply IH. intros idx Hidx. apply Htyped. simpl. lia.
Qed.

Lemma typed_vehicle_type_at d idx :
  typed d -> idx < length (tracker_id d) -> is_Some (vehicle_type_at d idx).
Proof.
  unfold typed, vehicle_type_at. destruct (vehicle_type d) as [types|]; [|by eauto].
  intros Hlen Hidx. apply lookup_lt_is_Some. lia.
Qed.

Lemma entry_zones_typed t zones n m :
  Forall typed zones ->
  raised (try_each (entry_zone t) (enumerate_from n zones) m) = None.
Proof.
  revert n m. induction zones as [|d zones IH]; intros n m Htyped; [done|].
  apply Forall_cons in Htyped as [Hd Hzones].
  cbn [enumerate_from try_each].
  assert (raised (try_each (entry_step t n d)
                           (enumerate_from 0 (tracker_id d)) m) = None) as Hzone.
  { apply entry_steps_typed. intros idx Hidx. by apply typed_vehicle_type_at. }
  unfold entry_zone at 1. simpl. unfold enumerate.
  destruct (try_each (entry_step t n d) (enumerate_from 0 (tracker_id d)) m)
    as [m1|e m1]; [by apply IH | done].
Qed.

(** X7.  With a frame rate that divides, [update] returns whenever
    every entry-zone detections object either has no [vehicle_type]
    attribute or has one at least as long as its [tracker_id]; the
    exit-zone objects need nothing. *)
Theorem update_returns_on_typed_detections m all ins outs ft t :
  py_truediv ft (fps m) = Some t ->
  Forall typed ins ->
  raised (update m all ins outs ft) = None.
Proof.
  intros Ht Htyped. unfold update. rewrite Ht.
  pose proof (entry_zones_typed t ins 0 m Htyped) as Hentry.
  unfold entry_phase, enumerate.
  by destruct (try_each (entry_zone t) (enumerate_from 0 ins) m).
Qed.

(** X8.  A call of [update] that raises registers no exit: the events,
    the counts and the counter are as before the call, even if exit
    zones listed ids with an open record; nothing is returned and
    [detections_all] is not touched.  The records that were open are
    still open (those the entry registration opened before it raised
    stay as well). *)
Theorem raising_update_registers_no_exit m all ins outs ft :
  raised (update m all ins outs ft) <> None ->
  let u := after (update m all ins outs ft) in
  events (manager u) = events m /\
  counts (manager u) = counts m /\
  event_counter (manager u) = event_counter m /\
  returned u = None /\
  detections_all_after u = all /\
  (forall tid r, tracker_entry_info m !! tid = Some r ->
                 tracker_entry_info (manager u) !! tid = Some r).
Proof.
  unfold update. destruct (py_truediv ft (fps m)) as [t|]; [|done].
  pose proof (entry_phase_same_log t ins m) as (Hev & Hc & Hn & _).
  pose proof (entry_phase_keeps t ins m) as Hkeep.
  destruct (entry_phase t ins m) as [m1|e m1]; [done|].
  intros _. simpl in *. split_and!; try done.
Qed.

(** *** Where records and events come from *)

Lemma enumerate_from_lookup {A : Type} (n i : nat) (x : A) (l : list A) :
  (i, x) ∈ enumerate_from n l -> n <= i /\ l !! (i - n) = Some x.
Proof.
  revert n. induction l as [|y l IH]; intros n; simpl.
  - by intros ?%elem_of_nil.
  - intros [Heq|Hin]%elem_of_cons.
    + injection Heq as -> ->. split; [lia|]. by rewrite Nat.sub_diag.
    + destruct (IH _ Hin) as [Hle Hl]. split; [lia|].
      replace (i - n) with (S (i - S n)) by lia. done.
Qed.

Lemma enumerate_lookup {A : Type} (i : nat) (x : A) (l : list A) :
  (i, x) ∈ enumerate l -> l !! i = Some x.
Proof.
  intros [_ Hl]%enumerate_from_lookup. by rewrite Nat.sub_0_r in Hl.
Qed.

Lemma entry_phase_new_zone t ins m tid r :
  tracker_entry_info (after (entry_phase t ins m)) !! tid = Some r ->
  tracker_entry_info m !! tid = Some r \/ seen_in_zone tid r.1.1 ins.
Proof.
  unfold entry_phase. revert r.
  apply (try_each_inv (fun s => forall r,
           tracker_entry_info s !! tid = Some r ->
           tracker_entry_info m !! tid = Some r \/ seen_in_zone tid r.1.1 ins));
    [|by left].
  intros [z d] s Hin Hs r Hr.
  apply entry_zone_new in Hr as [Hr|(_ & Hseen & Hz & _)]; [by apply Hs|].
  right. simpl in *. exists d. split; [|done].
  rewrite Hz. by apply enumerate_lookup.
Qed.

Lemma exit_phase_events_zone t outs m :
  exists new,
    events (exit_phase t outs m) = events m ++ new /\
    Forall (fun e =>
      seen_in_zone (Id e) (Id_salida e) outs /\
      exists te vt, tracker_entry_info m !! Id e = Some (Id_Entrada e, te, vt))
      new.
Proof.
  set (Q := fun e : Event T =>
      seen_in_zone (Id e) (Id_salida e) outs /\
      exists te vt, tracker_entry_info m !! Id e = Some (Id_Entrada e, te, vt)).
  cut ((forall tid r, tracker_entry_info (exit_phase t outs m) !! tid = Some r ->
                      tracker_entry_info m !! tid = Some r) /\
       exists new, events (exit_phase t outs m) = events m ++ new /\ Forall Q new);
    [by intros [_ ?]|].
  unfold exit_phase.
  apply (for_each_inv (fun s =>
    (forall tid r, tracker_entry_info s !! tid = Some r ->
                   tracker_entry_info m !! tid = Some r) /\
    exists new, events s = events m ++ new /\ Forall Q new)).
  2:{ split; [done|]. exists []. by rewrite app_nil_r. }
  intros [zo d] s Hzone. unfold exit_zone. simpl.
  apply (for_each_inv (fun s =>
    (forall tid r, tracker_entry_info s !! tid = Some r ->
                   tracker_entry_info m !! tid = Some r) /\
    exists new, events s = events m ++ new /\ Forall Q new)).
  intros tid s0 Htid [Hsub (new & Hev & Hnew)]. split.
  - intros tid' r Hr. by eapply Hsub, exit_step_lookup_sub.
  - destruct (tracker_entry_info s0 !! tid) as [[[zi te] vt]|] eqn:Hopen.
    + destruct (exit_step_open t zo tid s0 zi te vt Hopen) as (Hev' & _).
      exists (new ++ [make_event s0 tid zi zo te t vt]).
      rewrite Hev', Hev, app_assoc. split; [done|].
      apply Forall_app. split; [done|]. apply Forall_singleton.
      split; simpl.
      * exists d. split; [by apply enumerate_lookup | done].
      * exists te, vt. by apply Hsub.
    + rewrite exit_step_closed by done. eauto.
Qed.

Lemma step_provenance past m c :
  provenance past m -> provenance (past ++ [c]) (step m c).
Proof.
  intros [Hrec Hev].
  assert (forall i c0, past !! i = Some c0 -> (past ++ [c]) !! i = Some c0)
    as Hpast.
  { intros i c0 Hi. by apply lookup_app_l_Some. }
  assert ((past ++ [c]) !! length past = Some c) as Hlast.
  { by rewrite lookup_app_r, Nat.sub_diag. }
  assert (forall i c0, past !! i = Some c0 -> i <= length past) as Hbound.
  { intros i c0 Hi%lookup_lt_Some. lia. }
  rewrite step_unfold.
  destruct (py_truediv (call_time c) (fps m)) as [t|].
  2:{ split.
      - intros tid r Hr. destruct (Hrec tid r Hr) as (i & c0 & Hi & Hseen). eauto.
      - eapply Forall_impl; [exact Hev|].
        intros e (i & j & c1 & c2 & Hle & Hi & Hj & Hrest). eauto 10. }
  pose proof (entry_phase_same_log t (call_in c) m) as (Hlog & _).
  pose proof (entry_phase_new_zone t (call_in c) m) as Hnew.
  assert (forall tid r,
            tracker_entry_info (after (entry_phase t (call_in c) m)) !! tid = Some r ->
            exists i c0, i <= length past /\ (past ++ [c]) !! i = Some c0 /\
                         seen_in_zone tid r.1.1 (call_in c0)) as Hrec1.
  { intros tid r Hr. destruct (Hnew tid r Hr) as [Hold|Hseen].
    - destruct (Hrec tid r Hold) as (i & c0 & Hi & Hseen). eauto 10.
    - exists (length past), c. eauto. }
  assert (Forall (fun e =>
     exists i j c1 c2,
       i <= j /\ (past ++ [c]) !! i = Some c1 /\ (past ++ [c]) !! j = Some c2 /\
       seen_in_zone (Id e) (Id_Entrada e) (call_in c1) /\
       seen_in_zone (Id e) (Id_salida e) (call_out c2)) (events m)) as Hev1.
  { eapply Forall_impl; [exact Hev|].
    intros e (i & j & c1 & c2 & Hle & Hi & Hj & Hrest). eauto 10. }
  destruct (entry_phase t (call_in c) m) as [m1|e m1]; simpl in *.
  - split.
    + intros tid r Hr%exit_phase_lookup_sub.
      destruct (Hrec1 tid r Hr) as (i & c0 & _ & Hi & Hseen). eauto.
    + destruct (exit_phase_events_zone t (call_out c) m1) as (new & -> & Hout).
      rewrite Hlog. apply Forall_app. split; [done|].
      eapply Forall_impl; [exact Hout|].
      intros e (Hexit & te & vt & Hr).
      destruct (Hrec1 _ _ Hr) as (i & c0 & Hle & Hi & Hseen).
      exists i, (length past), c0, c. split_and!; done.
  - split.
    + intros tid r Hr.
      destruct (Hrec1 tid r Hr) as (i & c0 & _ & Hi & Hseen). eauto.
    + by rewrite Hlog.
Qed.

Lemma run_provenance past m calls :
  provenance past m -> provenance (past ++ calls) (run m calls).
Proof.
  revert past m. induction calls as [|c calls IH]; intros past m Hm.
  { by rewrite app_nil_r. }
  simpl. replace (past ++ c :: calls) with ((past ++ [c]) ++ calls)
    by (by rewrite <- app_assoc).
  by apply IH, step_provenance.
Qed.

(** X9.  Every event in the log of a new manager comes from two
    observations made by the calls: its id was listed by the entry
    zone it names in some call, and by the exit zone it names in the
    same call or a later one.  So the zone ids of an event are always
    indices of the zone lists the manager was given, and no event is
    made up for an id that never entered. *)
Theorem events_come_from_observations (rot hor day : string) (rate : T)
    (calls : list (Call T)) :
  Forall (fun e =>
     exists i j c1 c2,
       i <= j /\ calls !! i = Some c1 /\ calls !! j = Some c2 /\
       seen_in_zone (Id e) (Id_Entrada e) (call_in c1) /\
       seen_in_zone (Id e) (Id_salida e) (call_out c2))
    (events (run (init rot hor day rate) calls)).
Proof.
  cut (provenance ([] ++ calls) (run (init rot hor day rate) calls));
    [by intros [_ ?]|].
  apply run_provenance. split; [|by constructor].
  intros tid r Hr. simpl in Hr. by rewrite lookup_empty in Hr.
Qed.

(** *** Ids with an entry zone on record *)

Lemma setdefault_known {K V : Type} `{Countable K} (k : K) (v : V)
    (d : gmap K V) :
  is_Some (setdefault k v d !! k).
Proof.
  unfold setdefault. destruct (d !! k) eqn:Hk; [by rewrite Hk|].
  rewrite lookup_insert_eq. eauto.
Qed.

Lemma known_kept_entry_step t z d obs m tid :
  known m tid -> known (after (entry_step t z d obs m)) tid.
Proof. intros [z0 Hz]. exists z0. by apply entry_step_zone_kept. Qed.

Lemma entry_step_all_known t z d obs m :
  all_known m -> all_known (after (entry_step t z d obs m)).
Proof.
  intros [Hrec Hev]. split.
  - intros tid [r Hr]. destruct obs as [idx tid'].
    apply entry_step_lookup in Hr as [Hr|(-> & Hnone & vt & Hvt & _)].
    + by apply known_kept_entry_step, Hrec.
    + unfold entry_step. rewrite Hnone, Hvt. simpl. apply setdefault_known.
  - pose proof (entry_step_same_log t z d obs m m (same_log_refl m)) as (-> & _).
    eapply Forall_impl; [exact Hev|]. intros e. apply known_kept_entry_step.
Qed.

Lemma exit_step_all_known t zo tid m :
  all_known m -> all_known (exit_step t zo tid m).
Proof.
  intros [Hrec Hev]. unfold exit_step.
  destruct (tracker_entry_info m !! tid) as [[[zi te] vt]|] eqn:Hopen; [|done].
  split; simpl.
  - intros tid' [r Hr]. apply lookup_delete_Some in Hr as [_ Hr].
    apply Hrec. eauto.
  - apply Forall_app. split; [done|]. apply Forall_singleton. simpl.
    apply Hrec. eauto.
Qed.

Lemma step_all_known m c : all_known m -> all_known (step m c).
Proof.
  intros Hm. rewrite step_unfold.
  destruct (py_truediv (call_time c) (fps m)) as [t|]; [|done].
  assert (all_known (after (entry_phase t (call_in c) m))) as Hm1.
  { unfold entry_phase. apply (try_each_inv all_known); [|done].
    intros zone s _. unfold entry_zone. apply (try_each_inv all_known).
    intros obs s0 _. apply entry_step_all_known. }
  destruct (entry_phase t (call_in c) m) as [m1|e m1]; simpl in *; [|done].
  unfold exit_phase. apply (for_each_inv all_known); [|done].
  intros zone s _. unfold exit_zone. apply (for_each_inv all_known).
  intros tid s0 _. apply exit_step_all_known.
Qed.

Lemma run_all_known m calls : all_known m -> all_known (run m calls).
Proof.
  revert m. induction calls as [|c calls IH]; intros m Hm; [done|].
  simpl. by apply IH, step_all_known.
Qed.

(** X11.  On a new manager, after any sequence of calls, every tracker
    id that has an open record or an event in the log also has an
    entry zone in [tracker_id_to_zone_id]; so a detection of such an
    id is never filtered out of what [update] returns. *)
Theorem open_and_crossed_ids_are_known (rot hor day : string) (rate : T)
    (calls : list (Call T)) (tid : Z) :
  is_Some (tracker_entry_info (run (init rot hor day rate) calls) !! tid) \/
  events_of tid (run (init rot hor day rate) calls) <> [] ->
  known (run (init rot hor day rate) calls) tid.
Proof.
  assert (all_known (run (init rot hor day rate) calls)) as [Hrec Hev].
  { apply run_all_known. split; [|by constructor].
    intros t [r Hr]. simpl in Hr. by rewrite lookup_empty in Hr. }
  intros [Hopen|Hcrossed]; [by apply Hrec|].
  destruct (events_of tid (run (init rot hor day rate) calls)) as [|e evs] eqn:He;
    [done|].
  assert (e ∈ events_of tid (run (init rot hor day rate) calls)) as Hin
    by (rewrite He; apply list_elem_of_here).
  unfold events_of in Hin. apply list_elem_of_filter in Hin as [<- Hin].
  rewrite Forall_forall in Hev. by apply Hev.
Qed.

End Bookkeeping.

(** *** The order of the log *)

(** X10.  The log is in the order of the calls, in every arithmetic,
    binary64 included: on a new manager, after any sequence of calls,
    the exit times of the events, in the order of the log, are the
    values of [frame_time / fps] computed by calls whose numbers never
    go back.  So the events are in the order of their exit times
    wherever dividing by the frame rate keeps the order of the frame
    times. *)
Theorem log_is_in_call_order {T : Type} `{PyNumber T}
    (rot hor day : string) (rate : T) (calls : list (Call T)) :
  exists js,
    Forall2 (fun e j =>
               exists c, calls !! j = Some c /\
                         py_truediv (call_time c) rate =
                           Some (Tiempo_Salida e))
            (events (run (init rot hor day rate) calls)) js /\
    ascending js.
Proof.
  destruct (new_manager_timed rot hor day rate calls)
    as (_ & _ & js & Hev & Hasc).
  exists js. split; [|done].
  eapply Forall2_impl; [exact Hev|].
  by intros e j (i & _ & _ & Hout & _).
Qed.

(** *** The bookkeeping on the sample inputs *)

Import Roundabout Traffic.

Lemma annotation_zone_never_changes_witness :
  tracker_id_to_zone_id
    (run (step manager_30 overlap_of_5) [second_visit_of_5]) !! 5%Z = Some 0.
Proof.
  apply (annotation_zone_never_changes (step manager_30 overlap_of_5)
           [second_visit_of_5] 5%Z 0).
  by vm_compute.
Defined.

Lemma open_record_waits_for_exit_witness :
  tracker_entry_info
    (run (step manager_30 entry_of_7) [orphan_of_9; overlap_of_5]) !! 7%Z =
    Some (0, (30 / 30)%Q, "car"%string) /\
  events_of 7 (run (step manager_30 entry_of_7) [orphan_of_9; overlap_of_5]) =
  events_of 7 (step manager_30 entry_of_7).
Proof.
  apply (open_record_waits_for_exit (step manager_30 entry_of_7)
           [orphan_of_9; overlap_of_5] 7%Z (0, (30 / 30)%Q, "car"%string)).
  - by vm_compute.
  - intros c Hc Hin.
    repeat (apply elem_of_cons in Hc as [->|Hc];
            [vm_compute in Hin;
             repeat (apply elem_of_cons in Hin as [Hin|Hin]; [done|]);
             by apply elem_of_nil in Hin|]).
    by apply elem_of_nil in Hc.
Defined.

Lemma returned_rows_are_the_known_ones_witness :
  exists u kept,
    update manager_30 (call_all overlap_of_5) (call_in overlap_of_5)
           (call_out overlap_of_5) 60%Q = Ok u /\
    returned u = Some kept /\
    class_id kept = map (zone_class (manager u)) (tracker_id kept) /\
    vehicle_type kept = None.
Proof.
  destruct (update manager_30 (call_all overlap_of_5) (call_in overlap_of_5)
                   (call_out overlap_of_5) 60%Q) as [u|e u] eqn:Hupdate;
    [|by vm_compute in Hupdate].
  destruct (returned_rows_are_the_known_ones _ _ _ _ _ u Hupdate)
    as (kept & Hret & _ & _ & Hclass & _ & Htype & _).
  by exists u, kept.
Defined.

Lemma update_returns_on_typed_detections_witness :
  raised (update manager_30 (call_all overlap_of_5) (call_in overlap_of_5)
                 (call_out overlap_of_5) 60%Q) = None.
Proof.
  apply (update_returns_on_typed_detections manager_30 _ _ _ 60%Q (60 / 30)%Q).
  - reflexivity.
  - repeat constructor.
Defined.

Lemma raising_update_registers_no_exit_witness :
  let m := step manager_30 entry_of_7 in
  let u := after (update m (call_all raising_call) (call_in raising_call)
                         (call_out raising_call) 90%Q) in
  events (manager u) = events m /\
  counts (manager u) = counts m /\
  event_counter (manager u) = event_counter m /\
  returned u = None /\
  detections_all_after u = call_all raising_call /\
  (forall tid r, tracker_entry_info m !! tid = Some r ->
                 tracker_entry_info (manager u) !! tid = Some r).
Proof.
  apply (raising_update_registers_no_exit (step manager_30 entry_of_7)
           (call_all raising_call) (call_in raising_call)
           (call_out raising_call) 90%Q).
  by vm_compute.
Defined.

Lemma open_and_crossed_ids_are_known_witness :
  known (run (init "r1" "h2" "t" 30%Q) (crossing_of_7 inject_Z)) 7.
Proof.
  apply (open_and_crossed_ids_are_known "r1" "h2" "t" 30%Q
           (crossing_of_7 inject_Z) 7%Z).
  right. by vm_compute.
Defined.

End LedgerFacts.


(** ** More on the stabilizer of [src/python/services/stabilizer.py] *)

Module StabilizerMore.
Import Cv2 PythonServicesStabilizer StabilizerFacts Paths.

Lemma prefix_true (old s : string) :
  String.prefix old s = true -> exists rest, s = String.app old rest.
Proof.
  revert s. induction old as [|a old IH]; intros s; simpl.
  { intros _. by exists s. }
  destruct s as [|b s]; simpl; [done|].
  destruct (Ascii.ascii_dec a b) as [->|]; [|done].
  intros [rest ->]%IH. by exists rest.
Qed.

Lemma replace_scan_absent (old new s : string) :
  ~ occurs_in old s -> replace_scan old new 0 s = s.
Proof.
  induction s as [|c s IH]; intros Hnone; [done|].
  cbn [replace_scan].
  destruct (String.prefix old (String c s)) eqn:Hprefix.
  { exfalso. apply Hnone. apply prefix_true in Hprefix as [rest Hrest].
    exists EmptyString, rest. by rewrite Hrest. }
  f_equal. apply IH. intros (before & rest & ->). apply Hnone.
  by exists (String c before), rest.
Qed.

(** [s.replace(old, new)] is [s] when [old], not empty, is not in [s]. *)
Lemma replace_absent (old new s : string) :
  old <> EmptyString -> ~ occurs_in old s -> replace s old new = s.
Proof.
  intros Hold Hnone. unfold replace. destruct old as [|a old]; [done|].
  by apply replace_scan_absent.
Qed.

Section Selection.
Context {A : Type}.

Lemma mask_index_sublist (a r : list A) (mask : list bool) :
  mask_index a mask = Some r -> r `sublist_of` a.
Proof.
  unfold mask_index. destruct (length mask =? length a) eqn:Hlen; [|done].
  apply Nat.eqb_eq in Hlen. intros [= <-].
  rewrite <- (fst_zip a mask) at 2 by lia.
  apply fmap_sublist, sublist_filter.
Qed.

Lemma mask_index_shorter (a r : list A) (mask : list bool) :
  mask_index a mask = Some r -> length r <= length a.
Proof. intros Hr. by apply sublist_length, (mask_index_sublist _ _ mask). Qed.

End Selection.

Section Engine.
Context {frame gray point homography : Type}.
Context `{cv : OpenCV frame gray point homography}.
Implicit Types st : LoopState frame gray point.

Lemma survivors_bound (status : list Z) : survivors status <= length status.
Proof.
  unfold survivors. etrans; [apply length_filter|].
  by rewrite good_points_length.
Qed.

Lemma iteration_shrinks ancho alto f st st' :
  iteration ancho alto f st = Ok st' ->
  length (puntos_iniciales st') <= length (puntos_iniciales st) /\
  puntos_ref st' `sublist_of` puntos_ref st.
Proof.
  unfold iteration.
  destruct (calcOpticalFlowPyrLK _ _ _) as [[pn|] [status|]];
    try (intros [= <-]; by simpl).
  destruct (negb (length status =? length (puntos_iniciales st))
            || negb (length status =? length pn)) eqn:Hguard;
    [intros [= <-]; by simpl|].
  apply orb_false_elim in Hguard as [H1 H2].
  apply negb_false_iff, Nat.eqb_eq in H1, H2.
  destruct (mask_index (puntos_iniciales st) _) as [kept|]; [|done].
  destruct (mask_index pn _) as [tracked|] eqn:Htracked; [|done].
  destruct (mask_index (puntos_ref st) _) as [reference|] eqn:Href; [|done].
  intros [= <-]. simpl. split.
  - apply mask_index_shorter in Htracked. lia.
  - by eapply mask_index_sublist.
Qed.

(** X12.  The tracked set only shrinks: whenever the loop gets through
    some frames, the number of tracked points at the end is at most the
    number at the start, and the reference points at the end are a
    selection, in their order, of the reference points at the start.
    Points are never detected again, never added and never
    reordered. *)
Theorem points_only_shrink ancho alto (frames unread : list frame) st st' :
  main_loop ancho alto frames st = Ok (unread, st') ->
  length (puntos_iniciales st') <= length (puntos_iniciales st) /\
  puntos_ref st' `sublist_of` puntos_ref st.
Proof.
  revert st. induction frames as [|f frames IH]; intros st; simpl.
  { by intros [= _ <-]. }
  destruct (iteration ancho alto f st) as [st1|e st1] eqn:Hturn; [|done].
  intros Hloop. destruct (iteration_shrinks _ _ _ _ _ Hturn) as [Hlen Hsub].
  destruct (IH st1 Hloop) as [Hlen' Hsub']. split; [lia|]. by etrans.
Qed.

Lemma iteration_degraded ancho alto f st :
  same_length st ->
  length (puntos_iniciales st) < 4 ->
  exists st',
    iteration ancho alto f st = Ok st' /\
    same_length st' /\
    length (puntos_iniciales st') < 4 /\
    writer st' = write (writer st) f.
Proof.
  intros Hinv Hfew.
  destruct (calcOpticalFlowPyrLK (frame_anterior_gray st) (cvtColor f)
              (puntos_iniciales st)) as [[pn|] [status|]] eqn:Hflow.
  2-4: (exists (pass_through st f (cvtColor f)); split_and!;
        [apply iteration_pass_through; by rewrite Hflow | done | done | done]).
  destruct (decide (length status = length (puntos_iniciales st))) as [H1|H1].
  2:{ exists (pass_through st f (cvtColor f)). split_and!; try done.
      apply iteration_pass_through. rewrite Hflow. by left. }
  destruct (decide (length status = length pn)) as [H2|H2].
  2:{ exists (pass_through st f (cvtColor f)). split_and!; try done.
      apply iteration_pass_through. rewrite Hflow. by right. }
  destruct (iteration_filtered ancho alto f st pn status Hinv Hflow H1 H2)
    as (tracked & reference & _ & _ & Ht & Hr & ->).
  pose proof (survivors_bound status) as Hbound.
  assert (survivors status < 4) as Hs by lia.
  rewrite (proj2 (Nat.ltb_lt _ _) Hs).
  eexists. split; [done|]. split_and!; simpl; try done.
  - unfold same_length. simpl. congruence.
  - lia.
Qed.

(** X13.  Once fewer than 4 points are tracked, the stabilizer has
    given up for the rest of the video: every later frame is written
    exactly as it was read, in order, no exception is raised, and the
    number of tracked points stays below 4. *)
Theorem degraded_loop_copies_frames ancho alto (frames : list frame) st :
  same_length st ->
  length (puntos_iniciales st) < 4 ->
  exists st',
    main_loop ancho alto frames st = Ok ([], st') /\
    written (writer st') = written (writer st) ++ frames /\
    length (puntos_iniciales st') < 4.
Proof.
  revert st. induction frames as [|f frames IH]; intros st Hinv Hfew.
  { exists st. simpl. by rewrite app_nil_r. }
  destruct (iteration_degraded ancho alto f st Hinv Hfew)
    as (st1 & Hturn & Hinv1 & Hfew1 & Hw).
  destruct (IH st1 Hinv1 Hfew1) as (st' & Hloop & Hwritten & Hfew').
  exists st'. simpl. rewrite Hturn, Hloop. split_and!; try done.
  rewrite Hwritten, Hw. simpl. by rewrite <- app_assoc.
Qed.

(** X14.  The warping branch: in a state the loop has reached, when
    the flow gives points and flags of the right lengths and at least
    4 flags equal 1, the homography is asked to map the selected new
    points onto the selected reference points; the frame written is
    the input warped by it onto the canvas of the run, or the input as
    it is when no homography is found, and it comes after the frames
    written before; the selected points are adopted either way. *)
Theorem enough_survivors_warp ancho alto f st puntos_nuevos status :
  reachable ancho alto st ->
  calcOpticalFlowPyrLK (frame_anterior_gray st) (cvtColor f)
                       (puntos_iniciales st) =
    (Some puntos_nuevos, Some status) ->
  length status = length (puntos_iniciales st) ->
  length status = length puntos_nuevos ->
  4 <= survivors status ->
  exists tracked reference st',
    mask_index puntos_nuevos (good_points status) = Some tracked /\
    mask_index (puntos_ref st) (good_points status) = Some reference /\
    iteration ancho alto f st = Ok st' /\
    st' =
      {| writer :=
           write (writer st)
                 match findHomography tracked reference with
                 | Some H => warpPerspective f H (ancho, alto)
                 | None => f
                 end;
         frame_anterior_gray := cvtColor f;
         puntos_iniciales := tracked;
         puntos_ref := reference |} /\
    written (writer st') =
      written (writer st) ++
      [match findHomography tracked reference with
       | Some H => warpPerspective f H (ancho, alto)
       | None => f
       end] /\
    frame_anterior_gray st' = cvtColor f /\
    puntos_iniciales st' = tracked /\
    puntos_ref st' = reference.
Proof.
  intros Hreach Hflow Hlen1 Hlen2 Hmany.
  apply reachable_same_length in Hreach.
  destruct (iteration_filtered ancho alto f st puntos_nuevos status
              Hreach Hflow Hlen1 Hlen2)
    as (tracked & reference & Ht & Hr & _ & _ & Hturn).
  rewrite (proj2 (Nat.ltb_ge _ _) Hmany) in Hturn.
  exists tracked, reference.
  destruct (findHomography tracked reference) as [H|];
    eexists; split_and!; try done.
Qed.

Lemma iteration_same_file ancho alto f st st' :
  iteration ancho alto f st = Ok st' ->
  filename (writer st') = filename (writer st) /\
  writer_fps (writer st') = writer_fps (writer st) /\
  frameSize (writer st') = frameSize (writer st) /\
  writer_released (writer st') = writer_released (writer st).
Proof.
  intros Hturn.
  assert (exists o, writer st' = write (writer st) o) as [o ->]; [|done].
  revert Hturn. unfold iteration.
  destruct (calcOpticalFlowPyrLK _ _ _) as [[pn|] [status|]];
    try (intros [= <-]; by eexists).
  destruct (negb _ || negb _); [intros [= <-]; by eexists|].
  destruct (mask_index (puntos_iniciales st) _) as [kept|]; [|done].
  destruct (mask_index pn _) as [tracked|]; [|done].
  destruct (mask_index (puntos_ref st) _) as [reference|]; [|done].
  intros [= <-]. simpl. destruct (length kept <? 4); [by eexists|].
  destruct (findHomography tracked reference); by eexists.
Qed.

Lemma main_loop_same_file ancho alto frames st unread st' :
  main_loop ancho alto frames st = Ok (unread, st') ->
  filename (writer st') = filename (writer st) /\
  writer_fps (writer st') = writer_fps (writer st) /\
  frameSize (writer st') = frameSize (writer st) /\
  writer_released (writer st') = writer_released (writer st).
Proof.
  revert st. induction frames as [|f frames IH]; intros st; simpl.
  { by intros [= _ <-]. }
  destruct (iteration ancho alto f st) as [st1|e st1] eqn:Hturn; [|done].
  intros Hloop. destruct (iteration_same_file _ _ _ _ _ Hturn) as (? & ? & ? & ?).
  destruct (IH st1 Hloop) as (? & ? & ? & ?). split_and!; congruence.
Qed.

(** X15.  A run that starts (the video opens, its first frame is read,
    at least 4 points are found) ends like this: every frame has been
    read, the capture and the writer are released, the one line printed
    names the output file, the writer was opened on that file with the
    frame rate the container reports and the width and height of the
    first frame, and the frames written are, in order, the frames after
    the first, each as it was read or warped onto that canvas. *)
Theorem completed_run
    (cap : Capture frame) ruta_entrada ruta_salida max_features
    quality_level min_distance primer rest puntos :
  isOpened cap = true ->
  pending cap = primer :: rest ->
  goodFeaturesToTrack (cvtColor primer) max_features quality_level
                      min_distance = Some puntos ->
  4 <= length puntos ->
  exists w o,
    video_stabilizer cap ruta_entrada ruta_salida max_features
                     quality_level min_distance = Ok w /\
    stdout w = [msg_guardado (output_path ruta_entrada ruta_salida)] /\
    pending (capture w) = [] /\
    cap_released (capture w) = true /\
    out w = Some o /\
    writer_released o = true /\
    filename o = output_path ruta_entrada ruta_salida /\
    writer_fps o = CAP_PROP_FPS cap /\
    frameSize o = ((shape primer).2, (shape primer).1) /\
    Forall2 (output_of (shape primer).2 (shape primer).1) rest (written o).
Proof.
  intros Hopen Hpending Hfeatures Hfour.
  unfold video_stabilizer, read. rewrite Hopen, Hpending. simpl.
  destruct (shape primer) as [alto ancho] eqn:Hshape.
  rewrite Hfeatures. rewrite (proj2 (Nat.ltb_ge _ _) Hfour).
  match goal with
  | |- context [main_loop ancho alto rest ?st0] =>
      destruct (main_loop_run ancho alto rest st0) as
        (st' & outs & Hloop & _ & Hw & Houts); [done|];
      destruct (main_loop_same_file _ _ _ _ _ _ Hloop) as (Hf & Hr & Hs & _);
      rewrite Hloop
  end.
  simpl in *. eexists _, (release_writer (writer st')). split; [done|].
  simpl. rewrite Hw. split_and!; done.
Qed.

Lemma iteration_file ancho alto f st :
  filename (writer (after (iteration ancho alto f st))) = filename (writer st).
Proof.
  destruct (iteration ancho alto f st) as [st'|e st'] eqn:Hturn.
  - by destruct (iteration_same_file _ _ _ _ _ Hturn).
  - simpl. revert Hturn. unfold iteration.
    destruct (calcOpticalFlowPyrLK _ _ _) as [[pn|] [status|]]; try done.
    destruct (negb _ || negb _); [done|].
    destruct (mask_index (puntos_iniciales st) _) as [kept|]; [|by intros [= _ <-]].
    destruct (mask_index pn _) as [tracked|]; [|by intros [= _ <-]].
    destruct (mask_index (puntos_ref st) _) as [reference|]; [|by intros [= _ <-]].
    done.
Qed.

Lemma main_loop_file ancho alto frames st :
  filename (writer (after (main_loop ancho alto frames st)).2) =
  filename (writer st).
Proof.
  revert st. induction frames as [|f frames IH]; intros st; [done|]. simpl.
  pose proof (iteration_file ancho alto f st) as Hturn.
  destruct (iteration ancho alto f st) as [st1|e st1]; simpl in *; [|done].
  by rewrite IH.
Qed.

(** X17.  Called without an output path on a file whose name does not
    contain [.mp4] (an [.avi], an upper-case [.MP4]), the stabilizer
    takes the input path itself as its output path: whenever it
    creates a writer, on any path through the function, the writer is
    on the file it reads. *)
Theorem default_output_can_be_the_input
    (cap : Capture frame) ruta_entrada max_features quality_level
    min_distance o :
  ~ occurs_in ".mp4" ruta_entrada ->
  out (after (video_stabilizer cap ruta_entrada None max_features
                               quality_level min_distance)) = Some o ->
  filename o = ruta_entrada.
Proof.
  intros Hnone. unfold video_stabilizer, read.
  assert (replace ruta_entrada ".mp4" "_stable.mp4" = ruta_entrada) as ->.
  { by apply replace_absent. }
  destruct (isOpened cap); simpl; [|done].
  destruct (pending cap) as [|primer rest]; [done|].
  destruct (shape primer) as [alto ancho].
  destruct (goodFeaturesToTrack _ _ _ _) as [puntos|];
    [|intros Ho; cbn in Ho; by injection Ho as <-].
  destruct (length puntos <? 4); [intros Ho; cbn in Ho; by injection Ho as <-|].
  match goal with
  | |- context [main_loop ?a ?b ?c ?d] =>
      pose proof (main_loop_file a b c d) as Hfile;
      destruct (main_loop a b c d) as [[unread st']|e [unread st']]
  end; intros Ho; cbn in Ho, Hfile; by injection Ho as <-.
Qed.

End Engine.

(** X16.  A video that does not open, or opens with no frame in it:
    both copies print one line and return with the capture as it was,
    nothing released.  The newer copy has created no writer.  The older one has
    none either when the video did not open, but when it opened without
    a frame it leaves behind the writer it had already created from the
    container's properties, empty and not released. *)
Theorem nothing_to_stabilize {frame gray point homography : Type}
    (cv : OpenCV frame gray point homography)
    (cap : Capture frame) ruta_entrada ruta_salida max_features
    quality_level min_distance :
  isOpened cap = false \/ pending cap = [] ->
  let line := if isOpened cap
              then "No se pudo leer el primer frame. Abortando."%string
              else msg_no_abre ruta_entrada in
  PythonServicesStabilizer.video_stabilizer cap ruta_entrada ruta_salida
    max_features quality_level min_distance =
    Ok {| stdout := [line]; capture := cap; out := None |} /\
  ServicesStabilizer.video_stabilizer cap ruta_entrada ruta_salida
    max_features quality_level min_distance =
    Ok {| stdout := [line]; capture := cap;
          out := if isOpened cap
                 then Some (VideoWriter (output_path ruta_entrada ruta_salida)
                              (CAP_PROP_FPS cap)
                              (int (CAP_PROP_FRAME_WIDTH cap),
                               int (CAP_PROP_FRAME_HEIGHT cap)))
                 else None |}.
Proof.
  intros Hnothing. cbv zeta.
  unfold PythonServicesStabilizer.video_stabilizer,
         ServicesStabilizer.video_stabilizer, read.
  destruct (isOpened cap); simpl; [|done].
  destruct Hnothing as [?| ->]; done.
Qed.

(** *** On the sample clips *)

Import Clips MoreClips.

Lemma prefix_app (old rest : string) :
  String.prefix old (String.app old rest) = true.
Proof.
  induction old as [|a old IH]; simpl; [by destruct rest|].
  by destruct (Ascii.ascii_dec a a).
Qed.

Lemma occurs_contains (old s : string) :
  occurs_in old s -> contains old s = true.
Proof.
  intros (before & rest & ->). induction before as [|c before IH].
  - assert (forall s, String.prefix old s = true -> contains old s = true) as Hp.
    { intros s Hs. destruct s; cbn [contains]; by rewrite Hs. }
    exact (Hp _ (prefix_app old rest)).
  - change (contains old (String c (String.app before (String.app old rest)))
            = true).
    cbn [contains]. rewrite IH. apply orb_true_r.
Qed.

Lemma points_only_shrink_witness :
  let st' := (after (main_loop 640 480 (tail (pending three_frames))
                               five_points)).2 in
  length (puntos_iniciales st') <= length (puntos_iniciales five_points) /\
  puntos_ref st' `sublist_of` puntos_ref five_points.
Proof.
  destruct (main_loop 640 480 (tail (pending three_frames)) five_points)
    as [[unread st']|e [unread st']] eqn:Hloop; [|by vm_compute in Hloop].
  exact (points_only_shrink 640 480 _ unread five_points st' Hloop).
Defined.

Lemma degraded_loop_copies_frames_witness :
  exists st',
    main_loop 640 480 [picture 0 (Some [1; 1; 1]%Z); picture 0 None]
              three_points = Ok ([], st') /\
    written (writer st') =
      written (writer three_points) ++
      [picture 0 (Some [1; 1; 1]%Z); picture 0 None] /\
    length (puntos_iniciales st') < 4.
Proof.
  apply (degraded_loop_copies_frames 640 480
           [picture 0 (Some [1; 1; 1]%Z); picture 0 None] three_points).
  - reflexivity.
  - simpl. lia.
Defined.

Lemma enough_survivors_warp_witness :
  exists st',
    iteration 640 480 (picture 0 (Some [1; 1; 1; 1; 1]%Z)) five_points =
      Ok st' /\
    written (writer st') =
      [warpPerspective (picture 0 (Some [1; 1; 1; 1; 1]%Z)) tt (640, 480)%Z] /\
    puntos_iniciales st' = seq 0 5 /\
    puntos_ref st' = seq 0 5.
Proof.
  destruct (enough_survivors_warp 640 480 (picture 0 (Some [1; 1; 1; 1; 1]%Z))
              five_points (seq 0 5) [1; 1; 1; 1; 1]%Z)
    as (tracked & reference & st' & Ht & Hr & Hturn & _ & Hw & _ & Hti & Htr).
  - apply reach_start.
  - reflexivity.
  - reflexivity.
  - reflexivity.
  - vm_compute. lia.
  - injection Ht as <-. injection Hr as <-. exists st'.
    split_and!; [exact Hturn | exact Hw | exact Hti | exact Htr].
Defined.

Lemma completed_run_witness :
  exists w o,
    video_stabilizer three_frames "in.mp4" None 200 (1 # 100) 15 = Ok w /\
    stdout w = [msg_guardado (output_path "in.mp4" None)] /\
    pending (capture w) = [] /\
    cap_released (capture w) = true /\
    out w = Some o /\
    writer_released o = true /\
    filename o = output_path "in.mp4" None /\
    writer_fps o = CAP_PROP_FPS three_frames /\
    frameSize o = ((shape (picture 5 None)).2, (shape (picture 5 None)).1) /\
    Forall2 (output_of (shape (picture 5 None)).2 (shape (picture 5 None)).1)
            [picture 0 (Some [1; 1; 1; 1; 1]%Z);
             picture 0 (Some [1; 0; 0; 1; 1]%Z)]
            (written o).
Proof.
  apply (completed_run three_frames "in.mp4" None 200 (1 # 100) 15
           (picture 5 None)
           [picture 0 (Some [1; 1; 1; 1; 1]%Z);
            picture 0 (Some [1; 0; 0; 1; 1]%Z)]
           (seq 0 5)).
  - reflexivity.
  - reflexivity.
  - reflexivity.
  - simpl. lia.
Defined.

Lemma nothing_to_stabilize_witness :
  PythonServicesStabilizer.video_stabilizer no_frames "in.mp4" None 200
    (1 # 100) 15 =
    Ok {| stdout := ["No se pudo leer el primer frame. Abortando."%string];
          capture := no_frames; out := None |} /\
  ServicesStabilizer.video_stabilizer no_frames "in.mp4" None 200
    (1 # 100) 15 =
    Ok {| stdout := ["No se pudo leer el primer frame. Abortando."%string];
          capture := no_frames;
          out := Some (VideoWriter (output_path "in.mp4" None)
                         (CAP_PROP_FPS no_frames)
                         (int (CAP_PROP_FRAME_WIDTH no_frames),
                          int (CAP_PROP_FRAME_HEIGHT no_frames))) |}.
Proof.
  apply (nothing_to_stabilize picture_cv no_frames "in.mp4" None 200
           (1 # 100) 15).
  by right.
Defined.

Lemma default_output_can_be_the_input_witness :
  exists o,
    out (after (video_stabilizer three_frames "clip.avi" None 200 (1 # 100) 15))
      = Some o /\
    filename o = "clip.avi"%string.
Proof.
  eexists. split; [reflexivity|].
  apply (default_output_can_be_the_input three_frames "clip.avi" 200
           (1 # 100) 15).
  - intros Hin%occurs_contains. by vm_compute in Hin.
  - reflexivity.
Defined.

End StabilizerMore.

(** ** The video processor *)

Module ProcessorFacts.
Import Javat Processor Ledger Times.

Section Selection.
Context {A B : Type}.

Lemma mask_index_fmap (f : A -> B) (a : list A) (mask : list bool) :
  Cv2.mask_index (map f a) mask = option_map (map f) (Cv2.mask_index a mask).
Proof.
  unfold Cv2.mask_index. rewrite length_map.
  destruct (length mask =? length a); [|done]. simpl. f_equal.
  revert mask. induction a as [|x a IH]; intros [|b mask]; try done.
  simpl. destruct b.
  - rewrite !filter_cons_True by done. simpl. by rewrite IH.
  - rewrite !filter_cons_False by (simpl; tauto). apply IH.
Qed.

Lemma mask_index_nil (a r : list A) :
  Cv2.mask_index a [] = Some r -> a = [] /\ r = [].
Proof.
  unfold Cv2.mask_index. destruct a as [|x a]; simpl; [|done].
  by intros [= <-].
Qed.

End Selection.

Section Frames.
Context {T : Type} `{PyNumber T}.
Context {image box zone bytetrack : Type} `{Countable box}.
Context (vision : Vision T image box zone bytetrack).

(** *** The detections of one zone *)

Lemma zone_rows types (det : Boxes box) mask b d :
  index_rows (with_types types det) mask = Some b ->
  carry_types (with_types types det) mask b = Some d ->
  tracker_id d `sublist_of` tracker_id (rows det) /\ typed d /\
  types_follow types d.
Proof.
  unfold index_rows, carry_types. simpl.
  destruct (Cv2.mask_index (xyxy det) mask) as [boxes|]; [|done].
  destruct (Cv2.mask_index (tracker_id (rows det)) mask) as [ids|] eqn:Hids;
    [|done].
  destruct (Cv2.mask_index (class_id (rows det)) mask) as [classes|]; [|done].
  intros [= <-]. simpl.
  pose proof (StabilizerMore.mask_index_sublist _ _ _ Hids) as Hsub.
  destruct (0 <? length mask) eqn:Hpos.
  - rewrite mask_index_fmap, Hids. simpl. intros [= <-]. simpl.
    split_and!; [done| |].
    + unfold typed. simpl. by rewrite length_map.
    + intros idx tid Hidx. unfold vehicle_type_at. simpl in *.
      change (map (type_of types) ids) with (type_of types <$> ids).
      by rewrite list_lookup_fmap, Hidx.
  - intros [= <-]. simpl. split_and!; [done|done|].
    intros idx tid Hidx. simpl in Hidx.
    apply Nat.ltb_ge in Hpos. destruct mask; [|simpl in Hpos; lia].
    apply mask_index_nil in Hids as [_ ->]. done.
Qed.

Lemma zone_rows_exist types (det : Boxes box) mask :
  consistent det -> length mask = length (xyxy det) ->
  exists b d,
    index_rows (with_types types det) mask = Some b /\
    carry_types (with_types types det) mask b = Some d.
Proof.
  intros [Hids Hclasses] Hmask. unfold index_rows, carry_types. simpl.
  destruct (StabilizerFacts.mask_index_Some (xyxy det) mask) as (boxes & -> & _);
    [done|].
  destruct (StabilizerFacts.mask_index_Some (tracker_id (rows det)) mask)
    as (ids & Hsel & _); [congruence|].
  destruct (StabilizerFacts.mask_index_Some (class_id (rows det)) mask)
    as (classes & -> & _); [congruence|].
  rewrite Hsel, mask_index_fmap, Hsel. simpl.
  destruct (0 <? length mask); eauto.
Qed.

(** *** The zones of one frame *)

Lemma split_zones_rows types (det : Boxes box) pairs ins outs :
  split_zones vision (with_types types det) pairs = Some (ins, outs) ->
  length ins = length pairs /\ length outs = length pairs /\
  Forall (fun d => tracker_id d `sublist_of` tracker_id (rows det) /\
                   typed d /\ types_follow types d) (ins ++ outs).
Proof.
  revert ins outs. induction pairs as [|both pairs IH]; intros ins outs; simpl.
  { intros [= <- <-]. by split_and!. }
  unfold zone_pair.
  destruct (index_rows (with_types types det) (trigger vision both.1 _))
    as [b_in|] eqn:Hb_in; [|done].
  destruct (index_rows (with_types types det) (trigger vision both.2 _))
    as [b_out|] eqn:Hb_out; [|done].
  destruct (carry_types (with_types types det) (trigger vision both.1 _) b_in)
    as [d_in|] eqn:Hd_in; [|done].
  destruct (carry_types (with_types types det) (trigger vision both.2 _) b_out)
    as [d_out|] eqn:Hd_out; [|done].
  destruct (split_zones vision (with_types types det) pairs)
    as [[ins' outs']|]; [|done].
  intros [= <- <-]. destruct (IH _ _ eq_refl) as (Hins & Houts & Hall).
  apply Forall_app in Hall as [Hall_in Hall_out].
  split_and!; [simpl; lia | simpl; lia |].
  apply Forall_app. split; apply Forall_cons; split; try done.
  - exact (zone_rows _ _ _ _ _ Hb_in Hd_in).
  - exact (zone_rows _ _ _ _ _ Hb_out Hd_out).
Qed.

Lemma split_zones_exist types (det : Boxes box) pairs :
  consistent det ->
  (forall z, length (trigger vision z (with_types types det)) =
             length (xyxy det)) ->
  is_Some (split_zones vision (with_types types det) pairs).
Proof.
  intros Hdet Htrigger. induction pairs as [|both pairs [[ins outs] IH]]; simpl.
  { by eexists. }
  unfold zone_pair.
  destruct (zone_rows_exist types det _ Hdet (Htrigger both.1))
    as (b_in & d_in & -> & ->).
  destruct (zone_rows_exist types det _ Hdet (Htrigger both.2))
    as (b_out & d_out & -> & ->).
  rewrite IH. by eexists.
Qed.

(** *** One call of [process_frame] *)

Lemma process_frame_call self frame ft :
  let r := process_frame vision self frame ft in
  let self' := processor_after r in
  let m := detections_manager self in
  let types := tracker_id_to_vehicle_type self' in
  let tracked :=
    (update_with_detections vision (tracker self) (predict vision frame)).2 in
  zones_in self' = zones_in self /\ zones_out self' = zones_out self /\
  types = learn_types (original_types vision (predict vision frame)) tracked
                      (tracker_id_to_vehicle_type self) /\
  ((split_zones vision (with_types types tracked)
                (zip (zones_in self) (zones_out self)) = None /\
    r = Failed IndexError self' /\ detections_manager self' = m) \/
   (exists c,
      call_time c = ft /\
      length (call_in c) = zone_pairs self /\
      Forall (fun d => typed d /\ types_follow types d) (call_in c) /\
      detections_manager self' = step m c /\
      match r with
      | Annotated _ _ =>
          raised (update_call m c) = None /\
          forallb (fun i => i <? length COLORS) (palette_indices self') = true
      | Failed e _ =>
          raised (update_call m c) = Some e \/
          (e = IndexError /\ raised (update_call m c) = None /\
           forallb (fun i => i <? length COLORS) (palette_indices self') = false)
      end)).
Proof.
  unfold process_frame.
  destruct (update_with_detections vision (tracker self) (predict vision frame))
    as [tracker1 tracked] eqn:Htracked.
  cbn [snd].
  set (types := learn_types (original_types vision (predict vision frame))
                            tracked (tracker_id_to_vehicle_type self)).
  destruct (split_zones vision (with_types types tracked)
                        (zip (zones_in self) (zones_out self)))
    as [[ins outs]|] eqn:Hsplit.
  2:{ simpl. split_and!; try done. left. by rewrite Hsplit. }
  destruct (split_zones_rows _ _ _ _ _ Hsplit) as (Hins & _ & Hall).
  apply Forall_app in Hall as [Hall _].
  assert (Forall (fun d => typed d /\ types_follow types d) ins) as Hin.
  { eapply Forall_impl; [exact Hall|]. by intros d (_ & ? & ?). }
  set (c := {| call_all := rows (with_types types tracked); call_in := ins;
               call_out := outs; call_time := ft |}).
  change (update (detections_manager self) (rows (with_types types tracked))
                 ins outs ft)
    with (update_call (detections_manager self) c).
  assert (step (detections_manager self) c =
          manager (after (update_call (detections_manager self) c)))
    as Hstep by done.
  destruct (update_call (detections_manager self) c) as [u|e u] eqn:Hcall.
  - destruct (annotate_frame vision frame _ _ _) as [img|] eqn:Himg.
    + simpl. split_and!; try done. right. exists c.
      rewrite Hcall, Hstep. split_and!; try done.
      unfold annotate_frame in Himg.
      by destruct (forallb _ _).
    + simpl. split_and!; try done. right. exists c.
      rewrite Hcall, Hstep. split_and!; try done.
      right. split_and!; try done. unfold annotate_frame in Himg.
      by destruct (forallb _ _).
  - simpl. split_and!; try done. right. exists c.
    rewrite Hcall, Hstep. split_and!; try done. by left.
Qed.

(** *** The entry zones the manager names *)

Lemma count_crossing_keys zo zi tid (c : gmap nat (gmap nat (gset Z)))
    zo' row' zi' :
  count_crossing zo zi tid c !! zo' = Some row' ->
  is_Some (row' !! zi') ->
  zi' = zi \/ exists row, c !! zo' = Some row /\ is_Some (row !! zi').
Proof.
  unfold count_crossing, setdefault.
  destruct (decide (zo' = zo)) as [->|Hne].
  - rewrite lookup_insert_eq. intros [= <-].
    destruct (decide (zi' = zi)) as [->|Hzi]; [by left|].
    rewrite lookup_insert_ne by done. intros Hrow. right.
    destruct (c !! zo) as [row|] eqn:Hc.
    + rewrite Hc in Hrow. simpl in Hrow. exists row. split; [done|].
      destruct (row !! zi); [done|]. by rewrite lookup_insert_ne in Hrow.
    + rewrite lookup_insert_eq in Hrow. simpl in Hrow.
      rewrite lookup_empty in Hrow. rewrite lookup_insert_ne in Hrow by done.
      rewrite lookup_empty in Hrow. by destruct Hrow.
  - rewrite lookup_insert_ne by done. intros Hrow' Hzi. right. exists row'.
    split; [|done]. destruct (c !! zo); [done|].
    by rewrite lookup_insert_ne in Hrow'.
Qed.

Lemma exit_step_zones_below n t zo tid (m : DetectionsManager T) :
  zones_below n m -> zones_below n (exit_step t zo tid m).
Proof.
  intros [Hrec Hcounts]. unfold exit_step.
  destruct (tracker_entry_info m !! tid) as [[[zi te] vt]|] eqn:Hopen;
    [|by split].
  split; simpl.
  - intros tid' r Hr. apply lookup_delete_Some in Hr as [_ Hr]. by eapply Hrec.
  - intros zo' row' zi' Hrow' Hzi'.
    destruct (count_crossing_keys _ _ _ _ _ _ _ Hrow' Hzi')
      as [->|(row & Hrow & Hzi)].
    + exact (Hrec _ _ Hopen).
    + by eapply Hcounts.
Qed.

Lemma exit_phase_zones_below n t outs (m : DetectionsManager T) :
  zones_below n m -> zones_below n (exit_phase t outs m).
Proof.
  unfold exit_phase. apply (for_each_inv (zones_below n)).
  intros out s _. unfold exit_zone. apply (for_each_inv (zones_below n)).
  intros tid s0 _. apply exit_step_zones_below.
Qed.

Lemma entry_phase_zones_below n t ins (m : DetectionsManager T) :
  length ins <= n -> zones_below n m ->
  zones_below n (after (entry_phase t ins m)).
Proof.
  intros Hlen [Hrec Hcounts]. split.
  - intros tid r Hr.
    apply LedgerFacts.entry_phase_new_zone in Hr as [Hr|(d & Hd & _)].
    + by eapply Hrec.
    + apply lookup_lt_Some in Hd. lia.
  - pose proof (JavatFacts.entry_phase_same_log t ins m) as (_ & -> & _).
    exact Hcounts.
Qed.

Lemma step_zones_below n (m : DetectionsManager T) c :
  length (call_in c) <= n -> zones_below n m -> zones_below n (step m c).
Proof.
  intros Hlen Hm. rewrite JavatFacts.step_unfold.
  destruct (py_truediv (call_time c) (fps m)) as [t|]; [|done].
  pose proof (entry_phase_zones_below n t (call_in c) m Hlen Hm) as Hentry.
  destruct (entry_phase t (call_in c) m) as [m1|e m1]; simpl in Hentry;
    [|done].
  by apply exit_phase_zones_below.
Qed.

Lemma palette_fits (self : VideoProcessor T zone bytetrack) :
  zone_pairs self <= length COLORS ->
  zones_below (length COLORS) (detections_manager self) ->
  forallb (fun i => i <? length COLORS) (palette_indices self) = true.
Proof.
  intros Hpairs [_ Hcounts]. apply forallb_forall. intros i Hi.
  apply Nat.ltb_lt. unfold palette_indices in Hi.
  apply in_app_or in Hi as [Hi|Hi].
  - apply in_seq in Hi. unfold zone_pairs in Hpairs. lia.
  - apply in_flat_map in Hi as (zo & _ & Hi).
    destruct (counts (detections_manager self) !! zo) as [row|] eqn:Hrow;
      [|done].
    apply in_map_iff in Hi as ([zi cell] & <- & Hcell).
    apply list_elem_of_In, elem_of_map_to_list in Hcell.
    eapply Hcounts; [exact Hrow | by eexists].
Qed.

Lemma palette_overflows (self : VideoProcessor T zone bytetrack) :
  length COLORS < zone_pairs self ->
  forallb (fun i => i <? length COLORS) (palette_indices self) = false.
Proof.
  intros Hpairs. apply not_true_is_false. intros Hall.
  rewrite forallb_forall in Hall.
  specialize (Hall (length COLORS)). rewrite Nat.ltb_irrefl in Hall.
  apply Bool.diff_false_true, Hall. unfold palette_indices.
  apply in_or_app. left. apply in_seq. unfold zone_pairs in Hpairs. lia.
Qed.

(** *** What [process_frame] does *)

(** X18.  When the tracked detections have one tracker id and one
    class per box and every zone answers with one flag per detection,
    the loop over [zip(self.zones_in, self.zones_out)] raises nothing
    and builds as many entry detections and exit detections as the
    shorter of the two zone lists has zones: a zone without a partner
    is never asked.  Every detections object built lists tracker ids
    of the frame in their order, and carries the vehicle types the
    dictionary gives these ids, position by position. *)
Theorem zones_are_paired types (det : Boxes box) (zi zo : list zone) :
  consistent det ->
  (forall z, length (trigger vision z (with_types types det)) =
             length (xyxy det)) ->
  exists ins outs,
    split_zones vision (with_types types det) (zip zi zo) = Some (ins, outs) /\
    length ins = min (length zi) (length zo) /\
    length outs = min (length zi) (length zo) /\
    Forall (fun d => tracker_id d `sublist_of` tracker_id (rows det) /\
                     typed d /\ types_follow types d) (ins ++ outs).
Proof.
  intros Hdet Htrigger.
  destruct (split_zones_exist types det (zip zi zo) Hdet Htrigger)
    as [[ins outs] Hsplit].
  exists ins, outs. split; [done|].
  destruct (split_zones_rows _ _ _ _ _ Hsplit) as (Hins & Houts & Hall).
  rewrite length_zip in Hins, Houts. done.
Qed.

Lemma process_frame_splits (self : VideoProcessor T zone bytetrack) frame :
  well_behaved vision ->
  let tracked :=
    (update_with_detections vision (tracker self) (predict vision frame)).2 in
  forall types,
    split_zones vision (with_types types tracked)
                (zip (zones_in self) (zones_out self)) <> None.
Proof.
  intros [Hconsistent Htrigger] tracked types Hnone.
  destruct (split_zones_exist types tracked
              (zip (zones_in self) (zones_out self))) as [both Hsome].
  - apply Hconsistent.
  - intros z. exact (Htrigger z (with_types types tracked)).
  - congruence.
Qed.

Lemma update_call_typed (m : DetectionsManager T) c t :
  py_truediv (call_time c) (fps m) = Some t ->
  Forall typed (call_in c) ->
  raised (update_call m c) = None.
Proof.
  intros Ht Htyped. unfold update_call, update. rewrite Ht.
  pose proof (LedgerFacts.entry_zones_typed t (call_in c) 0 m Htyped) as Hentry.
  unfold entry_phase, enumerate.
  by destruct (try_each (entry_zone t) (enumerate_from 0 (call_in c)) m).
Qed.

Lemma try_each_raises {A S : Type} (P : exn -> Prop)
    (body : A -> S -> result S) (l : list A) :
  (forall x s e, raised (body x s) = Some e -> P e) ->
  forall s e, raised (try_each body l s) = Some e -> P e.
Proof.
  intros Hbody. induction l as [|x l IH]; intros s e; simpl; [done|].
  pose proof (Hbody x s) as Hx.
  destruct (body x s) as [s'|e' s']; simpl in *; [apply IH | apply Hx].
Qed.

Lemma update_call_raises (m : DetectionsManager T) c e :
  raised (update_call m c) = Some e ->
  match py_truediv (call_time c) (fps m) with
  | Some _ => e = IndexError
  | None => e = ZeroDivisionError
  end.
Proof.
  unfold update_call, update.
  destruct (py_truediv (call_time c) (fps m)) as [t|]; [|by intros [= <-]].
  pose proof (try_each_raises (fun e => e = IndexError) (entry_zone t)
                (enumerate (call_in c))) as Hentry.
  unfold entry_phase.
  destruct (try_each (entry_zone t) (enumerate (call_in c)) m) as [m1|e1 m1]
    eqn:Hphase; [done|].
  simpl. intros [= <-]. apply (Hentry) with (s := m); [|by rewrite Hphase].
  intros out s e. unfold entry_zone.
  apply (try_each_raises (fun e => e = IndexError)).
  intros [idx tid] s0 e0. unfold entry_step.
  destruct (tracker_entry_info s0 !! tid); [done|].
  destruct (vehicle_type_at out.2 idx); [done|]. by intros [= <-].
Qed.

Lemma process_frame_annotated self frame ft t :
  well_behaved vision ->
  zone_pairs self <= length COLORS ->
  zones_below (length COLORS) (detections_manager self) ->
  py_truediv ft (fps (detections_manager self)) = Some t ->
  exists self' annotated_frame,
    process_frame vision self frame ft = Annotated self' annotated_frame /\
    zone_pairs self' = zone_pairs self /\
    zones_below (length COLORS) (detections_manager self') /\
    fps (detections_manager self') = fps (detections_manager self).
Proof.
  intros Hvision Hpairs Hbelow Ht.
  destruct (process_frame_call self frame ft)
    as (Hzi & Hzo & _ & [(Hsplit & _)|(c & Htime & Hlen & Htyped & Hm & Hr)]).
  { by apply process_frame_splits in Hsplit. }
  assert (raised (update_call (detections_manager self) c) = None) as Hret.
  { apply (update_call_typed _ _ t); [by rewrite Htime|].
    eapply Forall_impl; [exact Htyped|]. by intros d [? _]. }
  set (r := process_frame vision self frame ft) in *.
  assert (zone_pairs (processor_after r) = zone_pairs self) as Hsame.
  { unfold zone_pairs. by rewrite Hzi, Hzo. }
  assert (zones_below (length COLORS) (detections_manager (processor_after r)))
    as Hbelow'.
  { rewrite Hm. apply step_zones_below; [lia | done]. }
  assert (fps (detections_manager (processor_after r)) =
          fps (detections_manager self)) as Hfps.
  { rewrite Hm. apply JavatFacts.step_fps. }
  destruct r as [self' img|e self']; cbn [processor_after] in *.
  - by exists self', img.
  - destruct Hr as [Hr|(_ & _ & Hr)]; [congruence|].
    rewrite palette_fits in Hr; [done | lia | done].
Qed.

(** X19.  With well-behaved detections, at most as many zone pairs as
    [COLORS] has colours, a manager that names no entry zone beyond
    the palette, and a frame time the frame rate divides,
    [process_frame] returns the annotated frame; the manager it
    leaves names no entry zone beyond the palette either, so that the
    next frame is in the same position. *)
Theorem frame_is_annotated self frame ft t :
  well_behaved vision ->
  zone_pairs self <= length COLORS ->
  zones_below (length COLORS) (detections_manager self) ->
  py_truediv ft (fps (detections_manager self)) = Some t ->
  exists self' annotated_frame,
    process_frame vision self frame ft = Annotated self' annotated_frame /\
    zone_pairs self' = zone_pairs self /\
    zones_below (length COLORS) (detections_manager self').
Proof.
  intros Hvision Hpairs Hbelow Ht.
  destruct (process_frame_annotated self frame ft t Hvision Hpairs Hbelow Ht)
    as (self' & img & ? & ? & ? & _).
  by exists self', img.
Qed.

(** X20.  With more zone pairs than [COLORS] has colours,
    [process_frame] never returns a frame: whatever else happens,
    [annotate_frame] reads the palette out of range.  The exception
    is an [IndexError] unless the division by the frame rate failed
    first; [process_video], given a video with at least one frame,
    raises on its first frame, before any frame is written or shown
    and before the CSV file is written. *)
Theorem more_zone_pairs_than_colours self frame ft :
  length COLORS < zone_pairs self ->
  (exists e self',
     process_frame vision self frame ft = Failed e self' /\
     (is_Some (py_truediv ft (fps (detections_manager self))) ->
      e = IndexError)) /\
  (forall of_int quit frames,
     let r := process_video vision of_int quit self (frame :: frames) in
     raised r <> None /\ frames_out (after r) = [] /\
     csv_rows (after r) = None).
Proof.
  intros Hpairs.
  assert (forall ft, exists e self',
     process_frame vision self frame ft = Failed e self' /\
     (is_Some (py_truediv ft (fps (detections_manager self))) ->
      e = IndexError)) as Hframe.
  { clear ft. intros ft.
    destruct (process_frame_call self frame ft)
      as (Hzi & Hzo & _ & [(_ & Hr & _)|(c & Htime & _ & _ & _ & Hr)]).
    { rewrite Hr. by eexists _, _. }
    set (r := process_frame vision self frame ft) in *.
    assert (zone_pairs (processor_after r) = zone_pairs self) as Hsame.
    { unfold zone_pairs. by rewrite Hzi, Hzo. }
    destruct r as [self' img|e self']; cbn [processor_after] in *.
    - destruct Hr as [_ Hr]. rewrite palette_overflows in Hr; [done | lia].
    - exists e, self'. split; [done|]. intros [t Ht].
      destruct Hr as [Hr|(-> & _)]; [|done].
      apply update_call_raises in Hr. by rewrite Htime, Ht in Hr. }
  split; [apply Hframe|].
  intros of_int quit frames. unfold process_video. simpl.
  destruct (Hframe (of_int 0)) as (e & self' & -> & _). done.
Qed.

(** *** The vehicle types *)

Lemma entry_phase_types types t ins (m : DetectionsManager T) tid r :
  Forall (types_follow types) ins ->
  tracker_entry_info (after (entry_phase t ins m)) !! tid = Some r ->
  tracker_entry_info m !! tid = Some r \/ r.2 = type_of types tid.
Proof.
  intros Hins. unfold entry_phase. revert r.
  apply (try_each_inv
           (fun s => forall r, tracker_entry_info s !! tid = Some r ->
              tracker_entry_info m !! tid = Some r \/ r.2 = type_of types tid));
    [|by left].
  intros [z d] s Hzone Hs. unfold entry_zone. simpl.
  apply elem_of_enumerate_from in Hzone.
  rewrite Forall_forall in Hins. specialize (Hins d Hzone).
  apply (try_each_inv
           (fun s => forall r, tracker_entry_info s !! tid = Some r ->
              tracker_entry_info m !! tid = Some r \/ r.2 = type_of types tid));
    [|done].
  intros [idx tid0] s0 Hobs Hs0 r Hr.
  apply JavatFacts.entry_step_lookup in Hr
    as [Hr|(-> & _ & vt & Hvt & ->)]; [by apply Hs0|].
  right. apply LedgerFacts.enumerate_lookup in Hobs.
  rewrite (Hins _ _ Hobs) in Hvt. by injection Hvt as <-.
Qed.

Lemma step_types types (m : DetectionsManager T) c :
  Forall (types_follow types) (call_in c) ->
  (forall tid r, tracker_entry_info (step m c) !! tid = Some r ->
     tracker_entry_info m !! tid = Some r \/ r.2 = type_of types tid) /\
  exists new,
    events (step m c) = events m ++ new /\
    Forall (fun e =>
      (exists zi te, tracker_entry_info m !! Id e =
                       Some (zi, te, Tipo_vehiculo e)) \/
      Tipo_vehiculo e = type_of types (Id e)) new.
Proof.
  intros Hins. rewrite JavatFacts.step_unfold.
  destruct (py_truediv (call_time c) (fps m)) as [t|].
  2:{ split; [by left|]. exists []. by rewrite app_nil_r. }
  pose proof (fun tid r => entry_phase_types types t (call_in c) m tid r Hins)
    as Hentry.
  pose proof (JavatFacts.entry_phase_same_log t (call_in c) m) as (Hev & _).
  destruct (entry_phase t (call_in c) m) as [m1|e m1]; simpl in *.
  2:{ split; [done|]. exists []. by rewrite app_nil_r. }
  split.
  - intros tid r Hr. by apply JavatFacts.exit_phase_lookup_sub, Hentry in Hr.
  - destruct (JavatFacts.exit_phase_events t (call_out c) m1)
      as (new & -> & Hnew).
    exists new. rewrite Hev. split; [done|].
    eapply Forall_impl; [exact Hnew|]. intros e (_ & _ & Hrec).
    apply Hentry in Hrec as [Hrec|Hrec]; [left; eauto | by right].
Qed.

Lemma process_frame_types self frame ft :
  let self' := processor_after (process_frame vision self frame ft) in
  let types := tracker_id_to_vehicle_type self' in
  let m := detections_manager self in
  (forall tid r,
     tracker_entry_info (detections_manager self') !! tid = Some r ->
     tracker_entry_info m !! tid = Some r \/ r.2 = type_of types tid) /\
  exists new,
    events (detections_manager self') = events m ++ new /\
    Forall (fun e =>
      (exists zi te, tracker_entry_info m !! Id e =
                       Some (zi, te, Tipo_vehiculo e)) \/
      Tipo_vehiculo e = type_of types (Id e)) new.
Proof.
  destruct (process_frame_call self frame ft)
    as (_ & _ & _ & [(_ & _ & Hm)|(c & _ & _ & Htyped & Hm & _)]); simpl;
    rewrite Hm.
  - split; [by left|]. exists []. by rewrite app_nil_r.
  - apply step_types. eapply Forall_impl; [exact Htyped|]. by intros d [_ ?].
Qed.

(** X21.  A frame gives vehicle types from the dictionary only: every
    record that is open after [process_frame] and was not open before
    holds the type that [self.tracker_id_to_vehicle_type] has for its
    tracker id once the frame's detections are learned (["Desconocido"]
    when it has none), and every event the frame appends holds the
    type of the record it closes, which is such a type or that of a
    record open before the frame.  This holds however the call ends. *)
Theorem frame_types_come_from_the_dictionary self frame ft :
  let self' := processor_after (process_frame vision self frame ft) in
  let types := tracker_id_to_vehicle_type self' in
  let m := detections_manager self in
  (forall tid r,
     tracker_entry_info (detections_manager self') !! tid = Some r ->
     tracker_entry_info m !! tid = Some r \/ r.2 = type_of types tid) /\
  exists new,
    events (detections_manager self') = events m ++ new /\
    Forall (fun e =>
      (exists zi te, tracker_entry_info m !! Id e =
                       Some (zi, te, Tipo_vehiculo e)) \/
      Tipo_vehiculo e = type_of types (Id e)) new.
Proof. apply process_frame_types. Qed.

Lemma original_types_labels raw b v :
  original_types vision raw !! b = Some v ->
  v = "unknown"%string \/ exists cls, names vision !! cls = Some v.
Proof.
  unfold original_types. revert v.
  apply (for_each_inv (fun orig => forall v, orig !! b = Some v ->
           v = "unknown"%string \/ exists cls, names vision !! cls = Some v)).
  2:{ intros v. by rewrite lookup_empty. }
  intros [i cls] orig _ Horig v. simpl.
  destruct (raw_xyxy raw !! i) as [box_key|]; [|by apply Horig].
  destruct (decide (b = box_key)) as [->|Hne].
  - rewrite lookup_insert_eq. intros [= <-].
    destruct (names vision !! cls) as [name|] eqn:Hname; simpl; eauto.
  - rewrite lookup_insert_ne by done. apply Horig.
Qed.

Lemma process_frame_learns self frame ft :
  let self' := processor_after (process_frame vision self frame ft) in
  let tracked :=
    (update_with_detections vision (tracker self) (predict vision frame)).2 in
  let before := tracker_id_to_vehicle_type self in
  let types := tracker_id_to_vehicle_type self' in
  (forall tid, is_Some (before !! tid) -> is_Some (types !! tid)) /\
  (forall tid v, types !! tid = Some v ->
     before !! tid = Some v \/
     (tid ∈ tracker_id (rows tracked) /\
      (v = "unknown"%string \/ exists cls, names vision !! cls = Some v))).
Proof.
  destruct (process_frame_call self frame ft) as (_ & _ & Htypes & _).
  simpl in *. rewrite Htypes. unfold learn_types.
  set (tracked := (update_with_detections vision (tracker self)
                     (predict vision frame)).2).
  set (orig := original_types vision (predict vision frame)).
  apply (for_each_inv (fun types =>
    (forall tid, is_Some (tracker_id_to_vehicle_type self !! tid) ->
                 is_Some (types !! tid)) /\
    (forall tid v, types !! tid = Some v ->
       tracker_id_to_vehicle_type self !! tid = Some v \/
       (tid ∈ tracker_id (rows tracked) /\
        (v = "unknown"%string \/ exists cls, names vision !! cls = Some v)))));
    [|by split; [|left]].
  intros [i tid0] types Hobs [Hkeeps Hnew]. simpl.
  destruct (xyxy tracked !! i) as [box_key|]; [|done].
  destruct (orig !! box_key) as [vehicle_type|] eqn:Horig; [|done].
  apply elem_of_enumerate_from in Hobs. split.
  - intros tid Htid. destruct (decide (tid = tid0)) as [->|Hne].
    + by rewrite lookup_insert_eq.
    + rewrite lookup_insert_ne by done. by apply Hkeeps.
  - intros tid v. destruct (decide (tid = tid0)) as [->|Hne].
    + rewrite lookup_insert_eq. intros [= <-]. right. split; [done|].
      by eapply original_types_labels.
    + rewrite lookup_insert_ne by done. apply Hnew.
Qed.

(** X22.  The dictionary of vehicle types never forgets a tracker id,
    and what a frame writes into it is a type of the model for a
    tracker id of that frame: a value of [self.model.names], or
    ["unknown"] for a class the model has no name for.  An id the
    frame does not list keeps its entry. *)
Theorem learned_types self frame ft :
  let self' := processor_after (process_frame vision self frame ft) in
  let tracked :=
    (update_with_detections vision (tracker self) (predict vision frame)).2 in
  let before := tracker_id_to_vehicle_type self in
  let types := tracker_id_to_vehicle_type self' in
  (forall tid, is_Some (before !! tid) -> is_Some (types !! tid)) /\
  (forall tid v, types !! tid = Some v ->
     before !! tid = Some v \/
     (tid ∈ tracker_id (rows tracked) /\
      (v = "unknown"%string \/ exists cls, names vision !! cls = Some v))).
Proof. apply process_frame_learns. Qed.

(** X28.  With well-behaved detections and a frame rate that does
    not divide the frame time (a frame rate of 0), [process_frame]
    raises [ZeroDivisionError] and leaves the manager as it was; the
    tracker has been advanced and the dictionary of vehicle types has
    learned the frame by then. *)
Theorem frame_rate_that_does_not_divide self frame ft :
  well_behaved vision ->
  py_truediv ft (fps (detections_manager self)) = None ->
  exists self',
    process_frame vision self frame ft = Failed ZeroDivisionError self' /\
    detections_manager self' = detections_manager self /\
    tracker self' =
      (update_with_detections vision (tracker self) (predict vision frame)).1 /\
    tracker_id_to_vehicle_type self' =
      learn_types (original_types vision (predict vision frame))
        (update_with_detections vision (tracker self) (predict vision frame)).2
        (tracker_id_to_vehicle_type self).
Proof.
  intros Hvision Ht.
  pose proof (process_frame_splits self frame Hvision) as Hsplit.
  unfold process_frame.
  destruct (update_with_detections vision (tracker self) (predict vision frame))
    as [tracker1 tracked]. cbn [fst snd] in *.
  set (types := learn_types (original_types vision (predict vision frame))
                            tracked (tracker_id_to_vehicle_type self)).
  specialize (Hsplit types).
  destruct (split_zones vision (with_types types tracked)
              (zip (zones_in self) (zones_out self))) as [[ins outs]|]; [|done].
  unfold update. rewrite Ht. by eexists.
Qed.

(** *** The loop of [process_video] *)

Lemma handled_S start n :
  handled start (S n) =
  if start mod 2 =? 0 then start :: handled (S start) n
  else handled (S start) n.
Proof.
  unfold handled. cbn [seq]. destruct (start mod 2 =? 0) eqn:Heven.
  - apply Nat.eqb_eq in Heven. by rewrite filter_cons_True by done.
  - apply Nat.eqb_neq in Heven. by rewrite filter_cons_False by done.
Qed.

Lemma handled_length start n :
  start mod 2 = 0 -> length (handled start n) = (n + 1) / 2.
Proof.
  revert start.
  cut (forall start, start mod 2 = 0 ->
         length (handled start n) = (n + 1) / 2 /\
         length (handled start (S n)) = (S n + 1) / 2).
  { intros Hboth start Hstart. by apply Hboth. }
  induction n as [|n IH]; intros start Hstart.
  { rewrite !handled_S, Hstart. done. }
  split; [by apply IH|].
  assert (S start mod 2 <> 0) as Hodd.
  { replace (S start) with (start + 1) by lia.
    rewrite Nat.Div0.add_mod, Hstart. simpl. lia. }
  assert (S (S start) mod 2 = 0) as Heven.
  { replace (S (S start)) with (start + 1 * 2) by lia.
    by rewrite Nat.Div0.mod_add. }
  rewrite handled_S, Hstart. cbn [Nat.eqb length].
  rewrite handled_S. apply Nat.eqb_neq in Hodd. rewrite Hodd.
  destruct (IH _ Heven) as [-> _].
  replace (S (S n) + 1) with (n + 1 + 1 * 2) by lia.
  rewrite Nat.div_add by lia. lia.
Qed.

Section Video.
Context (of_int : nat -> T).

Lemma frames_loop_inv (P : VideoProcessor T zone bytetrack -> Prop) quit :
  (forall n self frame,
     P self -> P (processor_after (process_frame vision self frame (of_int n)))) ->
  forall frames self n shown,
    P self -> P (after (frames_loop vision of_int quit self n frames shown)).1.
Proof.
  intros Hframe. induction frames as [|frame frames IH]; intros self n shown Hself;
    [done|].
  cbn [frames_loop]. destruct (negb (n mod 2 =? 0)); [by apply IH|].
  pose proof (Hframe n self frame Hself) as Hnext.
  destruct (process_frame vision self frame (of_int n)) as [self' img|e self'];
    [|done].
  simpl in Hnext. destruct quit as [pressed|]; [|by apply IH].
  destruct (pressed n); [done | by apply IH].
Qed.

Lemma frames_loop_calls quit frames : forall self n shown,
  let r := frames_loop vision of_int quit self n frames shown in
  exists calls more,
    detections_manager (after r).1 = run (detections_manager self) calls /\
    (after r).2 = shown ++ more /\
    length more <= length (handled n (length frames)) /\
    (raised r = None -> quit = None ->
       map call_time calls = map of_int (handled n (length frames)) /\
       length more = length calls).
Proof.
  induction frames as [|frame frames IH]; intros self n shown.
  { exists [], []. simpl. by rewrite app_nil_r. }
  cbn [frames_loop length]. rewrite handled_S.
  destruct (n mod 2 =? 0) eqn:Heven; cbn [negb]; [|apply IH].
  destruct (process_frame_call self frame (of_int n))
    as (_ & _ & _ & Hcall).
  destruct (process_frame vision self frame (of_int n)) as [self' img|e self'];
    cbn [processor_after] in Hcall.
  - destruct Hcall as [(_ & ? & _)|(c & Htime & _ & _ & Hm & _)]; [done|].
    assert (exists calls more,
      detections_manager
        (after (frames_loop vision of_int quit self' (S n) frames
                            (shown ++ [img]))).1 =
        run (detections_manager self) calls /\
      (after (frames_loop vision of_int quit self' (S n) frames
                          (shown ++ [img]))).2 = shown ++ more /\
      length more <= length (n :: handled (S n) (length frames)) /\
      (raised (frames_loop vision of_int quit self' (S n) frames
                           (shown ++ [img])) = None ->
       quit = None ->
       map call_time calls = map of_int (n :: handled (S n) (length frames)) /\
       length more = length calls)) as Hrest.
    { destruct (IH self' (S n) (shown ++ [img]))
        as (calls & more & Hrun & Hshown & Hlen & Hok).
      exists (c :: calls), (img :: more). split_and!.
      - simpl. by rewrite <- Hm.
      - by rewrite Hshown, <- app_assoc.
      - simpl. lia.
      - intros Hret Hquit. destruct (Hok Hret Hquit) as [Htimes Hsame].
        simpl. by rewrite Htimes, Htime, Hsame. }
    destruct quit as [pressed|]; [|exact Hrest].
    destruct (pressed n); [|exact Hrest].
    exists [c], [img]. simpl. split_and!; [done | done | lia | done].
  - destruct Hcall as [(_ & _ & Hm)|(c & _ & _ & _ & Hm & _)].
    + exists [], []. simpl. rewrite app_nil_r. split_and!; [done|done|lia|done].
    + exists [c], []. simpl. rewrite app_nil_r. split_and!; [done|done|lia|done].
Qed.

(** X23.  [process_video] handles the frames with an even number
    only, so it never writes or shows more than half of the frames,
    rounded up.  When it writes to a file and returns, it has written
    exactly that many annotated frames and then the CSV file with
    the events of the manager, which has been called once per even
    frame number, in order, with the frame number as frame time. *)
Theorem every_other_frame self frames quit :
  let r := process_video vision of_int quit self frames in
  length (frames_out (after r)) <= (length frames + 1) / 2 /\
  (quit = None -> raised r = None ->
   length (frames_out (after r)) = (length frames + 1) / 2 /\
   csv_rows (after r) =
     Some (events (detections_manager (processor (after r)))) /\
   exists calls,
     map call_time calls = map of_int (handled 0 (length frames)) /\
     detections_manager (processor (after r)) =
       run (detections_manager self) calls).
Proof.
  unfold process_video.
  destruct (frames_loop_calls quit frames self 0 [])
    as (calls & more & Hrun & Hshown & Hlen & Hok).
  rewrite handled_length in Hlen by done.
  destruct (frames_loop vision of_int quit self 0 frames [])
    as [[self' shown]|e [self' shown]]; simpl in *; subst shown.
  - split; [done|]. intros Hquit _. destruct (Hok eq_refl Hquit) as [Htimes Hsame].
    split_and!; [|done|by exists calls].
    by rewrite Hsame, <- (length_map call_time), Htimes, length_map,
      handled_length.
  - by split.
Qed.

Lemma frames_loop_returns quit frames : forall self n shown,
  well_behaved vision ->
  zone_pairs self <= length COLORS ->
  zones_below (length COLORS) (detections_manager self) ->
  (forall k, is_Some (py_truediv (of_int k) (fps (detections_manager self)))) ->
  raised (frames_loop vision of_int quit self n frames shown) = None.
Proof.
  intros self n shown Hvision. revert self n shown.
  induction frames as [|frame frames IH];
    intros self n shown Hpairs Hbelow Hdiv; [done|].
  cbn [frames_loop]. destruct (negb (n mod 2 =? 0)); [by apply IH|].
  destruct (Hdiv n) as [t Ht].
  destruct (process_frame_annotated self frame (of_int n) t)
    as (self' & img & -> & Hpairs' & Hbelow' & Hfps); try done.
  assert (raised (frames_loop vision of_int quit self' (S n) frames
                              (shown ++ [img])) = None) as Hrest.
  { apply IH; [lia | done |]. intros k. rewrite Hfps. apply Hdiv. }
  destruct quit as [pressed|]; [|done]. by destruct (pressed n).
Qed.

(** X24.  With well-behaved detections, at most as many zone pairs
    as [COLORS] has colours, a manager that names no entry zone
    beyond the palette (a new one names none), and a frame rate that
    divides every frame number, [process_video] raises nothing on any
    video: it returns after writing the CSV file. *)
Theorem video_is_processed self frames quit :
  well_behaved vision ->
  zone_pairs self <= length COLORS ->
  zones_below (length COLORS) (detections_manager self) ->
  (forall k, is_Some (py_truediv (of_int k) (fps (detections_manager self)))) ->
  exists p,
    process_video vision of_int quit self frames = Ok p /\
    csv_rows p = Some (events (detections_manager (processor p))).
Proof.
  intros Hvision Hpairs Hbelow Hdiv. unfold process_video.
  pose proof (frames_loop_returns quit frames self 0 [] Hvision Hpairs Hbelow
                Hdiv) as Hret.
  destruct (frames_loop vision of_int quit self 0 frames [])
    as [[self' shown]|e [self' shown]]; [|done].
  by eexists.
Qed.

Lemma type_of_label types tid :
  (forall tid v, types !! tid = Some v -> label vision v) ->
  label vision (type_of types tid).
Proof.
  intros Htypes. unfold type_of.
  destruct (types !! tid) as [v|] eqn:Hv; simpl; [by eapply Htypes | by left].
Qed.

Lemma process_frame_labelled self frame ft :
  labelled vision self ->
  labelled vision (processor_after (process_frame vision self frame ft)).
Proof.
  intros (Htypes & Hrecords & Hevents).
  destruct (process_frame_learns self frame ft) as [_ Hlearn].
  destruct (process_frame_types self frame ft) as [Hrec (new & Hev & Hnew)].
  simpl in *.
  assert (forall tid v,
    tracker_id_to_vehicle_type
      (processor_after (process_frame vision self frame ft)) !! tid = Some v ->
    label vision v) as Htypes'.
  { intros tid v Hv. apply Hlearn in Hv as [Hv|[_ Hv]]; [by eapply Htypes|].
    by right. }
  split_and!; [done| |].
  - intros tid r Hr. apply Hrec in Hr as [Hr| ->]; [by eapply Hrecords|].
    by apply type_of_label.
  - rewrite Hev. apply Forall_app. split; [done|].
    eapply Forall_impl; [exact Hnew|].
    intros e [(zi & te & Hr)| ->]; [exact (Hrecords _ _ Hr)|].
    by apply type_of_label.
Qed.

(** X25.  On a new processor, whatever the video and however
    [process_video] ends, every vehicle type in the events (the last
    column of the CSV file) is a value of [self.model.names],
    ["unknown"] or ["Desconocido"]. *)
Theorem csv_types_are_labels self frames quit rot hor day rate :
  tracker_id_to_vehicle_type self = ∅ ->
  detections_manager self = init rot hor day rate ->
  let p := after (process_video vision of_int quit self frames) in
  Forall (fun e => label vision (Tipo_vehiculo e))
         (events (detections_manager (processor p))).
Proof.
  intros Htypes Hm.
  assert (labelled vision self) as Hself.
  { unfold labelled. rewrite Htypes, Hm. simpl. split_and!; [| |done].
    - intros tid v. by rewrite lookup_empty.
    - intros tid r. by rewrite lookup_empty. }
  pose proof (frames_loop_inv (labelled vision) quit
                (fun n self frame => process_frame_labelled self frame (of_int n))
                frames self 0 [] Hself) as (_ & _ & Hevents).
  unfold process_video.
  by destruct (frames_loop vision of_int quit self 0 frames [])
    as [[self' shown]|e [self' shown]].
Qed.

(** *** The times a video gives *)

Lemma stamped_later rate bound bound' k (t : T) :
  bound <= bound' -> stamped of_int rate bound k t ->
  stamped of_int rate bound' k t.
Proof. intros Hle (Hk & Heven & Ht). split_and!; [lia | done | done]. Qed.

Lemma on_the_grid_later rate bound bound' (m : DetectionsManager T) :
  bound <= bound' -> on_the_grid of_int rate bound m ->
  on_the_grid of_int rate bound' m.
Proof.
  intros Hle (Hfps & Hrec & Hev). split_and!; [done| |].
  - intros tid r Hr. destruct (Hrec _ _ Hr) as [k Hk]. exists k.
    by eapply stamped_later.
  - eapply Forall_impl; [exact Hev|].
    intros e (k_in & k_out & Hk & Hin & Hout). exists k_in, k_out.
    split_and!; [done | by eapply stamped_later | by eapply stamped_later].
Qed.

Lemma step_on_the_grid rate n (m : DetectionsManager T) c :
  n mod 2 = 0 -> call_time c = of_int n ->
  on_the_grid of_int rate n m -> on_the_grid of_int rate (S n) (step m c).
Proof.
  intros Heven Htime Hm.
  pose proof (on_the_grid_later rate n (S n) m ltac:(lia) Hm)
    as (Hfps & Hrec & Hev).
  destruct Hm as (_ & Hrec_n & _).
  destruct (py_truediv (call_time c) (fps m)) as [t|] eqn:Ht.
  2:{ rewrite JavatFacts.step_unfold, Ht. by split_and!. }
  assert (stamped of_int rate (S n) n t) as Hn.
  { split_and!; [lia | done |]. by rewrite <- Htime, <- Hfps. }
  split_and!.
  - by rewrite JavatFacts.step_fps.
  - intros tid r Hr. apply JavatFacts.step_records in Hr as [Hr|(_ & _ & Hr)].
    + by eapply Hrec.
    + exists n. rewrite Ht in Hr. by injection Hr as <-.
  - destruct (JavatFacts.step_events m c t Ht) as (new & -> & Hnew).
    apply Forall_app. split; [done|].
    eapply Forall_impl; [exact Hnew|].
    intros e (Hexit & _ & [(vt & Hr)|(_ & _ & Hentry)]).
    + destruct (Hrec_n _ _ Hr) as (k & Hk & Hk_even & Hk_t). simpl in *.
      exists k, n. rewrite Hexit.
      split_and!; [lia | | done]. split_and!; [lia | done | done].
    + exists n, n. rewrite Hexit, Hentry. by split_and!.
Qed.

Lemma frames_loop_on_the_grid rate quit frames : forall self n shown,
  on_the_grid of_int rate n (detections_manager self) ->
  on_the_grid of_int rate (n + length frames)
    (detections_manager
       (after (frames_loop vision of_int quit self n frames shown)).1).
Proof.
  induction frames as [|frame frames IH]; intros self n shown Hself.
  { simpl. by rewrite Nat.add_0_r. }
  cbn [frames_loop length]. replace (n + S (length frames))
    with (S n + length frames) by lia.
  destruct (n mod 2 =? 0) eqn:Heven; cbn [negb].
  2:{ apply IH. eapply on_the_grid_later; [|exact Hself]. lia. }
  apply Nat.eqb_eq in Heven.
  assert (on_the_grid of_int rate (S n)
            (detections_manager
               (processor_after (process_frame vision self frame (of_int n)))))
    as Hnext.
  { destruct (process_frame_call self frame (of_int n))
      as (_ & _ & _ & [(_ & _ & ->)|(c & Htime & _ & _ & -> & _)]).
    - eapply on_the_grid_later; [|exact Hself]. lia.
    - by apply step_on_the_grid. }
  destruct (process_frame vision self frame (of_int n)) as [self' img|e self'];
    cbn [processor_after] in Hnext.
  - destruct quit as [pressed|]; [|by apply IH].
    destruct (pressed n); [|by apply IH].
    eapply on_the_grid_later; [|exact Hnext]. lia.
  - eapply on_the_grid_later; [|exact Hnext]. lia.
Qed.

(** X27.  On a new processor, whatever the video and however
    [process_video] ends, the entry time and the exit time of every
    event are the quotients by the frame rate of two even frame
    numbers of the video, the one of the entry not after the one of
    the exit: odd frames leave no trace, and the times are known to
    within two frames. *)
Theorem times_are_even_frame_numbers self frames quit rot hor day rate :
  detections_manager self = init rot hor day rate ->
  let p := after (process_video vision of_int quit self frames) in
  Forall (fun e => exists k_in k_out,
            k_in <= k_out /\
            stamped of_int rate (length frames) k_in (Tiempo_Entrada e) /\
            stamped of_int rate (length frames) k_out (Tiempo_Salida e))
         (events (detections_manager (processor p))).
Proof.
  intros Hm.
  assert (on_the_grid of_int rate 0 (detections_manager self)) as Hself.
  { rewrite Hm. split_and!; [done| |by constructor].
    intros tid r Hr. simpl in Hr. by rewrite lookup_empty in Hr. }
  pose proof (frames_loop_on_the_grid rate quit frames self 0 [] Hself)
    as (_ & _ & Hev).
  unfold process_video.
  by destruct (frames_loop vision of_int quit self 0 frames [])
    as [[self' shown]|e [self' shown]].
Qed.

(** *** The order of the events of a video *)

Lemma ascending_cons (n : nat) (ks : list nat) :
  ascending ks -> Forall (fun k => n <= k) ks -> ascending (n :: ks).
Proof.
  intros Hks Hbound a b x y Hab Ha Hb.
  destruct a as [|a], b as [|b]; simpl in *; try lia.
  - injection Ha as <-. by injection Hb as <-.
  - injection Ha as <-. rewrite Forall_lookup in Hbound. by eapply Hbound.
  - eapply Hks; [|done..]. lia.
Qed.

Lemma frames_loop_frame_numbers quit frames : forall self n shown,
  exists calls ks,
    detections_manager
      (after (frames_loop vision of_int quit self n frames shown)).1 =
      run (detections_manager self) calls /\
    map call_time calls = map of_int ks /\
    ascending ks /\
    Forall (fun k => n <= k < n + length frames /\ k mod 2 = 0) ks.
Proof.
  induction frames as [|frame frames IH]; intros self n shown.
  { exists [], []. split_and!; [done | done | by intros a b x y _ ? | done]. }
  cbn [frames_loop length].
  destruct (n mod 2 =? 0) eqn:Heven; cbn [negb].
  2:{ destruct (IH self (S n) shown) as (calls & ks & Hrun & Htimes & Hasc & Hks).
      exists calls, ks. split_and!; try done.
      eapply Forall_impl; [exact Hks|]. intros k. simpl. lia. }
  apply Nat.eqb_eq in Heven.
  assert (forall c, call_time c = of_int n ->
     exists calls ks,
       step (detections_manager self) c = run (detections_manager self) calls /\
       map call_time calls = map of_int ks /\
       ascending ks /\
       Forall (fun k => n <= k < n + S (length frames) /\ k mod 2 = 0) ks)
    as Hone.
  { intros c Htime. exists [c], [n].
    split_and!; [done | simpl; by rewrite Htime | |].
    - apply ascending_cons; [by intros a b x y _ ? | done].
    - apply Forall_singleton. split; [lia | done]. }
  assert (exists calls ks,
     detections_manager self = run (detections_manager self) calls /\
     map call_time calls = map of_int ks /\
     ascending ks /\
     Forall (fun k => n <= k < n + S (length frames) /\ k mod 2 = 0) ks)
    as Hnone.
  { exists [], []. split_and!; [done | done | by intros a b x y _ ? | done]. }
  destruct (process_frame_call self frame (of_int n))
    as (_ & _ & _ & Hcall).
  destruct (process_frame vision self frame (of_int n)) as [self' img|e self'];
    cbn [processor_after] in Hcall.
  - destruct Hcall as [(_ & ? & _)|(c & Htime & _ & _ & Hm & _)]; [done|].
    assert (exists calls ks,
      detections_manager
        (after (frames_loop vision of_int quit self' (S n) frames
                            (shown ++ [img]))).1 =
        run (detections_manager self) calls /\
      map call_time calls = map of_int ks /\
      ascending ks /\
      Forall (fun k => n <= k < n + S (length frames) /\ k mod 2 = 0) ks)
      as Hrest.
    { destruct (IH self' (S n) (shown ++ [img]))
        as (calls & ks & Hrun & Htimes & Hasc & Hks).
      exists (c :: calls), (n :: ks). split_and!.
      - simpl. by rewrite <- Hm.
      - simpl. by rewrite Htimes, Htime.
      - apply ascending_cons; [done|].
        eapply Forall_impl; [exact Hks|]. intros k. simpl. lia.
      - apply Forall_cons. split; [split; [lia | done]|].
        eapply Forall_impl; [exact Hks|]. intros k. simpl. lia. }
    destruct quit as [pressed|]; [|exact Hrest].
    destruct (pressed n); [|exact Hrest].
    simpl. rewrite Hm. by apply Hone.
  - simpl. destruct Hcall as [(_ & _ & ->)|(c & Htime & _ & _ & -> & _)];
      [exact Hnone | by apply Hone].
Qed.

(** X26.  On a new processor, in every arithmetic, whatever the
    video and however [process_video] ends, the events are in the
    order of the frames that closed them: along the log, the exit
    times are the quotients by the frame rate of even frame numbers
    of the video that never go back. *)
Theorem video_events_in_frame_order self frames quit rot hor day rate :
  detections_manager self = init rot hor day rate ->
  let p := after (process_video vision of_int quit self frames) in
  exists ks,
    Forall2 (fun e k => stamped of_int rate (length frames) k (Tiempo_Salida e))
            (events (detections_manager (processor p))) ks /\
    ascending ks.
Proof.
  intros Hm p. subst p.
  destruct (frames_loop_frame_numbers quit frames self 0 [])
    as (calls & ks & Hrun & Htimes & Hasc & Hks).
  assert (detections_manager
            (processor (after (process_video vision of_int quit self frames))) =
          run (init rot hor day rate) calls) as ->.
  { rewrite <- Hm, <- Hrun. unfold process_video.
    by destruct (frames_loop vision of_int quit self 0 frames [])
      as [[self' shown]|e [self' shown]]. }
  destruct (JavatFacts.new_manager_timed rot hor day rate calls)
    as (_ & _ & js & Hev & Hjs).
  assert (forall j c, calls !! j = Some c ->
            exists k, ks !! j = Some k /\ call_time c = of_int k) as Hnumber.
  { intros j c Hj.
    assert (map call_time calls !! j = Some (call_time c)) as Hjt.
    { change (map call_time calls) with (call_time <$> calls).
      by rewrite list_lookup_fmap, Hj. }
    rewrite Htimes in Hjt.
    change (map of_int ks) with (of_int <$> ks) in Hjt.
    rewrite list_lookup_fmap in Hjt.
    destruct (ks !! j) as [k|]; [|done]. exists k. split; [done|].
    by injection Hjt as <-. }
  exists ((fun j => default 0 (ks !! j)) <$> js). split.
  - apply Forall2_fmap_r. eapply Forall2_impl; [exact Hev|].
    intros e j (i & _ & _ & (c & Hj & Ht) & _).
    destruct (Hnumber j c Hj) as (k & Hk & Htime). simpl. rewrite Hk. simpl.
    rewrite Forall_lookup in Hks. destruct (Hks j k Hk) as [Hbound Heven].
    split_and!; [simpl in Hbound; lia | done | by rewrite <- Htime].
  - intros a b x y Hab Ha Hb.
    rewrite list_lookup_fmap in Ha, Hb.
    destruct (js !! a) as [ja|] eqn:Hja; [|done].
    destruct (js !! b) as [jb|] eqn:Hjb; [|done].
    injection Ha as <-. injection Hb as <-.
    destruct (Forall2_lookup_r _ _ _ _ _ Hev Hja)
      as (ea & _ & _ & _ & _ & (ca & Hca & _) & _).
    destruct (Forall2_lookup_r _ _ _ _ _ Hev Hjb)
      as (eb & _ & _ & _ & _ & (cb & Hcb & _) & _).
    destruct (Hnumber ja ca Hca) as (ka & Hka & _).
    destruct (Hnumber jb cb Hcb) as (kb & Hkb & _).
    rewrite Hka, Hkb. simpl. eapply (Hasc ja jb); [|done..].
    by eapply (Hjs a b).
Qed.

End Video.

End Frames.


(** *** The processor on the toy detector *)

Import Junction.

Lemma toy_well_behaved : well_behaved toy.
Proof.
  split.
  - intros state raw. unfold consistent. simpl. by rewrite !length_map.
  - intros z det. simpl. by rewrite length_map.
Qed.

Lemma new_manager_names_no_zone (rot hor day : string) (rate : Q) (n : nat) :
  zones_below n (init rot hor day rate).
Proof. split; intros ?; intros; simpl in *; by rewrite lookup_empty in *. Qed.

Lemma zones_are_paired_witness :
  exists ins outs,
    split_zones toy (with_types types_of_7 two_vehicles)
                (zip [1; 2] [3; 4; 5]) = Some (ins, outs) /\
    length ins = min (length [1; 2]) (length [3; 4; 5]) /\
    length outs = min (length [1; 2]) (length [3; 4; 5]) /\
    Forall (fun d => tracker_id d `sublist_of` tracker_id (rows two_vehicles) /\
                     typed d /\ types_follow types_of_7 d) (ins ++ outs).
Proof.
  apply (zones_are_paired toy types_of_7 two_vehicles [1; 2] [3; 4; 5]).
  - by vm_compute.
  - intros z. reflexivity.
Defined.

Lemma frame_is_annotated_witness :
  exists self' annotated_frame,
    process_frame toy junction [(7%Z, 1)] (of_int 0) =
      Annotated self' annotated_frame /\
    zone_pairs self' = zone_pairs junction /\
    zones_below (length COLORS) (detections_manager self').
Proof.
  apply (frame_is_annotated toy junction [(7%Z, 1)] (of_int 0) (of_int 0 / 30)%Q).
  - exact toy_well_behaved.
  - unfold zone_pairs. simpl. lia.
  - apply new_manager_names_no_zone.
  - reflexivity.
Defined.

Lemma more_zone_pairs_than_colours_witness :
  (exists e self',
     process_frame toy crowded [(7%Z, 1)] (of_int 0) = Failed e self' /\
     (is_Some (py_truediv (of_int 0) (fps (detections_manager crowded))) ->
      e = IndexError)) /\
  (forall of_int quit frames,
     let r := process_video toy of_int quit crowded ([(7%Z, 1)] :: frames) in
     raised r <> None /\ frames_out (after r) = [] /\
     csv_rows (after r) = None).
Proof.
  apply (more_zone_pairs_than_colours toy crowded [(7%Z, 1)] (of_int 0)).
  unfold zone_pairs. simpl. lia.
Defined.

Lemma every_other_frame_witness :
  let r := process_video toy of_int None junction drive_of_7 in
  length (frames_out (after r)) = (length drive_of_7 + 1) / 2 /\
  csv_rows (after r) =
    Some (events (detections_manager (processor (after r)))) /\
  exists calls,
    map call_time calls = map of_int (handled 0 (length drive_of_7)) /\
    detections_manager (processor (after r)) =
      run (detections_manager junction) calls.
Proof.
  apply (proj2 (every_other_frame toy of_int junction drive_of_7 None)).
  - reflexivity.
  - by vm_compute.
Defined.

Lemma video_is_processed_witness :
  exists p,
    process_video toy of_int None junction drive_of_7 = Ok p /\
    csv_rows p = Some (events (detections_manager (processor p))).
Proof.
  apply (video_is_processed toy of_int junction drive_of_7 None).
  - exact toy_well_behaved.
  - unfold zone_pairs. simpl. lia.
  - apply new_manager_names_no_zone.
  - intros k. by eexists.
Defined.

Lemma csv_types_are_labels_witness :
  Forall (fun e => label toy (Tipo_vehiculo e))
         (events (detections_manager
            (processor (after (process_video toy of_int None junction
                                             drive_of_7))))).
Proof.
  apply (csv_types_are_labels toy of_int junction drive_of_7 None
           "r1" "h2" "t" 30%Q); reflexivity.
Defined.

Lemma times_are_even_frame_numbers_witness :
  Forall (fun e => exists k_in k_out,
            k_in <= k_out /\
            stamped of_int 30%Q (length drive_of_7) k_in (Tiempo_Entrada e) /\
            stamped of_int 30%Q (length drive_of_7) k_out (Tiempo_Salida e))
         (events (detections_manager
            (processor (after (process_video toy of_int None junction
                                             drive_of_7))))).
Proof.
  apply (times_are_even_frame_numbers toy of_int junction drive_of_7 None
           "r1" "h2" "t" 30%Q).
  reflexivity.
Defined.

Lemma frame_rate_that_does_not_divide_witness :
  exists self',
    process_frame toy stalled [(7%Z, 1)] (of_int 0) =
      Failed ZeroDivisionError self' /\
    detections_manager self' = detections_manager stalled /\
    tracker self' =
      (update_with_detections toy (tracker stalled)
                              (predict toy [(7%Z, 1)])).1 /\
    tracker_id_to_vehicle_type self' =
      learn_types (original_types toy (predict toy [(7%Z, 1)]))
        (update_with_detections toy (tracker stalled)
                                (predict toy [(7%Z, 1)])).2
        (tracker_id_to_vehicle_type stalled).
Proof.
  apply (frame_rate_that_does_not_divide toy stalled [(7%Z, 1)] (of_int 0)).
  - exact toy_well_behaved.
  - reflexivity.
Defined.

Lemma video_events_in_frame_order_witness :
  exists ks,
    Forall2 (fun e k =>
               stamped of_int 30%Q (length drive_of_7) k (Tiempo_Salida e))
            (events (detections_manager
               (processor (after (process_video toy of_int None junction
                                                drive_of_7))))) ks /\
    ascending ks.
Proof.
  apply (video_events_in_frame_order toy of_int junction drive_of_7 None
           "r1" "h2" "t" 30%Q).
  reflexivity.
Defined.

End ProcessorFacts.
